(** * MCP-Process-Image: the ingestion, validation, dispatch and batch
      pipeline, embedded from the Python sources

    The embedding follows [utils.py], [models.py], [api_clients/base.py],
    [api_clients/openai_client.py] and [server.py].

    - A Python [str] is a [string]; each character stands for the code point
      of the same number (0..255).  On that range the case-insensitive
      matching of [re.IGNORECASE] is ASCII case folding and the white space of
      [str.strip] and [\s] is the set written in [is_space].
    - [bytes] is [list byte].
    - A Python [float] is a primitive binary64 [float]; integers are [Z].
    - Exceptions are values of [exn]; a message is kept as the term of its
      f-string rather than rendered text.
    - Everything outside the repository (HTTP, file system, the image codec,
      the remote model, the JSON parser, clocks and identifiers) is a field of
      [World].  Effectful code runs in [M], which threads the history of the
      calls made so far. *)

From Stdlib Require Import Strings.String Strings.Ascii Strings.Byte List ZArith Bool Lia Floats.
Import ListNotations.

Set Warnings "-inexact-float,-register-all".

Local Open Scope string_scope.
Local Open Scope list_scope.
Local Open Scope Z_scope.

(** ** Strings *)

Definition bytes := list byte.

Definition str_len (s : string) : Z := Z.of_nat (String.length s).

(** [s.startswith(p)] *)
Fixpoint startswith (s p : string) {struct p} : bool :=
  match p, s with
  | EmptyString, _ => true
  | String x p', String y s' => Ascii.eqb x y && startswith s' p'
  | String _ _, EmptyString => false
  end.

(** [needle in hay] *)
Fixpoint str_in (needle hay : string) : bool :=
  match hay with
  | EmptyString => startswith EmptyString needle
  | String _ rest => startswith hay needle || str_in needle rest
  end.

(** [s.split(sep, 1)[1]] for a one-character [sep] that occurs in [s];
    the empty string when it does not occur. *)
Fixpoint after_first (sep : ascii) (s : string) : string :=
  match s with
  | EmptyString => EmptyString
  | String c rest => if Ascii.eqb c sep then rest else after_first sep rest
  end.

(** [s.split(sep)] for a one-character separator *)
Fixpoint split_on (is_sep : ascii -> bool) (s : string) : list string :=
  match s with
  | EmptyString => [EmptyString]
  | String c rest =>
      if is_sep c then EmptyString :: split_on is_sep rest
      else match split_on is_sep rest with
           | [] => [String c EmptyString]
           | piece :: pieces => String c piece :: pieces
           end
  end.

(** [sep.join(parts)] *)
Fixpoint join (sep : string) (parts : list string) : string :=
  match parts with
  | [] => EmptyString
  | [p] => p
  | p :: rest => (p ++ sep ++ join sep rest)%string
  end.

Definition ascii_lower (c : ascii) : ascii :=
  let n := N_of_ascii c in
  if ((65 <=? n) && (n <=? 90))%N then ascii_of_N (n + 32) else c.

(** white space of [str.isspace] and of [\s] on code points below 256 *)
Definition is_space (c : ascii) : bool :=
  let n := N_of_ascii c in
  (((9 <=? n) && (n <=? 13)) || ((28 <=? n) && (n <=? 32))
   || (n =? 133) || (n =? 160))%N.

(** [p] matches at the start of [s] under [re.IGNORECASE]; the rest of [s]
    after the match *)
Fixpoint match_prefix_ci (p s : string) : option string :=
  match p, s with
  | EmptyString, _ => Some s
  | String a p', String b s' =>
      if Ascii.eqb (ascii_lower a) (ascii_lower b) then match_prefix_ci p' s'
      else None
  | String _ _, EmptyString => None
  end.

Fixpoint lstrip (s : string) : string :=
  match s with
  | EmptyString => EmptyString
  | String c rest => if is_space c then lstrip rest else s
  end.

Fixpoint rstrip (s : string) : string :=
  match s with
  | EmptyString => EmptyString
  | String c rest =>
      match rstrip rest with
      | EmptyString => if is_space c then EmptyString else String c EmptyString
      | kept => String c kept
      end
  end.

(** [s.strip()] *)
Definition strip (s : string) : string := rstrip (lstrip s).

(** [b.startswith(p)] on bytes *)
Fixpoint bytes_startswith (b p : bytes) {struct p} : bool :=
  match p, b with
  | [], _ => true
  | x :: p', y :: b' => Byte.eqb x y && bytes_startswith b' p'
  | _ :: _, [] => false
  end.

(** [needle in hay] on bytes *)
Fixpoint bytes_in (needle hay : bytes) : bool :=
  match hay with
  | [] => bytes_startswith [] needle
  | _ :: rest => bytes_startswith hay needle || bytes_in needle rest
  end.

(** ** Numbers *)

(** [float(n)] of a Python [int]: the nearest binary64, ties to even *)
Definition float_of_Z (n : Z) : float :=
  SF2Prim (binary_normalize prec emax n 0 false).

(** [a / b] on two [int]s (true division).  Every divisor in this program
    is a power of two or an image side; the operands convert exactly below
    [2^53], where this is the correctly rounded quotient. *)
Definition int_truediv (a b : Z) : float :=
  PrimFloat.div (float_of_Z a) (float_of_Z b).

(** [int(x)]: truncation towards zero; [None] for an infinity or a NaN,
    where Python raises *)
Definition int_of_float (x : float) : option Z :=
  match Prim2SF x with
  | S754_zero _ => Some 0
  | S754_finite s m e =>
      let mag := Z.shiftl (Zpos m) e in
      Some (if s then - mag else mag)
  | S754_infinity _ => None
  | S754_nan => None
  end.

(** [min(a, b)] on floats: [b] when [b < a], else [a] *)
Definition float_min (a b : float) : float :=
  if PrimFloat.ltb b a then b else a.

(** ** Exceptions and messages *)

(** The text of an exception, kept as the term of the f-string that builds
    it; [MJoin] over a Python [set] lists the members in source order, the
    rendered order being unspecified. *)
Inductive message : Type :=
| MStr (s : string)
| MInt (n : Z)
| MFloat (x : float) (spec : string)
| MNone
| MJoin (sep : string) (items : list string)
| MCat (parts : list message).

Inductive exn_class : Type :=
| ImageValidationError
| ImageLoadError
| ValueError
| ZeroDivisionError
| JSONDecodeError
| HttpxRequestError
| HttpxHTTPStatusError (status_code : Z)
| OpenAIRateLimitError
| OpenAIAuthenticationError
| OpenAIAPIError
| BinasciiError
| PydanticValidationError
| OtherException.

Inductive exn : Type := Exn (c : exn_class) (m : message).

Definition exn_cls (e : exn) : exn_class := let 'Exn c _ := e in c.

(** [str(e)] *)
Definition str_exn (e : exn) : message := let 'Exn _ m := e in m.

(** [isinstance(e, (ImageValidationError, ImageLoadError))] *)
Definition is_image_error (e : exn) : bool :=
  match exn_cls e with
  | ImageValidationError | ImageLoadError => true
  | _ => false
  end.

(** ** Values that cross the boundary of the repository *)

(** What [json.loads] returns. *)
Inductive json : Type :=
| JNull
| JBool (b : bool)
| JInt (n : Z)
| JFloat (x : float)
| JStr (s : string)
| JList (items : list json)
| JDict (fields : list (string * json)).

(** [key in d] and [d[key]] on a parsed object *)
Fixpoint dict_get (fields : list (string * json)) (key : string) : option json :=
  match fields with
  | [] => None
  | (k, v) :: rest => if String.eqb k key then Some v else dict_get rest key
  end.

(** The attributes of a [PIL.Image.Image] the program reads. *)
Record Image : Type := mkImage {
  img_format : option string;
  img_width : Z;
  img_height : Z;
  img_mode : string;
  img_has_getexif : bool
}.

(** The parts of an [httpx.Response] the program reads. *)
Record Response : Type := mkResponse {
  resp_status_code : Z;
  resp_is_error : bool;               (* whether [raise_for_status] raises *)
  resp_content_type : option string;  (* [headers.get("content-type")] *)
  resp_content : bytes
}.

(** One chat-completion request: the instruction and the embedded image. *)
Record ChatRequest : Type := mkChatRequest {
  req_text : string;
  req_image_url : string
}.

(** ** The outside world and the calls made to it *)

Inductive event : Type :=
| EvHttpGet (url : string) (timeout : Z)
| EvPathExists (path : string)
| EvPathIsFile (path : string)
| EvReadBytes (path : string)
| EvImageOpen (data : bytes)
| EvImageResize (width height : Z)
| EvImageSave (format : string)
| EvChatCompletion (req : ChatRequest)
| EvUuid4
| EvTime
| EvCtxInfo (text : message)
| EvCtxProgress (progress total : Z).

(** The history of calls, newest first. *)
Definition log := list event.

Record World : Type := mkWorld {
  (* libraries: functions of their arguments *)
  urlparse : string -> exn + (string * string);   (* scheme, netloc *)
  json_loads : string -> exn + json;
  lax_float : json -> option float;  (* pydantic: a non-number given for a float *)
  image_open : bytes -> exn + Image;
  image_resize_error : Image -> Z -> Z -> option exn;
  image_save : Image -> string -> exn + bytes;
  (* the environment: answers may depend on what happened before *)
  httpx_get : log -> string -> Z -> exn + Response;
  path_exists : log -> string -> bool;
  path_is_file : log -> string -> bool;
  path_read_bytes : log -> string -> exn + bytes;
  chat_completions_create : log -> ChatRequest -> exn + list (option string);
  uuid4 : log -> string;
  time_time : log -> float;
  ctx_info : log -> message -> option exn;
  ctx_report_progress : log -> Z -> Z -> option exn
}.

(** ** The monad of effectful code

    A computation takes the history, makes its calls and returns the longer
    history with either the exception it raised or its value. *)
Definition M (A : Type) : Type := log -> log * (exn + A).

Definition ret {A} (a : A) : M A := fun l => (l, inr a).

Definition raise {A} (e : exn) : M A := fun l => (l, inl e).

Definition bind {A B} (m : M A) (k : A -> M B) : M B :=
  fun l => match m l with
           | (l', inl e) => (l', inl e)
           | (l', inr a) => k a l'
           end.

(** [try: m  except Exception as e: handler(e)] *)
Definition try_except {A} (m : M A) (handler : exn -> M A) : M A :=
  fun l => match m l with
           | (l', inl e) => handler e l'
           | (l', inr a) => (l', inr a)
           end.

(** a call to the world: record it, answer from the history before it *)
Definition call {A} (ev : event) (answer : log -> exn + A) : M A :=
  fun l => (ev :: l, answer l).

(** a library function that can raise *)
Definition lift {A} (r : exn + A) : M A := fun l => (l, r).

Definition raise_if_some (r : option exn) : exn + unit :=
  match r with Some e => inl e | None => inr tt end.

Declare Scope m_scope.
Delimit Scope m_scope with M.
Notation "x <- m ;; k" := (bind m (fun x => k))
  (at level 61, m at next level, right associativity) : m_scope.
Notation "m ;;; k" := (bind m (fun _ => k))
  (at level 61, right associativity) : m_scope.
Notation "' pat <- m ;; k" := (bind m (fun x => match x with pat => k end))
  (at level 61, pat pattern, m at next level, right associativity) : m_scope.

(** the value or exception of a run, and the calls it made *)
Definition outcome {A} (m : M A) (l : log) : exn + A := snd (m l).
Definition history {A} (m : M A) (l : log) : log := fst (m l).

(** ** Library models: [base64.b64decode(s, validate=True)] and
       [os.path.normpath] *)

Definition b64_value (c : ascii) : option Z :=
  let n := Z.of_N (N_of_ascii c) in
  if (65 <=? n) && (n <=? 90) then Some (n - 65)
  else if (97 <=? n) && (n <=? 122) then Some (n - 71)
  else if (48 <=? n) && (n <=? 57) then Some (n + 4)
  else if n =? 43 then Some 62
  else if n =? 47 then Some 63
  else None.

Definition byte_of_Z (n : Z) : byte :=
  byte_of_ascii (ascii_of_N (Z.to_N (Z.land n 255))).

Definition binascii_error (text : string) : exn := Exn BinasciiError (MStr text).

(** The decoding loop of [binascii.a2b_base64] in strict mode (CPython 3.11):
    [quad_pos] counts the characters of the current group of four,
    [leftchar] holds the bits not yet written, [out] the bytes written so
    far, newest first. *)
Fixpoint a2b_base64_loop (s : string) (quad_pos leftchar pads : Z)
    (padding_started : bool) (out : bytes) : exn + bytes :=
  match s with
  | EmptyString =>
      if quad_pos =? 0 then inr (rev out)
      else if quad_pos =? 1 then
        inl (Exn BinasciiError
               (MCat [MStr "Invalid base64-encoded string: number of data characters (";
                      MInt (Z.of_nat (length out) / 3 * 4 + 1);
                      MStr ") cannot be 1 more than a multiple of 4"]))
      else inl (binascii_error "Incorrect padding")
  | String c rest =>
      if Ascii.eqb c "="%char then
        if (2 <=? quad_pos) && (4 <=? quad_pos + (pads + 1)) then
          match rest with
          | EmptyString => inr (rev out)
          | String _ _ => inl (binascii_error "Excess data after padding")
          end
        else
          a2b_base64_loop rest quad_pos leftchar
            (if 2 <=? quad_pos then pads + 1 else pads) true out
      else
        match b64_value c with
        | None => inl (binascii_error "Only base64 data is allowed")
        | Some v =>
            if padding_started then
              inl (binascii_error "Discontinuous padding not allowed")
            else if quad_pos =? 0 then
              a2b_base64_loop rest 1 v 0 false out
            else if quad_pos =? 1 then
              a2b_base64_loop rest 2 (Z.land v 15) 0 false
                (byte_of_Z (Z.lor (Z.shiftl leftchar 2) (Z.shiftr v 4)) :: out)
            else if quad_pos =? 2 then
              a2b_base64_loop rest 3 (Z.land v 3) 0 false
                (byte_of_Z (Z.lor (Z.shiftl leftchar 4) (Z.shiftr v 2)) :: out)
            else
              a2b_base64_loop rest 0 0 0 false
                (byte_of_Z (Z.lor (Z.shiftl leftchar 6) v) :: out)
        end
  end.

Fixpoint all_ascii (s : string) : bool :=
  match s with
  | EmptyString => true
  | String c rest => (N_of_ascii c <? 128)%N && all_ascii rest
  end.

Definition b64decode_validate (s : string) : exn + bytes :=
  if negb (all_ascii s) then
    inl (Exn ValueError (MStr "string argument should contain only ASCII characters"))
  else if startswith s "=" then
    inl (binascii_error "Leading padding not allowed")
  else a2b_base64_loop s 0 0 0 false [].

Definition is_slash (c : ascii) : bool := Ascii.eqb c "/"%char.

(** one component of the loop of [posixpath.normpath]; [new_comps] is kept
    newest first *)
Definition normpath_step (initial_slashes : nat) (new_comps : list string)
    (comp : string) : list string :=
  if String.eqb comp "" || String.eqb comp "." then new_comps
  else if negb (String.eqb comp "..")
          || (Nat.eqb initial_slashes 0 && match new_comps with [] => true | _ => false end)
          || match new_comps with last :: _ => String.eqb last ".." | [] => false end
  then comp :: new_comps
  else match new_comps with
       | _ :: popped => popped
       | [] => new_comps
       end.

Definition normpath (path : string) : string :=
  if String.eqb path "" then "."
  else
    let initial_slashes : nat :=
      if startswith path "/" then
        if startswith path "//" && negb (startswith path "///") then 2%nat else 1%nat
      else 0%nat in
    let comps := split_on is_slash path in
    let new_comps := rev (fold_left (normpath_step initial_slashes) comps []) in
    let joined := join "/" new_comps in
    let result := (String.concat "" (repeat "/" initial_slashes) ++ joined)%string in
    if String.eqb result "" then "." else result.

(** ** models.py: the enumerations *)

Inductive APIProvider : Type := OPENAI | ANTHROPIC | GOOGLE | AZURE.

Inductive AnalysisType : Type :=
| DESCRIPTION | OBJECTS | TEXT | COMPREHENSIVE
| UI_ANALYSIS | ACCESSIBILITY_CHECK | DESIGN_REVIEW | UX_ISSUES.

Definition APIProvider_value (p : APIProvider) : string :=
  match p with
  | OPENAI => "openai" | ANTHROPIC => "anthropic"
  | GOOGLE => "google" | AZURE => "azure"
  end.

Definition AnalysisType_value (a : AnalysisType) : string :=
  match a with
  | DESCRIPTION => "description" | OBJECTS => "objects" | TEXT => "text"
  | COMPREHENSIVE => "comprehensive" | UI_ANALYSIS => "ui_analysis"
  | ACCESSIBILITY_CHECK => "accessibility_check"
  | DESIGN_REVIEW => "design_review" | UX_ISSUES => "ux_issues"
  end.

Definition APIProvider_eqb (a b : APIProvider) : bool :=
  String.eqb (APIProvider_value a) (APIProvider_value b).

Definition AnalysisType_eqb (a b : AnalysisType) : bool :=
  String.eqb (AnalysisType_value a) (AnalysisType_value b).

(** the first member of an enumeration whose value is [v] *)
Definition enum_of_value {E} (members : list E) (value : E -> string)
    (v : string) : option E :=
  find (fun m => String.eqb (value m) v) members.

(** [APIProvider(v)]: the member with that value, else [ValueError] *)
Definition APIProvider_of (v : string) : exn + APIProvider :=
  match enum_of_value [OPENAI; ANTHROPIC; GOOGLE; AZURE] APIProvider_value v with
  | Some p => inr p
  | None => inl (Exn ValueError (MCat [MStr v; MStr " is not a valid APIProvider"]))
  end.

Definition AnalysisType_of (v : string) : exn + AnalysisType :=
  match enum_of_value
          [DESCRIPTION; OBJECTS; TEXT; COMPREHENSIVE; UI_ANALYSIS;
           ACCESSIBILITY_CHECK; DESIGN_REVIEW; UX_ISSUES]
          AnalysisType_value v with
  | Some a => inr a
  | None => inl (Exn ValueError (MCat [MStr v; MStr " is not a valid AnalysisType"]))
  end.

(** ** utils.py *)

(** The dictionary [validate_and_process_image] returns; the keys
    [resized] and [original_size] exist only after a resize. *)
Record Metadata : Type := mkMetadata {
  md_width : Z;
  md_height : Z;
  md_format : string;
  md_mode : string;
  md_size_bytes : Z;
  md_resized : option bool;
  md_original_size : option (Z * Z)
}.

(** where [load_image_data] found the bytes *)
Inductive SourceType : Type := SrcUrl | SrcBase64 | SrcFile.

Definition SourceType_tag (t : SourceType) : string :=
  match t with SrcUrl => "url" | SrcBase64 => "base64" | SrcFile => "file" end.

Definition byte_of_char (c : ascii) : byte := byte_of_ascii c.

(** a bytes literal *)
Definition bytes_lit (s : string) : bytes :=
  map byte_of_char (list_ascii_of_string s).

Definition PNG_SIGNATURE : bytes := [x89; x50; x4e; x47].
Definition JPEG_SIGNATURE : bytes := [xff; xd8; xff].

Definition supported_formats : list string :=
  ["JPEG"; "PNG"; "WebP"; "GIF"; "BMP"; "TIFF"].

Definition str_mem (s : string) (l : list string) : bool :=
  existsb (String.eqb s) l.

Definition message_of_option (o : option string) : message :=
  match o with Some s => MStr s | None => MNone end.

Definition validate_image_size (image_data : bytes) (max_size_mb : float)
    : exn + unit :=
  let size_mb := int_truediv (Z.of_nat (length image_data)) (1024 * 1024) in
  if PrimFloat.ltb max_size_mb size_mb then
    inl (Exn ImageValidationError
           (MCat [MStr "Image size "; MFloat size_mb ".2f";
                  MStr "MB exceeds maximum allowed size ";
                  MFloat max_size_mb ""; MStr "MB"]))
  else inr tt.

Definition validate_image_format (image : Image) : exn + unit :=
  if negb (match img_format image with
           | Some f => str_mem f supported_formats
           | None => false
           end)
  then
    inl (Exn ImageValidationError
           (MCat [MStr "Unsupported image format: ";
                  message_of_option (img_format image);
                  MStr ". "; MStr "Supported formats: ";
                  MJoin ", " supported_formats]))
  else inr tt.

(** the header sniffing of [validate_and_process_image], used when the
    codec reports no format *)
Definition sniff_format (image_data : bytes) : string :=
  if bytes_startswith image_data PNG_SIGNATURE then "PNG"
  else if bytes_startswith image_data JPEG_SIGNATURE then "JPEG"
  else if bytes_startswith image_data (bytes_lit "RIFF")
          && bytes_in (bytes_lit "WEBP") (firstn 12 image_data) then "WEBP"
  else if bytes_startswith image_data (bytes_lit "GIF8") then "GIF"
  else "PNG".

Definition set_format (image : Image) (f : string) : Image :=
  mkImage (Some f) (img_width image) (img_height image) (img_mode image)
          (img_has_getexif image).

(** [2048 / side]: true division of two [int]s *)
Definition py_truediv (a d : Z) : exn + float :=
  if d =? 0 then inl (Exn ZeroDivisionError (MStr "division by zero"))
  else inr (int_truediv a d).

(** [int(side * ratio)] *)
Definition scaled_side (side : Z) (ratio : float) : exn + Z :=
  match int_of_float (PrimFloat.mul (float_of_Z side) ratio) with
  | Some n => inr n
  | None => inl (Exn ValueError (MStr "cannot convert float to integer"))
  end.

Definition max_dimension : Z := 2048.

Section Utils.

Variable w : World.

Local Open Scope m_scope.

Definition is_url (source : string) : bool :=
  match urlparse w source with
  | inr (scheme, netloc) =>
      negb (String.eqb scheme "") && negb (String.eqb netloc "")
  | inl _ => false
  end.

Definition is_base64_image (source : string) : bool :=
  if startswith source "data:image/" then true
  else
    let source := if str_in "," source then after_first ","%char source
                  else source in
    match b64decode_validate source with
    | inr decoded => (0 <? length decoded)%nat
    | inl _ => false
    end.

Definition sanitize_file_path (file_path : string) : M string :=
  let clean_path := normpath file_path in
  if str_in ".." clean_path then
    raise (Exn ImageValidationError
             (MCat [MStr "Invalid file path: "; MStr file_path]))
  else
    present <- call (EvPathExists clean_path)
                    (fun l => inr (path_exists w l clean_path)) ;;
    if negb present then
      raise (Exn ImageLoadError (MCat [MStr "File not found: "; MStr file_path]))
    else
      regular <- call (EvPathIsFile clean_path)
                      (fun l => inr (path_is_file w l clean_path)) ;;
      if negb regular then
        raise (Exn ImageLoadError
                 (MCat [MStr "Path is not a file: "; MStr file_path]))
      else ret clean_path.

Definition load_image_from_url (url : string) (timeout : Z) : M bytes :=
  try_except
    (response <- call (EvHttpGet url timeout)
                      (fun l => httpx_get w l url timeout) ;;
     (if resp_is_error response then
        raise (Exn (HttpxHTTPStatusError (resp_status_code response))
                   (MStr "status error"))
      else ret tt) ;;;
     let content_type :=
       match resp_content_type response with Some t => t | None => "" end in
     if negb (startswith content_type "image/") then
       raise (Exn ImageLoadError
                (MCat [MStr "URL does not point to an image: ";
                       MStr content_type]))
     else ret (resp_content response))
    (fun e =>
       match exn_cls e with
       | HttpxRequestError =>
           raise (Exn ImageLoadError
                    (MCat [MStr "Failed to load image from URL: "; str_exn e]))
       | HttpxHTTPStatusError code =>
           raise (Exn ImageLoadError
                    (MCat [MStr "HTTP error loading image: "; MInt code]))
       | _ => raise e
       end).

Definition load_image_from_base64 (base64_data : string) : M bytes :=
  try_except
    (let base64_data :=
       if startswith base64_data "data:image/" then
         if str_in "," base64_data then after_first ","%char base64_data
         else base64_data
       else base64_data in
     lift (b64decode_validate base64_data))
    (fun e =>
       raise (Exn ImageLoadError
                (MCat [MStr "Failed to decode base64 image data: "; str_exn e]))).

Definition load_image_from_file (file_path : string) : M bytes :=
  try_except
    (path <- sanitize_file_path file_path ;;
     call (EvReadBytes path) (fun l => path_read_bytes w l path))
    (fun e =>
       raise (Exn ImageLoadError
                (MCat [MStr "Failed to load image from file: "; str_exn e]))).

Definition load_image_data (source : string) (timeout : Z)
    : M (bytes * string) :=
  if is_url source then
    data <- load_image_from_url source timeout ;;
    ret (data, "url")
  else if is_base64_image source then
    data <- load_image_from_base64 source ;;
    ret (data, "base64")
  else
    data <- load_image_from_file source ;;
    ret (data, "file").

(** [image.resize(new_size, LANCZOS)]: a new image of the requested size
    and the same mode, with no format *)
Definition resize (image : Image) (width height : Z) : M Image :=
  call (EvImageResize width height)
       (fun _ => match image_resize_error w image width height with
                 | Some e => inl e
                 | None => inr (mkImage None width height (img_mode image) false)
                 end).

Definition validate_and_process_image (image_data : bytes)
    (max_size_mb : float) (resize_if_needed : bool) : M (Image * Metadata) :=
  try_except
    (lift (validate_image_size image_data max_size_mb) ;;;
     image <- call (EvImageOpen image_data) (fun _ => image_open w image_data) ;;
     let format :=
       match img_format image with
       | None => sniff_format image_data
       | Some f => f
       end in
     let image := set_format image format in
     lift (validate_image_format image) ;;;
     let metadata :=
       mkMetadata (img_width image) (img_height image) format
                  (img_mode image) (Z.of_nat (length image_data)) None None in
     if resize_if_needed then
       if (max_dimension <? img_width image) || (max_dimension <? img_height image)
       then
         rw <- lift (py_truediv max_dimension (img_width image)) ;;
         rh <- lift (py_truediv max_dimension (img_height image)) ;;
         let ratio := float_min rw rh in
         new_w <- lift (scaled_side (img_width image) ratio) ;;
         new_h <- lift (scaled_side (img_height image) ratio) ;;
         resized <- resize image new_w new_h ;;
         ret (resized,
              mkMetadata (img_width resized) (img_height resized)
                         (md_format metadata) (md_mode metadata)
                         (md_size_bytes metadata) (Some true)
                         (Some (md_width metadata, md_height metadata)))
       else ret (image, metadata)
     else ret (image, metadata))
    (fun e =>
       if is_image_error e then raise e
       else raise (Exn ImageValidationError
                     (MCat [MStr "Failed to process image: "; str_exn e]))).

End Utils.

(** ** models.py: the result records *)

Record DetectedObject : Type := mkDetectedObject {
  do_name : string;
  do_confidence : float
}.

Record ExtractedText : Type := mkExtractedText {
  et_content : string;
  et_confidence : float
}.

Record ImageMetadata : Type := mkImageMetadata {
  im_width : Z;
  im_height : Z;
  im_format : string;
  im_size_bytes : option Z;
  im_processing_time : float;
  im_api_provider : APIProvider
}.

Record ImageAnalysis : Type := mkImageAnalysis {
  ia_description : option string;
  ia_objects : list DetectedObject;
  ia_text : list ExtractedText;
  ia_metadata : option ImageMetadata
}.

Record ProcessingResult : Type := mkProcessingResult {
  success : bool;
  provider : APIProvider;
  analysis : option ImageAnalysis;
  error : option message;
  request_id : option string;
  timestamp : float
}.

Record BatchProcessingResult : Type := mkBatchProcessingResult {
  total_images : Z;
  successful : Z;
  failed : Z;
  results : list ProcessingResult;
  processing_time : float
}.

Record ServerConfig : Type := mkServerConfig {
  default_api_provider : APIProvider;
  max_image_size_mb : float;
  request_timeout : Z;
  max_retries : Z;
  rate_limit_per_minute : Z;
  openai_api_key : option string;
  anthropic_api_key : option string;
  google_credentials_path : option string;
  azure_endpoint : option string;
  azure_api_key : option string
}.

(** the [ge=0.0, le=1.0] constraint of a confidence field *)
Definition confidence_in_range (x : float) : bool :=
  PrimFloat.leb 0 x && PrimFloat.leb x 1.

Definition validation_error (text : string) : exn :=
  Exn PydanticValidationError (MStr text).

(** ** config.py *)

(** Python truthiness of an optional string *)
Definition truthy (o : option string) : bool :=
  match o with
  | Some s => negb (String.eqb s "")
  | None => false
  end.

Definition get_api_key (p : APIProvider) (config : ServerConfig)
    (override_key : option string) : option string :=
  if truthy override_key then override_key
  else match p with
       | OPENAI => openai_api_key config
       | ANTHROPIC => anthropic_api_key config
       | GOOGLE => google_credentials_path config
       | AZURE => azure_api_key config
       end.

(** ** Text helpers of the clients *)

Definition ascii_upper (c : ascii) : ascii :=
  let n := N_of_ascii c in
  if ((97 <=? n) && (n <=? 122))%N then ascii_of_N (n - 32) else c.

Definition str_map (f : ascii -> ascii) (s : string) : string :=
  string_of_list_ascii (map f (list_ascii_of_string s)).

Definition upper : string -> string := str_map ascii_upper.
Definition lower : string -> string := str_map ascii_lower.

Definition b64_alphabet : list ascii :=
  list_ascii_of_string
    "ABCDEFGHIJKLMNOPQRSTUVWXYZabcdefghijklmnopqrstuvwxyz0123456789+/".

Definition b64_char (v : Z) : ascii := nth (Z.to_nat v) b64_alphabet "A"%char.

Definition Z_of_byte (x : byte) : Z := Z.of_N (Byte.to_N x).

(** [base64.b64encode(data).decode("utf-8")] *)
Fixpoint b64encode (data : bytes) : string :=
  match data with
  | [] => EmptyString
  | [x] =>
      let n := Z_of_byte x in
      String (b64_char (Z.shiftr n 2))
        (String (b64_char (Z.shiftl (Z.land n 3) 4)) "==")
  | [x; y] =>
      let n := Z_of_byte x in
      let m := Z_of_byte y in
      String (b64_char (Z.shiftr n 2))
        (String (b64_char (Z.lor (Z.shiftl (Z.land n 3) 4) (Z.shiftr m 4)))
           (String (b64_char (Z.shiftl (Z.land m 15) 2)) "="))
  | x :: y :: z :: rest =>
      let n := Z_of_byte x in
      let m := Z_of_byte y in
      let k := Z_of_byte z in
      String (b64_char (Z.shiftr n 2))
        (String (b64_char (Z.lor (Z.shiftl (Z.land n 3) 4) (Z.shiftr m 4)))
           (String (b64_char (Z.lor (Z.shiftl (Z.land m 15) 2) (Z.shiftr k 6)))
              (String (b64_char (Z.land k 63)) (b64encode rest))))
  end.

(** [re.sub(r"^(alt1|alt2|...)", "", text, flags=re.IGNORECASE)]: the first
    alternative that matches at the start is removed *)
Fixpoint strip_leading_alternative (alts : list string) (text : string) : string :=
  match alts with
  | [] => text
  | alt :: others =>
      match match_prefix_ci alt text with
      | Some rest => rest
      | None => strip_leading_alternative others text
      end
  end.

(** [re.sub(r"^(alt1|alt2|...)\s+", "", text, flags=re.IGNORECASE)]: an
    alternative counts only when white space follows it; the white space is
    removed with it *)
Fixpoint strip_leading_word (alts : list string) (text : string) : string :=
  match alts with
  | [] => text
  | alt :: others =>
      match match_prefix_ci alt text with
      | Some (String c rest) =>
          if is_space c then lstrip rest else strip_leading_word others text
      | _ => strip_leading_word others text
      end
  end.

Definition LEAD_INS : list string :=
  ["I can see"; "In this image"; "The image shows"; "This image contains"].

Definition ARTICLES : list string :=
  ["a"; "an"; "the"; "some"; "several"; "many"; "few"].

(** the class [,;.\n] of [re.split] *)
Definition is_delimiter (c : ascii) : bool :=
  Ascii.eqb c ","%char || Ascii.eqb c ";"%char || Ascii.eqb c "."%char
  || Ascii.eqb c "010"%char.

(** the body of the loop of [_extract_objects_from_text] for one fragment *)
Definition object_of_fragment (obj : string) : option DetectedObject :=
  let obj := strip obj in
  if negb (String.eqb obj "") && (2 <? str_len obj) then
    let obj := strip_leading_word ARTICLES obj in
    if negb (String.eqb obj "") then Some (mkDetectedObject obj 0.7) else None
  else None.

Fixpoint filter_map {A B} (f : A -> option B) (l : list A) : list B :=
  match l with
  | [] => []
  | x :: rest =>
      match f x with
      | Some y => y :: filter_map f rest
      | None => filter_map f rest
      end
  end.

Definition _extract_objects_from_text (text : string) : list DetectedObject :=
  let text := strip_leading_alternative LEAD_INS text in
  let objects := split_on is_delimiter text in
  let detected_objects := filter_map object_of_fragment objects in
  firstn 10 detected_objects.

(** ** api_clients/base.py *)

(** The abstract members of [BaseImageClient]. *)
Class BaseImageClient : Type := {
  client_provider : APIProvider;
  client_supported_analysis_types : list AnalysisType;
  client_max_image_size_mb : float;
  client_supported_formats : list string;
  analyze_image : Image -> AnalysisType -> M ImageAnalysis;
  describe_image : Image -> M string;
  extract_text : Image -> M (list ExtractedText);
  detect_objects : Image -> M (list DetectedObject)
}.

(** [BaseImageClient.validate_image], over the two properties it reads *)
Definition validate_image (formats : list string) (max_mb : float)
    (image : Image) : exn + unit :=
  let image_format :=
    match img_format image with
    | Some f => f
    | None =>
        if img_has_getexif image || str_mem (img_mode image) ["RGB"; "RGBA"]
        then "JPEG"
        else if str_mem (img_mode image) ["P"; "L"] then "PNG"
        else "JPEG"
    end in
  if negb (str_mem image_format formats) then
    inl (Exn ValueError
           (MCat [MStr "Unsupported image format: "; MStr image_format;
                  MStr ". "; MStr "Supported formats: "; MJoin ", " formats]))
  else
    let estimated_size_mb :=
      int_truediv (img_width image * img_height image * 3) (1024 * 1024) in
    if PrimFloat.ltb max_mb estimated_size_mb then
      inl (Exn ValueError
             (MCat [MStr "Image too large: ~"; MFloat estimated_size_mb ".1f";
                    MStr "MB. "; MStr "Maximum size: "; MFloat max_mb "";
                    MStr "MB"]))
    else inr tt.

Section Clients.

Variable w : World.

Local Open Scope m_scope.

Definition now : M float := call EvTime (fun l => inr (time_time w l)).

Definition new_uuid : M string := call EvUuid4 (fun l => inr (uuid4 w l)).

(** [ImageMetadata(width=image_metadata["width"], ...)] *)
Definition metadata_of (image_metadata : Metadata) (elapsed : float)
    (p : APIProvider) : ImageMetadata :=
  mkImageMetadata (md_width image_metadata) (md_height image_metadata)
                  (md_format image_metadata) (Some (md_size_bytes image_metadata))
                  elapsed p.

Definition set_metadata (a : ImageAnalysis) (m : ImageMetadata) : ImageAnalysis :=
  mkImageAnalysis (ia_description a) (ia_objects a) (ia_text a) (Some m).

(** [BaseImageClient.process_image] *)
Definition client_process_image `{BaseImageClient} (image : Image)
    (image_metadata : Metadata) (analysis_type : AnalysisType)
    : M ProcessingResult :=
  start_time <- now ;;
  rid <- new_uuid ;;
  try_except
    (let metadata := metadata_of image_metadata 0 client_provider in
     a <- analyze_image image analysis_type ;;
     finish <- now ;;
     let elapsed := PrimFloat.sub finish start_time in
     let metadata := metadata_of image_metadata elapsed client_provider in
     let a := set_metadata a metadata in
     stamp <- now ;;
     ret (mkProcessingResult true client_provider (Some a) None (Some rid) stamp))
    (fun e =>
       _ <- now ;;
       stamp <- now ;;
       ret (mkProcessingResult false client_provider None (Some (str_exn e))
                               (Some rid) stamp)).

(** [BaseImageClient._create_error_result] *)
Definition _create_error_result `{BaseImageClient} (error_message : message)
    : M ProcessingResult :=
  rid <- new_uuid ;;
  stamp <- now ;;
  ret (mkProcessingResult false client_provider None (Some error_message)
                          (Some rid) stamp).

(** ** utils.py: [image_to_base64] *)

Definition image_to_base64 (image : Image) (format : string) : M string :=
  let image :=
    if String.eqb (upper format) "JPEG" && String.eqb (img_mode image) "RGBA"
    then mkImage None (img_width image) (img_height image) "RGB" false
    else image in
  image_data <- call (EvImageSave format) (fun _ => image_save w image format) ;;
  let base64_data := b64encode image_data in
  ret ("data:image/" ++ lower format ++ ";base64," ++ base64_data)%string.

(** ** api_clients/openai_client.py *)

Definition OPENAI_FORMATS : list string := ["JPEG"; "PNG"; "WebP"; "GIF"].
Definition OPENAI_MAX_MB : float := 20.

Definition openai_validate_image (image : Image) : M unit :=
  lift (validate_image OPENAI_FORMATS OPENAI_MAX_MB image).

(** one attempt of [_make_api_call] *)
Definition api_call_once (req : ChatRequest) : M string :=
  try_except
    (choices <- call (EvChatCompletion req)
                     (fun l => chat_completions_create w l req) ;;
     match choices with
     | [] => raise (Exn ValueError (MStr "No response from OpenAI API"))
     | first :: _ =>
         if truthy first then ret (match first with Some c => c | None => "" end)
         else raise (Exn ValueError (MStr "Empty response from OpenAI API"))
     end)
    (fun e =>
       match exn_cls e with
       | OpenAIRateLimitError =>
           raise (Exn ValueError
                    (MCat [MStr "OpenAI rate limit exceeded: "; str_exn e]))
       | OpenAIAuthenticationError =>
           raise (Exn ValueError
                    (MCat [MStr "OpenAI authentication failed: "; str_exn e]))
       | OpenAIAPIError =>
           raise (Exn ValueError (MCat [MStr "OpenAI API error: "; str_exn e]))
       | _ =>
           raise (Exn ValueError
                    (MCat [MStr "Unexpected error calling OpenAI API: ";
                           str_exn e]))
       end).

(** [@retry(stop=stop_after_attempt(n), reraise=True)]: the last attempt's
    exception is the one raised; the waits between attempts are not
    modelled *)
Fixpoint retry {A} (attempts : nat) (m : M A) : M A :=
  match attempts with
  | O => m
  | S O => m
  | S n => try_except m (fun _ => retry n m)
  end.

Definition _make_api_call (req : ChatRequest) : M string :=
  retry 3 (api_call_once req).

Definition DESCRIBE_PROMPT : string :=
  "Please provide a detailed description of this image. Focus on the main subjects, setting, colors, composition, and any notable details.".

Definition TEXT_PROMPT : string :=
  "Please extract all visible text from this image. Return the results as a JSON array where each item has 'content' (the text) and 'confidence' (estimated confidence from 0.0 to 1.0). If no text is found, return an empty array.".

Definition OBJECTS_PROMPT : string :=
  "Please identify and list all objects, people, animals, and significant items visible in this image. Return the results as a JSON array where each item has 'name' (object name) and 'confidence' (estimated confidence from 0.0 to 1.0). Focus on the most prominent and clearly visible objects.".

(** the common opening of the three remote methods *)
Definition ask (image : Image) (prompt : string) : M string :=
  openai_validate_image image ;;;
  image_data <- image_to_base64 image "JPEG" ;;
  _make_api_call (mkChatRequest prompt image_data).

Definition openai_describe_image (image : Image) : M string :=
  ask image DESCRIBE_PROMPT.

(** pydantic on a [str] field *)
Definition validated_str (j : json) : exn + string :=
  match j with
  | JStr s => inr s
  | _ => inl (validation_error "Input should be a valid string")
  end.

(** pydantic on a confidence field: a number is taken as it is, anything
    else is left to the library; the result must lie in [0, 1] *)
Definition validated_confidence (j : json) : exn + float :=
  let converted :=
    match j with
    | JFloat x => Some x
    | JInt n => Some (float_of_Z n)
    | other => lax_float w other
    end in
  match converted with
  | Some x =>
      if confidence_in_range x then inr x
      else inl (validation_error "Input should be between 0 and 1")
  | None => inl (validation_error "Input should be a valid number")
  end.

(** [item.get("confidence", 0.8)], validated *)
Definition confidence_of (fields : list (string * json)) : exn + float :=
  match dict_get fields "confidence" with
  | Some j => validated_confidence j
  | None => inr 0.8%float
  end.

(** the loop over the parsed list, for a record built from the field [key] *)
Fixpoint coerce_items {R} (key : string) (make : string -> float -> R)
    (items : list json) : exn + list R :=
  match items with
  | [] => inr []
  | item :: rest =>
      let continue (found : option R) :=
        match coerce_items key make rest with
        | inl e => inl e
        | inr others =>
            inr (match found with Some r => r :: others | None => others end)
        end in
      match item with
      | JDict fields =>
          match dict_get fields key with
          | Some v =>
              match validated_str v with
              | inl e => inl e
              | inr s =>
                  match confidence_of fields with
                  | inl e => inl e
                  | inr c => continue (Some (make s c))
                  end
              end
          | None => continue None
          end
      | JStr s => continue (Some (make s 0.8%float))
      | _ => continue None
      end
  end.

(** what [extract_text] makes of the model's reply *)
Definition text_of_response (response : string) : exn + list ExtractedText :=
  match json_loads w response with
  | inr (JList text_data) => coerce_items "content" mkExtractedText text_data
  | inr _ => inr [mkExtractedText response 0.8%float]
  | inl e =>
      match exn_cls e with
      | JSONDecodeError => inr [mkExtractedText response 0.8%float]
      | _ => inl e
      end
  end.

(** what [detect_objects] makes of the model's reply *)
Definition objects_of_response (response : string) : exn + list DetectedObject :=
  match json_loads w response with
  | inr (JList objects_data) => coerce_items "name" mkDetectedObject objects_data
  | inr _ => inr (_extract_objects_from_text response)
  | inl e =>
      match exn_cls e with
      | JSONDecodeError => inr (_extract_objects_from_text response)
      | _ => inl e
      end
  end.

Definition openai_extract_text (image : Image) : M (list ExtractedText) :=
  response <- ask image TEXT_PROMPT ;;
  lift (text_of_response response).

Definition openai_detect_objects (image : Image) : M (list DetectedObject) :=
  response <- ask image OBJECTS_PROMPT ;;
  lift (objects_of_response response).

Definition analysis_in (t : AnalysisType) (l : list AnalysisType) : bool :=
  existsb (AnalysisType_eqb t) l.

Definition openai_analyze_image (image : Image) (analysis_type : AnalysisType)
    : M ImageAnalysis :=
  openai_validate_image image ;;;
  description <-
    (if analysis_in analysis_type [DESCRIPTION; COMPREHENSIVE]
     then d <- openai_describe_image image ;; ret (Some d)
     else ret None) ;;
  text <-
    (if analysis_in analysis_type [TEXT; COMPREHENSIVE]
     then openai_extract_text image
     else ret []) ;;
  objects <-
    (if analysis_in analysis_type [OBJECTS; COMPREHENSIVE]
     then openai_detect_objects image
     else ret []) ;;
  ret (mkImageAnalysis description objects text None).

#[export] Instance OpenAIImageClient : BaseImageClient := {
  client_provider := OPENAI;
  client_supported_analysis_types := [DESCRIPTION; OBJECTS; TEXT; COMPREHENSIVE];
  client_max_image_size_mb := OPENAI_MAX_MB;
  client_supported_formats := OPENAI_FORMATS;
  analyze_image := openai_analyze_image;
  describe_image := openai_describe_image;
  extract_text := openai_extract_text;
  detect_objects := openai_detect_objects
}.

(** [OpenAIImageClient.analyze_with_custom_prompt] *)
Definition analyze_with_custom_prompt (image : Image)
    (image_metadata : Metadata) (custom_prompt : string) : M ProcessingResult :=
  start_time <- now ;;
  rid <- new_uuid ;;
  try_except
    (openai_validate_image image ;;;
     image_data <- image_to_base64 image "JPEG" ;;
     response <- _make_api_call (mkChatRequest custom_prompt image_data) ;;
     let a := mkImageAnalysis (Some response) [] [] None in
     finish <- now ;;
     let elapsed := PrimFloat.sub finish start_time in
     let a := set_metadata a (metadata_of image_metadata elapsed OPENAI) in
     stamp <- now ;;
     ret (mkProcessingResult true OPENAI (Some a) None (Some rid) stamp))
    (fun e =>
       _ <- now ;;
       stamp <- now ;;
       ret (mkProcessingResult false OPENAI None (Some (str_exn e))
                               (Some rid) stamp)).

End Clients.

(** ** server.py *)

(** the request context handed in by the protocol layer *)
Inductive Context : Type := RequestContext.

(** [a or b] on an optional string and a default *)
Definition or_default (o : option string) (default : string) : string :=
  if truthy o then match o with Some s => s | None => default end
  else default.

(** the loop variables of [analyze_image_batch] *)
Record BatchState : Type := mkBatchState {
  bs_results : list ProcessingResult;
  bs_successful : Z;
  bs_failed : Z
}.

Section Server.

Variable w : World.
Variable config : ServerConfig.

Local Open Scope m_scope.

Definition info (ctx : option Context) (text : message) : M unit :=
  match ctx with
  | Some _ => call (EvCtxInfo text) (fun l => raise_if_some (ctx_info w l text))
  | None => ret tt
  end.

Definition report_progress (ctx : option Context) (progress total : Z) : M unit :=
  match ctx with
  | Some _ =>
      call (EvCtxProgress progress total)
           (fun l => raise_if_some (ctx_report_progress w l progress total))
  | None => ret tt
  end.

(** [create_api_client]: the only client there is *)
Definition create_api_client (p : APIProvider) (api_key : string)
    : exn + BaseImageClient :=
  if APIProvider_eqb p OPENAI then inr (OpenAIImageClient w)
  else inl (Exn ValueError
              (MCat [MStr "Unsupported API provider: ";
                     MStr (APIProvider_value p)])).

Definition requested_provider (api_provider : option string) : exn + APIProvider :=
  APIProvider_of
    (or_default api_provider (APIProvider_value (default_api_provider config))).

Definition requested_analysis (analysis_type : option string) : exn + AnalysisType :=
  AnalysisType_of (or_default analysis_type (AnalysisType_value COMPREHENSIVE)).

Definition effective_key (p : APIProvider) (api_key : option string) : exn + string :=
  let effective_api_key := get_api_key p config api_key in
  if negb (truthy effective_api_key) then
    inl (Exn ValueError
           (MCat [MStr "No API key available for provider: ";
                  MStr (APIProvider_value p)]))
  else inr (match effective_api_key with Some k => k | None => "" end).

(** the client call shared by the two tools: the custom prompt when one is
    given, else the requested analysis *)
Definition run_client (client : BaseImageClient) (image : Image)
    (metadata : Metadata) (analysis_kind : AnalysisType) (prompt : option string)
    : M ProcessingResult :=
  if truthy prompt then
    analyze_with_custom_prompt w image metadata
      (match prompt with Some p => p | None => "" end)
  else @client_process_image w client image metadata analysis_kind.

(** the error envelope of the handlers of [process_image]; the provider is
    looked up again from the arguments *)
Definition error_envelope (api_provider : option string) (text : message)
    (rid : string) : M ProcessingResult :=
  p <- lift (requested_provider api_provider) ;;
  stamp <- now w ;;
  ret (mkProcessingResult false p None (Some text) (Some rid) stamp).

(** the tool [process_image]; the envelope stands for its JSON text *)
Definition process_image (image_source : string) (api_provider api_key
    analysis_type prompt : option string) (ctx : option Context)
    : M ProcessingResult :=
  rid <- new_uuid w ;;
  try_except
    (p <- lift (requested_provider api_provider) ;;
     analysis_kind <- lift (requested_analysis analysis_type) ;;
     key <- lift (effective_key p api_key) ;;
     info ctx (MCat [MStr "Loading image from: "; MStr image_source]) ;;;
     '(image_data, _) <- load_image_data w image_source (request_timeout config) ;;
     '(image, metadata) <-
        validate_and_process_image w image_data (max_image_size_mb config) true ;;
     info ctx (MCat [MStr "Processing "; MInt (md_width metadata); MStr "x";
                     MInt (md_height metadata); MStr " ";
                     MStr (md_format metadata); MStr " image"]) ;;;
     client <- lift (create_api_client p key) ;;
     result <- run_client client image metadata analysis_kind prompt ;;
     match ctx with
     | Some _ =>
         text <- match analysis result with
                 | Some a =>
                     match ia_metadata a with
                     | Some m =>
                         ret (MCat [MStr "Analysis completed in ";
                                    MFloat (im_processing_time m) ".2f";
                                    MStr "s"])
                     | None =>
                         raise (Exn OtherException
                                  (MStr "'NoneType' object has no attribute 'processing_time'"))
                     end
                 | None => ret (MStr "Analysis failed")
                 end ;;
         info ctx text
     | None => ret tt
     end ;;;
     ret result)
    (fun e =>
       if is_image_error e then error_envelope api_provider (str_exn e) rid
       else error_envelope api_provider
              (MCat [MStr "Unexpected error: "; str_exn e]) rid).

(** the tools [extract_text] and [detect_objects] *)
Definition tool_extract_text (image_source : string) (api_provider api_key
    prompt : option string) (ctx : option Context) : M ProcessingResult :=
  process_image image_source api_provider api_key
    (Some (AnalysisType_value TEXT)) prompt ctx.

Definition tool_detect_objects (image_source : string) (api_provider api_key
    prompt : option string) (ctx : option Context) : M ProcessingResult :=
  process_image image_source api_provider api_key
    (Some (AnalysisType_value OBJECTS)) prompt ctx.

Definition record_result (st : BatchState) (result : ProcessingResult)
    : BatchState :=
  let results := bs_results st ++ [result] in
  if success result
  then mkBatchState results (bs_successful st + 1) (bs_failed st)
  else mkBatchState results (bs_successful st) (bs_failed st + 1).

(** one turn of the loop of [analyze_image_batch], with its handler *)
Definition batch_item (client : BaseImageClient) (p : APIProvider)
    (analysis_kind : AnalysisType) (prompt : option string)
    (ctx : option Context) (total_images i : Z) (image_source : string)
    (st : BatchState) : M BatchState :=
  try_except
    (report_progress ctx i total_images ;;;
     info ctx (MCat [MStr "Processing image "; MInt (i + 1); MStr "/";
                     MInt total_images; MStr ": "; MStr image_source]) ;;;
     '(image_data, _) <- load_image_data w image_source (request_timeout config) ;;
     '(image, metadata) <-
        validate_and_process_image w image_data (max_image_size_mb config) true ;;
     result <- run_client client image metadata analysis_kind prompt ;;
     ret (record_result st result))
    (fun e =>
       rid <- new_uuid w ;;
       stamp <- now w ;;
       let error_result :=
         mkProcessingResult false p None (Some (str_exn e)) (Some rid) stamp in
       ret (mkBatchState (bs_results st ++ [error_result])
                         (bs_successful st) (bs_failed st + 1))).

(** [for i, image_source in enumerate(image_sources)] *)
Fixpoint batch_loop (client : BaseImageClient) (p : APIProvider)
    (analysis_kind : AnalysisType) (prompt : option string)
    (ctx : option Context) (total_images i : Z) (image_sources : list string)
    (st : BatchState) : M BatchState :=
  match image_sources with
  | [] => ret st
  | image_source :: rest =>
      st' <- batch_item client p analysis_kind prompt ctx total_images i
                        image_source st ;;
      batch_loop client p analysis_kind prompt ctx total_images (i + 1) rest st'
  end.

Definition len (l : list string) : Z := Z.of_nat (length l).

(** what happens before the first image: provider, analysis kind, key,
    client *)
Definition batch_setup (api_provider api_key analysis_type : option string)
    : exn + (BaseImageClient * APIProvider * AnalysisType) :=
  match requested_provider api_provider with
  | inl e => inl e
  | inr p =>
      match requested_analysis analysis_type with
      | inl e => inl e
      | inr analysis_kind =>
          match effective_key p api_key with
          | inl e => inl e
          | inr key =>
              match create_api_client p key with
              | inl e => inl e
              | inr client => inr (client, p, analysis_kind)
              end
          end
      end
  end.

(** the body of the outer [try] of [analyze_image_batch] *)
Definition batch_body (start_time : float) (image_sources : list string)
    (api_provider api_key analysis_type prompt : option string)
    (ctx : option Context) : M BatchProcessingResult :=
  '(client, p, analysis_kind) <-
     lift (batch_setup api_provider api_key analysis_type) ;;
  let total_images := len image_sources in
  info ctx (MCat [MStr "Processing "; MInt total_images; MStr " images"]) ;;;
  st <- batch_loop client p analysis_kind prompt ctx total_images 0
                   image_sources (mkBatchState [] 0 0) ;;
  finish <- now w ;;
  let batch_result :=
    mkBatchProcessingResult total_images (bs_successful st) (bs_failed st)
                            (bs_results st) (PrimFloat.sub finish start_time) in
  info ctx (MCat [MStr "Batch processing completed: "; MInt (bs_successful st);
                  MStr " successful, "; MInt (bs_failed st); MStr " failed"]) ;;;
  ret batch_result.

(** the tool [analyze_image_batch]; the envelope stands for its JSON text *)
Definition analyze_image_batch (image_sources : list string)
    (api_provider api_key analysis_type prompt : option string)
    (ctx : option Context) : M BatchProcessingResult :=
  start_time <- now w ;;
  try_except
    (batch_body start_time image_sources api_provider api_key analysis_type
                prompt ctx)
    (fun e =>
       finish <- now w ;;
       ret (mkBatchProcessingResult (len image_sources) 0 (len image_sources) []
                                    (PrimFloat.sub finish start_time))).

End Server.

(** ** Notions the statements use *)

(** [len(image_data) / (1024 * 1024)], the size [validate_image_size]
    compares *)
Definition size_mb (image_data : bytes) : float :=
  int_truediv (Z.of_nat (length image_data)) (1024 * 1024).

(** the branch [load_image_data] takes *)
Definition classify (w : World) (source : string) : SourceType :=
  if is_url w source then SrcUrl
  else if is_base64_image source then SrcBase64
  else SrcFile.

(** the loader of each branch *)
Definition loader (w : World) (t : SourceType) (source : string) (timeout : Z)
    : M bytes :=
  match t with
  | SrcUrl => load_image_from_url w source timeout
  | SrcBase64 => load_image_from_base64 source
  | SrcFile => load_image_from_file w source
  end.

(** the text [load_image_from_base64] hands to the decoder *)
Definition base64_payload (base64_data : string) : string :=
  if startswith base64_data "data:image/" && str_in "," base64_data
  then after_first ","%char base64_data
  else base64_data.

(** a call that touches the file system *)
Definition is_fs_event (ev : event) : bool :=
  match ev with
  | EvPathExists _ | EvPathIsFile _ | EvReadBytes _ => true
  | _ => false
  end.

(** the envelope one turn of the batch loop appends for its source *)
Definition item_envelope (w : World) (config : ServerConfig)
    (client : BaseImageClient) (p : APIProvider) (analysis_kind : AnalysisType)
    (prompt : option string) (ctx : option Context) (total_images i : Z)
    (image_source : string) : M ProcessingResult :=
  try_except
    (bind (report_progress w ctx i total_images) (fun _ =>
     bind (info w ctx (MCat [MStr "Processing image "; MInt (i + 1); MStr "/";
                             MInt total_images; MStr ": "; MStr image_source]))
          (fun _ =>
     bind (load_image_data w image_source (request_timeout config)) (fun loaded =>
     bind (validate_and_process_image w (fst loaded) (max_image_size_mb config) true)
          (fun processed =>
     run_client w client (fst processed) (snd processed) analysis_kind prompt)))))
    (fun e =>
       bind (new_uuid w) (fun rid =>
       bind (now w) (fun stamp =>
       ret (mkProcessingResult false p None (Some (str_exn e)) (Some rid) stamp)))).

(** the history before the turn for the [k]-th of [image_sources], when the
    loop starts at index [i] with history [l] *)
Fixpoint log_before (w : World) (config : ServerConfig)
    (client : BaseImageClient) (p : APIProvider) (analysis_kind : AnalysisType)
    (prompt : option string) (ctx : option Context) (total_images i : Z)
    (image_sources : list string) (k : nat) (l : log) : log :=
  match k, image_sources with
  | S k', image_source :: rest =>
      log_before w config client p analysis_kind prompt ctx total_images
        (i + 1) rest k'
        (history (item_envelope w config client p analysis_kind prompt ctx
                                total_images i image_source) l)
  | _, _ => l
  end.

(** a record put before the records of the rest of the list, when the rest
    raised nothing *)
Definition cons_result {R} (r : R) (rest : exn + list R) : exn + list R :=
  match rest with
  | inr others => inr (r :: others)
  | inl e => inl e
  end.

(** the reply did not parse, or parsed to something that is not a list *)
Definition not_a_json_list (w : World) (response : string) : Prop :=
  (exists e, json_loads w response = inl e /\ exn_cls e = JSONDecodeError)
  \/ (exists v, json_loads w response = inr v
                /\ forall items, v <> JList items).

Definition DOG_REPLY : string := "I can see a dog, a ball, and a tree.".

(** the fragments of a reply the heuristic looks at *)
Definition fragments (response : string) : list string :=
  split_on is_delimiter (strip_leading_alternative LEAD_INS response).

(** a fragment is kept when, stripped, it has at least 3 characters *)
Definition long_enough (fragment : string) : bool :=
  2 <? str_len (strip fragment).

(** the name made of a fragment *)
Definition name_of_fragment (fragment : string) : string :=
  strip_leading_word ARTICLES (strip fragment).

(** the last character of [s] exists and is not white space *)
Fixpoint ends_in_text (s : string) : bool :=
  match s with
  | EmptyString => false
  | String c EmptyString => negb (is_space c)
  | String _ rest => ends_in_text rest
  end.

(** an envelope carries an analysis exactly when it reports success, and an
    error exactly when it does not *)
Definition well_formed (r : ProcessingResult) : Prop :=
  (success r = true <-> analysis r <> None)
  /\ (analysis r <> None <-> error r = None).

Definition count_successes (rs : list ProcessingResult) : Z :=
  Z.of_nat (length (filter success rs)).

(** every value [m] can return satisfies [P] *)
Definition ensures {A} (m : M A) (P : A -> Prop) : Prop :=
  forall l l' a, m l = (l', inr a) -> P a.

(** [m] returns a value from every history: it never raises *)
Definition total {A} (m : M A) : Prop :=
  forall l, exists l' a, m l = (l', inr a).

(** ** Sample worlds *)

(** a small stand-in for [urlparse]: the scheme before [://] and the host
    up to the next slash *)
Definition sample_urlparse (s : string) : exn + (string * string) :=
  if startswith s "https://" then
    inr ("https", hd "" (split_on is_slash (substring 8 (String.length s) s)))
  else if startswith s "http://" then
    inr ("http", hd "" (split_on is_slash (substring 7 (String.length s) s)))
  else if startswith s "data:" then inr ("data", "")
  else inr ("", "").

Definition QUOTE : string := String (ascii_of_nat 34) EmptyString.

(** the text [[{"name":"cat","confidence":0.9}]] *)
Definition CAT_JSON : string :=
  String.concat QUOTE ["[{"; "name"; ":"; "cat"; ","; "confidence"; ":0.9}]"].

(** a stand-in for [json.loads] that knows one document *)
Definition sample_json_loads (s : string) : exn + json :=
  if String.eqb s CAT_JSON then
    inr (JList [JDict [("name", JStr "cat"); ("confidence", JFloat 0.9)]])
  else inl (Exn JSONDecodeError (MStr "Expecting value")).

(** a world with no network, an empty file system and a codec that answers
    [opened]; the model replies with [reply] *)
Definition sample_world (opened : bytes -> exn + Image) (reply : string) : World :=
  mkWorld
    sample_urlparse
    sample_json_loads
    (fun _ => None)
    opened
    (fun _ _ _ => None)
    (fun _ _ => inr (bytes_lit "jpeg"))
    (fun _ _ _ => inl (Exn HttpxRequestError (MStr "connection refused")))
    (fun _ _ => false)
    (fun _ _ => false)
    (fun _ _ => inl (Exn OtherException (MStr "No such file or directory")))
    (fun _ _ => inr [Some reply])
    (fun l => ("id" ++ string_of_list_ascii (repeat "i"%char (length l)))%string)
    (fun l => float_of_Z (Z.of_nat (length l)))
    (fun _ _ => None)
    (fun _ _ _ => None).

Definition sample_config (key : option string) : ServerConfig :=
  mkServerConfig OPENAI 10 30 3 60 key None None None None.

Definition png_image (width height : Z) : Image :=
  mkImage (Some "PNG") width height "RGB" false.

(** the header of a WebP file *)
Definition WEBP_HEADER : bytes :=
  bytes_lit "RIFF" ++ [x00; x00; x00; x00] ++ bytes_lit "WEBP".

(** ** The rest of config.py and the validators of models.py *)

(** [ServerConfig.validate_max_image_size] *)
Definition validate_max_image_size (v : float) : exn + float :=
  if PrimFloat.leb v 0 || PrimFloat.ltb 100 v then
    inl (Exn ValueError (MStr "max_image_size_mb must be between 0 and 100"))
  else inr v.

(** [ServerConfig.validate_request_timeout] *)
Definition validate_request_timeout (v : Z) : exn + Z :=
  if (v <=? 0) || (300 <? v) then
    inl (Exn ValueError
           (MStr "request_timeout must be between 1 and 300 seconds"))
  else inr v.

(** [validate_api_key] *)
Definition validate_api_key (p : APIProvider) (api_key : option string) : bool :=
  if negb (truthy api_key) then false
  else 0 <? str_len (strip (match api_key with Some k => k | None => "" end)).

(** [for provider in APIProvider] *)
Definition ALL_PROVIDERS : list APIProvider := [OPENAI; ANTHROPIC; GOOGLE; AZURE].

(** [get_supported_providers] *)
Definition get_supported_providers (config : ServerConfig) : list APIProvider :=
  filter (fun p => validate_api_key p (get_api_key p config None)) ALL_PROVIDERS.

(** ** Notions the further statements use *)

(** the calls [m] makes are all of the kind [P], from every history *)
Definition emits {A} (m : M A) (P : event -> bool) : Prop :=
  forall l, exists evs, history m l = evs ++ l /\ forallb P evs = true.

Definition is_chat_event (ev : event) : bool :=
  match ev with EvChatCompletion _ => true | _ => false end.

Definition is_codec_event (ev : event) : bool :=
  match ev with EvImageOpen _ | EvImageResize _ _ => true | _ => false end.

(** a call that leaves the process: network or file system *)
Definition is_source_event (ev : event) : bool :=
  match ev with
  | EvHttpGet _ _ | EvPathExists _ | EvPathIsFile _ | EvReadBytes _ => true
  | _ => false
  end.

(** clock, identifier or notification: no image is touched *)
Definition is_bookkeeping_event (ev : event) : bool :=
  match ev with
  | EvUuid4 | EvTime | EvCtxInfo _ | EvCtxProgress _ _ => true
  | _ => false
  end.

(** every byte, in order *)
Definition all_bytes : list byte :=
  map (fun n => byte_of_Z (Z.of_nat n)) (seq 0 256).

(** the four characters [b64encode] writes for three bytes *)
Definition b64_c1 (x : byte) : Z := Z.shiftr (Z_of_byte x) 2.
Definition b64_c2 (x y : byte) : Z :=
  Z.lor (Z.shiftl (Z.land (Z_of_byte x) 3) 4) (Z.shiftr (Z_of_byte y) 4).
Definition b64_c3 (y z : byte) : Z :=
  Z.lor (Z.shiftl (Z.land (Z_of_byte y) 15) 2) (Z.shiftr (Z_of_byte z) 6).
Definition b64_c4 (z : byte) : Z := Z.land (Z_of_byte z) 63.


(** a world like [sample_world] whose context refuses the notification that
    follows the progress report of the first source, and no other *)
Definition flaky_context_world : World :=
  let w := sample_world (fun _ => inr (png_image 640 480)) "A cat." in
  mkWorld (urlparse w) (json_loads w) (lax_float w) (image_open w)
          (image_resize_error w) (image_save w) (httpx_get w) (path_exists w)
          (path_is_file w) (path_read_bytes w) (chat_completions_create w)
          (uuid4 w) (time_time w)
          (fun l _ =>
             match l with
             | EvCtxProgress 0 _ :: _ =>
                 Some (Exn OtherException (MStr "notification refused"))
             | _ => None
             end)
          (ctx_report_progress w).

(** a world like [sample_world] whose model fails once and then answers *)
Definition second_attempt_world : World :=
  let w := sample_world (fun _ => inr (png_image 640 480)) "A cat." in
  mkWorld (urlparse w) (json_loads w) (lax_float w) (image_open w)
          (image_resize_error w) (image_save w) (httpx_get w) (path_exists w)
          (path_is_file w) (path_read_bytes w)
          (fun l req =>
             match l with
             | [] => inl (Exn OpenAIAPIError (MStr "503"))
             | _ => chat_completions_create w l req
             end)
          (uuid4 w) (time_time w) (ctx_info w) (ctx_report_progress w).

(** a world like [sample_world] whose model never answers *)
Definition failing_model_world : World :=
  let w := sample_world (fun _ => inr (png_image 640 480)) "" in
  mkWorld (urlparse w) (json_loads w) (lax_float w) (image_open w)
          (image_resize_error w) (image_save w) (httpx_get w) (path_exists w)
          (path_is_file w) (path_read_bytes w)
          (fun l _ =>
             inl (Exn OpenAIRateLimitError
                    (MCat [MStr "429 after "; MInt (Z.of_nat (length l))])))
          (uuid4 w) (time_time w) (ctx_info w) (ctx_report_progress w).

(** * Properties *)

(** ** Strings and paths *)

Lemma split_on_head_prefix (f : ascii -> bool) (s : string) :
  exists piece pieces,
    split_on f s = piece :: pieces /\ startswith s piece = true.
Proof.
  induction s as [|c rest IH]; simpl.
  - exists "", []. split; reflexivity.
  - destruct (f c).
    + exists "", (split_on f rest). split; reflexivity.
    + destruct IH as (piece & pieces & Hsplit & Hprefix).
      rewrite Hsplit. exists (String c piece), pieces.
      split; [reflexivity|]. simpl.
      now rewrite Ascii.eqb_refl.
Qed.

(** a [..] component of a path is a [..] substring of it *)
Lemma dotdot_segment_in (s : string) :
  In ".." (split_on is_slash s) -> str_in ".." s = true.
Proof.
  induction s as [|c rest IH]; simpl.
  - intros [H|[]]. discriminate H.
  - destruct (is_slash c) eqn:Hc.
    + intros [H|H]; [discriminate H|].
      rewrite (IH H). now rewrite orb_true_r.
    + destruct (split_on_head_prefix is_slash rest)
        as (piece & pieces & Hsplit & Hprefix).
      rewrite Hsplit. intros [H|H].
      * injection H as -> ->. apply orb_true_iff. left.
        destruct rest as [|d rest']; [discriminate Hprefix|].
        cbn [startswith] in Hprefix. apply andb_true_iff in Hprefix as [Hd _].
        apply Ascii.eqb_eq in Hd as <-. reflexivity.
      * rewrite IH; [now rewrite orb_true_r|].
        rewrite Hsplit. now right.
Qed.

(** ** Floats *)

Lemma SFcompare_antisym (x y : spec_float) (c : comparison) :
  SFcompare x y = Some c -> SFcompare y x = Some (CompOpp c).
Proof.
  destruct x as [sx|sx| |sx mx ex], y as [sy|sy| |sy my ey]; simpl;
    try discriminate; intros H; injection H as <-;
    repeat match goal with s : bool |- _ => destruct s end;
    simpl; try reflexivity.
  - rewrite (Z.compare_antisym ex ey).
    destruct (ex ?= ey); simpl; try reflexivity.
    change (PosDef.Pos.compare_cont Eq my mx) with (Pos.compare my mx).
    change (PosDef.Pos.compare_cont Eq mx my) with (Pos.compare mx my).
    now rewrite (Pos.compare_antisym mx my), CompOpp_involutive.
  - rewrite (Z.compare_antisym ex ey).
    destruct (ex ?= ey); simpl; try reflexivity.
    change (PosDef.Pos.compare_cont Eq my mx) with (Pos.compare my mx).
    change (PosDef.Pos.compare_cont Eq mx my) with (Pos.compare mx my).
    now rewrite (Pos.compare_antisym mx my).
Qed.

(** [x <= y] excludes [y < x] *)
Lemma leb_not_gt (x y : float) :
  PrimFloat.leb x y = true -> PrimFloat.ltb y x = false.
Proof.
  rewrite leb_spec, ltb_spec. unfold SFleb, SFltb.
  destruct (SFcompare (Prim2SF x) (Prim2SF y)) as [c|] eqn:E; [|discriminate].
  rewrite (SFcompare_antisym _ _ _ E). destruct c; simpl; congruence.
Qed.

(** ** Running effectful code *)

(** unfold the monad, and nothing else *)
Ltac run :=
  cbv beta iota delta
    [outcome history bind try_except ret raise lift call fst snd].

(** ** utils.py: the file branch *)

Lemma sanitize_file_path_dotdot (w : World) (file_path : string) (l : log) :
  str_in ".." (normpath file_path) = true ->
  sanitize_file_path w file_path l =
    (l, inl (Exn ImageValidationError
               (MCat [MStr "Invalid file path: "; MStr file_path]))).
Proof.
  intros H. unfold sanitize_file_path. rewrite H. reflexivity.
Qed.

(** C10: every path whose normalized form contains the two characters [..]
    anywhere is rejected by [sanitize_file_path] with an
    [ImageValidationError], the history being unchanged: no call to the file
    system has been made.  This includes [..] inside one file name:
    [photo..jpg] has no [..] segment and is rejected all the same.  A path
    without [..] is looked up in the file system. *)
Theorem sanitize_rejects_dotdot_substring (w : World) (file_path : string)
    (l : log) :
  (str_in ".." (normpath file_path) = true ->
   sanitize_file_path w file_path l =
     (l, inl (Exn ImageValidationError
                (MCat [MStr "Invalid file path: "; MStr file_path]))))
  /\ (normpath "photo..jpg" = "photo..jpg"
      /\ ~ In ".." (split_on is_slash (normpath "photo..jpg"))
      /\ sanitize_file_path w "photo..jpg" l =
           (l, inl (Exn ImageValidationError
                      (MCat [MStr "Invalid file path: "; MStr "photo..jpg"]))))
  /\ (str_in ".." (normpath file_path) = false ->
      exists later,
        history (sanitize_file_path w file_path) l
        = later ++ EvPathExists (normpath file_path) :: l).
Proof.
  split; [apply sanitize_file_path_dotdot|]. split.
  - split; [reflexivity|]. split.
    + simpl. intros [H|[]]. discriminate H.
    + now apply sanitize_file_path_dotdot.
  - intros Hclean. unfold sanitize_file_path. rewrite Hclean. run.
    destruct (negb (path_exists w l (normpath file_path))); [now exists []|].
    run. destruct (negb (path_is_file w _ (normpath file_path)));
      now exists [EvPathIsFile (normpath file_path)].
Qed.

Lemma sanitize_rejects_dotdot_substring_witness :
  let w := sample_world (fun _ => inr (png_image 1 1)) "" in
  sanitize_file_path w "a/photo..jpg" [] =
    ([], inl (Exn ImageValidationError
                (MCat [MStr "Invalid file path: "; MStr "a/photo..jpg"])))
  /\ history (sanitize_file_path w "/tmp/photo.jpg") []
     = [EvPathExists "/tmp/photo.jpg"].
Proof.
  intros w.
  destruct (sanitize_rejects_dotdot_substring w "a/photo..jpg" [])
    as (Hreject & _ & _).
  destruct (sanitize_rejects_dotdot_substring w "/tmp/photo.jpg" [])
    as (_ & _ & Hlookup).
  split; [apply Hreject; reflexivity|].
  destruct Hlookup as (later & Hlater); [reflexivity|]. reflexivity.
Defined.

(** C7: a path in which a [..] segment remains after normalization is
    rejected by the file loader with an [ImageLoadError], the history being
    unchanged: nothing was asked of the file system.  The same holds for
    [load_image_data] on an input it takes for a file path. *)
Theorem traversal_rejected_before_read (w : World) (file_path : string)
    (timeout : Z) (l : log) :
  In ".." (split_on is_slash (normpath file_path)) ->
  let rejection :=
    Exn ImageLoadError
        (MCat [MStr "Failed to load image from file: ";
               MCat [MStr "Invalid file path: "; MStr file_path]]) in
  load_image_from_file w file_path l = (l, inl rejection)
  /\ (classify w file_path = SrcFile ->
      load_image_data w file_path timeout l = (l, inl rejection)).
Proof.
  intros Hseg rejection.
  assert (Hfile : load_image_from_file w file_path l = (l, inl rejection)).
  { unfold load_image_from_file. run.
    rewrite (sanitize_file_path_dotdot w file_path l
               (dotdot_segment_in _ Hseg)).
    reflexivity. }
  split; [exact Hfile|].
  unfold classify, load_image_data.
  destruct (is_url w file_path); [discriminate|].
  destruct (is_base64_image file_path); [discriminate|].
  intros _. run. now rewrite Hfile.
Qed.

(** a traversal that normalization resolves is not seen by the guard: the
    normalized path is looked up *)
Lemma resolved_traversal_is_looked_up (w : World) (l : log) :
  normpath "/var/www/../../etc/passwd" = "/etc/passwd"
  /\ exists later,
       history (load_image_from_file w "/var/www/../../etc/passwd") l
       = later ++ EvPathExists "/etc/passwd" :: l.
Proof.
  split; [reflexivity|].
  unfold load_image_from_file, sanitize_file_path.
  change (normpath "/var/www/../../etc/passwd") with "/etc/passwd".
  change (str_in ".." "/etc/passwd") with false. run.
  destruct (negb (path_exists w l "/etc/passwd")); [now exists []|]. run.
  destruct (negb (path_is_file w _ "/etc/passwd"));
    [now exists [EvPathIsFile "/etc/passwd"]|].
  exists [EvReadBytes "/etc/passwd"; EvPathIsFile "/etc/passwd"].
  now destruct (path_read_bytes w _ "/etc/passwd").
Qed.

Lemma traversal_rejected_before_read_witness :
  let w := sample_world (fun _ => inr (png_image 1 1)) "" in
  let rejection :=
    Exn ImageLoadError
        (MCat [MStr "Failed to load image from file: ";
               MCat [MStr "Invalid file path: "; MStr "../../etc/passwd"]]) in
  load_image_from_file w "../../etc/passwd" [] = ([], inl rejection)
  /\ load_image_data w "../../etc/passwd" 30 [] = ([], inl rejection).
Proof.
  intros w rejection.
  destruct (traversal_rejected_before_read w "../../etc/passwd" 30 [])
    as [Hfile Hdata].
  - simpl. left. reflexivity.
  - split; [exact Hfile|]. apply Hdata. reflexivity.
Defined.

(** ** utils.py: size, format, resize *)

Lemma validate_image_size_spec (image_data : bytes) (max_size_mb : float) :
  validate_image_size image_data max_size_mb =
    if PrimFloat.ltb max_size_mb (size_mb image_data) then
      inl (Exn ImageValidationError
             (MCat [MStr "Image size "; MFloat (size_mb image_data) ".2f";
                    MStr "MB exceeds maximum allowed size ";
                    MFloat max_size_mb ""; MStr "MB"]))
    else inr tt.
Proof. reflexivity. Qed.

(** once the size check has passed, the codec is called first *)
Lemma decode_attempted (w : World) (image_data : bytes) (max_size_mb : float)
    (resize_if_needed : bool) (l : log) :
  validate_image_size image_data max_size_mb = inr tt ->
  exists later,
    history (validate_and_process_image w image_data max_size_mb resize_if_needed) l
    = later ++ EvImageOpen image_data :: l.
Proof.
  intros Hsize. unfold validate_and_process_image. run. rewrite Hsize.
  destruct (image_open w image_data) as [e|image]; simpl.
  - exists []. now destruct (is_image_error e).
  - destruct (validate_image_format _) as [e|[]]; simpl.
    + exists []. now destruct (is_image_error e).
    + destruct resize_if_needed; [|now exists []].
      destruct (_ || _); [|now exists []].
      destruct (py_truediv max_dimension (img_width image)) as [e|rw]; simpl;
        [exists []; now destruct (is_image_error e)|].
      destruct (py_truediv max_dimension (img_height image)) as [e|rh]; simpl;
        [exists []; now destruct (is_image_error e)|].
      destruct (scaled_side (img_width image) _) as [e|nw]; simpl;
        [exists []; now destruct (is_image_error e)|].
      destruct (scaled_side (img_height image) _) as [e|nh]; simpl;
        [exists []; now destruct (is_image_error e)|].
      exists [EvImageResize nw nh].
      destruct (image_resize_error w _ nw nh) as [e|]; simpl; [|reflexivity].
      now destruct (is_image_error e).
Qed.

(** C9: a buffer whose size in megabytes exceeds the maximum makes
    [validate_and_process_image] raise the size [ImageValidationError] with
    the history unchanged, so the codec was never called; a buffer at or
    below the maximum passes [validate_image_size], and the codec is then
    called. *)
Theorem oversize_rejected_before_decode (w : World) (image_data : bytes)
    (max_size_mb : float) (resize_if_needed : bool) (l : log) :
  (PrimFloat.ltb max_size_mb (size_mb image_data) = true ->
   validate_and_process_image w image_data max_size_mb resize_if_needed l =
     (l, inl (Exn ImageValidationError
                (MCat [MStr "Image size "; MFloat (size_mb image_data) ".2f";
                       MStr "MB exceeds maximum allowed size ";
                       MFloat max_size_mb ""; MStr "MB"]))))
  /\ (PrimFloat.leb (size_mb image_data) max_size_mb = true ->
      validate_image_size image_data max_size_mb = inr tt
      /\ exists later,
           history (validate_and_process_image w image_data max_size_mb
                                               resize_if_needed) l
           = later ++ EvImageOpen image_data :: l).
Proof.
  split.
  - intros Hover. unfold validate_and_process_image. run.
    rewrite validate_image_size_spec, Hover. reflexivity.
  - intros Hle.
    assert (Hsize : validate_image_size image_data max_size_mb = inr tt).
    { rewrite validate_image_size_spec. now rewrite (leb_not_gt _ _ Hle). }
    split; [exact Hsize|]. now apply decode_attempted.
Qed.

Lemma oversize_rejected_before_decode_witness :
  let w := sample_world (fun _ => inr (png_image 1 1)) "" in
  (exists m, validate_and_process_image w [x00; x01] 0 true [] =
               ([], inl (Exn ImageValidationError m)))
  /\ validate_image_size [x00; x01] 10 = inr tt.
Proof.
  intros w.
  destruct (oversize_rejected_before_decode w [x00; x01] 0 true []) as [Hover _].
  destruct (oversize_rejected_before_decode w [x00; x01] 10 true []) as [_ Hle].
  split.
  - eexists. apply Hover. vm_compute. reflexivity.
  - apply Hle. vm_compute. reflexivity.
Defined.

(** the order of the header sniffing *)
Lemma sniff_format_priority (image_data : bytes) :
  let png := bytes_startswith image_data PNG_SIGNATURE in
  let jpeg := bytes_startswith image_data JPEG_SIGNATURE in
  let webp := bytes_startswith image_data (bytes_lit "RIFF")
              && bytes_in (bytes_lit "WEBP") (firstn 12 image_data) in
  let gif := bytes_startswith image_data (bytes_lit "GIF8") in
  (png = true -> sniff_format image_data = "PNG")
  /\ (png = false -> jpeg = true -> sniff_format image_data = "JPEG")
  /\ (png = false -> jpeg = false -> webp = true ->
      sniff_format image_data = "WEBP")
  /\ (png = false -> jpeg = false -> webp = false -> gif = true ->
      sniff_format image_data = "GIF")
  /\ (png = false -> jpeg = false -> webp = false -> gif = false ->
      sniff_format image_data = "PNG").
Proof.
  intros png jpeg webp gif. unfold sniff_format.
  fold png jpeg webp gif.
  destruct png, jpeg, webp, gif; repeat split; intros; congruence.
Qed.

(** the formats [validate_image_format] lets through *)
Lemma validate_image_format_accepts (image : Image) :
  validate_image_format image = inr tt <->
  exists f, img_format image = Some f
            /\ In f ["JPEG"; "PNG"; "WebP"; "GIF"; "BMP"; "TIFF"].
Proof.
  unfold validate_image_format, str_mem, supported_formats.
  destruct (img_format image) as [f|]; simpl.
  - split.
    + intros H. exists f. split; [reflexivity|].
      repeat match goal with
             | H : context [String.eqb f ?s] |- _ =>
                 destruct (String.eqb_spec f s); [subst; simpl; tauto|]
             end.
      discriminate H.
    + intros (g & Hg & Hin). injection Hg as <-.
      simpl in Hin.
      repeat destruct Hin as [<-|Hin]; try reflexivity. destruct Hin.
  - split; [discriminate|]. intros (f & Hf & _). discriminate Hf.
Qed.

(** C6, at the failing input: an image whose format, reported by the codec
    or sniffed from the header, is [WEBP] passes the size check, is decoded,
    and is then rejected as unsupported, the set of [validate_image_format]
    spelling the format [WebP]. *)
Theorem webp_is_rejected (w : World) (image_data : bytes) (max_size_mb : float)
    (resize_if_needed : bool) (l : log) (image : Image) :
  validate_image_size image_data max_size_mb = inr tt ->
  image_open w image_data = inr image ->
  img_format image = Some "WEBP"
  \/ (img_format image = None /\ sniff_format image_data = "WEBP") ->
  validate_and_process_image w image_data max_size_mb resize_if_needed l =
    (EvImageOpen image_data :: l,
     inl (Exn ImageValidationError
            (MCat [MStr "Unsupported image format: "; MStr "WEBP"; MStr ". ";
                   MStr "Supported formats: ";
                   MJoin ", " ["JPEG"; "PNG"; "WebP"; "GIF"; "BMP"; "TIFF"]]))).
Proof.
  intros Hsize Hopen Hformat.
  unfold validate_and_process_image. run. rewrite Hsize, Hopen. simpl.
  destruct Hformat as [Hf|[Hf Hsniff]]; rewrite Hf; [|rewrite Hsniff];
    reflexivity.
Qed.

Lemma webp_is_rejected_witness :
  let w := sample_world (fun _ => inr (mkImage None 10 10 "RGB" false)) "" in
  sniff_format WEBP_HEADER = "WEBP"
  /\ exists m,
       validate_and_process_image w WEBP_HEADER 10 true [] =
         ([EvImageOpen WEBP_HEADER], inl (Exn ImageValidationError m)).
Proof.
  intros w. split; [reflexivity|]. eexists.
  apply (webp_is_rejected w WEBP_HEADER 10 true []
           (mkImage None 10 10 "RGB" false)).
  - vm_compute. reflexivity.
  - reflexivity.
  - right. split; reflexivity.
Defined.

(** whenever an image with a side above 2048 comes out of
    [validate_and_process_image], the metadata records the resize, the size
    before it and the size of the image returned *)
Lemma resize_is_recorded (w : World) (image_data : bytes) (max_size_mb : float)
    (l l' : log) (image resized : Image) (metadata : Metadata) :
  image_open w image_data = inr image ->
  max_dimension < img_width image \/ max_dimension < img_height image ->
  validate_and_process_image w image_data max_size_mb true l
  = (l', inr (resized, metadata)) ->
  md_resized metadata = Some true
  /\ md_original_size metadata = Some (img_width image, img_height image)
  /\ md_width metadata = img_width resized
  /\ md_height metadata = img_height resized.
Proof.
  intros Hopen Hlarge. unfold validate_and_process_image, resize. run.
  destruct (validate_image_size image_data max_size_mb) as [e|[]];
    [now destruct (is_image_error e)|].
  rewrite Hopen.
  destruct (validate_image_format _) as [e|[]];
    [now destruct (is_image_error e)|].
  cbn [img_width img_height set_format].
  assert (Hcond : (max_dimension <? img_width image)
                  || (max_dimension <? img_height image) = true).
  { apply orb_true_iff. destruct Hlarge as [H|H]; [left|right];
      now apply Z.ltb_lt. }
  rewrite Hcond.
  destruct (py_truediv max_dimension (img_width image)) as [e|rw];
    [now destruct (is_image_error e)|].
  destruct (py_truediv max_dimension (img_height image)) as [e|rh];
    [now destruct (is_image_error e)|].
  destruct (scaled_side (img_width image) _) as [e|nw];
    [now destruct (is_image_error e)|].
  destruct (scaled_side (img_height image) _) as [e|nh];
    [now destruct (is_image_error e)|].
  destruct (image_resize_error w _ nw nh) as [e|];
    [now destruct (is_image_error e)|].
  intros H. injection H as _ <- <-. repeat split.
Qed.

(** the arithmetic of the resize for a 3136 x 100 image *)
Lemma scaled_sides_3136_100 :
  let ratio := float_min (int_truediv max_dimension 3136)
                         (int_truediv max_dimension 100) in
  PrimFloat.ltb (PrimFloat.mul (float_of_Z 3136) ratio) 2048 = true
  /\ scaled_side 3136 ratio = inr 2047
  /\ scaled_side 100 ratio = inr 65.
Proof. vm_compute. repeat split. Qed.

(** C5, at the failing input: a decoded 3136 x 100 image is resized to
    2047 x 65; the metadata records the resize and the original size, and
    its larger side is 2047, the product [3136 * (2048 / 3136)] being just
    below 2048 in binary64 and [int] truncating it. *)
Theorem resize_of_3136_gives_2047 (w : World) (image_data : bytes)
    (max_size_mb : float) (l : log) :
  validate_image_size image_data max_size_mb = inr tt ->
  image_open w image_data = inr (png_image 3136 100) ->
  image_resize_error w (png_image 3136 100) 2047 65 = None ->
  validate_and_process_image w image_data max_size_mb true l =
    (EvImageResize 2047 65 :: EvImageOpen image_data :: l,
     inr (mkImage None 2047 65 "RGB" false,
          mkMetadata 2047 65 "PNG" "RGB" (Z.of_nat (length image_data))
                     (Some true) (Some (3136, 100)))).
Proof.
  intros Hsize Hopen Hresize.
  unfold validate_and_process_image. run. rewrite Hsize, Hopen. simpl.
  destruct scaled_sides_3136_100 as (_ & Hw & Hh).
  rewrite Hw, Hh. simpl.
  change (set_format (png_image 3136 100) "PNG") with (png_image 3136 100).
  rewrite Hresize. reflexivity.
Qed.

Lemma resize_of_3136_gives_2047_witness :
  let w := sample_world (fun _ => inr (png_image 3136 100)) "" in
  exists image metadata,
    outcome (validate_and_process_image w [x00] 10 true) [] = inr (image, metadata)
    /\ md_resized metadata = Some true
    /\ md_original_size metadata = Some (3136, 100)
    /\ Z.max (md_width metadata) (md_height metadata) = 2047.
Proof.
  intros w. do 2 eexists. unfold outcome.
  rewrite (resize_of_3136_gives_2047 w [x00] 10 []).
  - repeat split.
  - vm_compute. reflexivity.
  - reflexivity.
  - reflexivity.
Defined.

(** ** utils.py: the inline-data branch *)

Lemma a2b_base64_loop_rejects (s : string) :
  forall (quad_pos leftchar pads : Z) (padding_started : bool) (out : bytes)
         (c : ascii),
    In c (list_ascii_of_string s) -> b64_value c = None -> c <> "="%char ->
    exists e,
      a2b_base64_loop s quad_pos leftchar pads padding_started out = inl e.
Proof.
  induction s as [|d rest IH]; intros quad_pos leftchar pads started out c Hin Hc Hne.
  - destruct Hin.
  - cbn [a2b_base64_loop].
    destruct (Ascii.eqb_spec d "="%char) as [->|Hd].
    + destruct Hin as [<-|Hin]; [now elim Hne|].
      destruct ((2 <=? quad_pos) && (4 <=? quad_pos + (pads + 1))).
      * destruct rest; [destruct Hin | eexists; reflexivity].
      * now apply (IH _ _ _ _ _ c).
    + destruct (b64_value d) as [v|] eqn:Hv; [|eexists; reflexivity].
      destruct Hin as [<-|Hin]; [congruence|].
      destruct started; [eexists; reflexivity|].
      destruct (quad_pos =? 0); [now apply (IH _ _ _ _ _ c)|].
      destruct (quad_pos =? 1); [now apply (IH _ _ _ _ _ c)|].
      destruct (quad_pos =? 2); now apply (IH _ _ _ _ _ c).
Qed.

(** a character outside the base64 alphabet and the padding makes the
    strict decoder fail *)
Lemma b64decode_rejects_invalid (s : string) (c : ascii) :
  In c (list_ascii_of_string s) -> b64_value c = None -> c <> "="%char ->
  exists e, b64decode_validate s = inl e.
Proof.
  intros Hin Hc Hne. unfold b64decode_validate.
  destruct (negb (all_ascii s)); [eexists; reflexivity|].
  destruct (startswith s "="); [eexists; reflexivity|].
  now apply (a2b_base64_loop_rejects s _ _ _ _ _ c).
Qed.

Lemma after_first_app (sep : ascii) (before rest : string) :
  ~ In sep (list_ascii_of_string before) ->
  after_first sep (before ++ String sep rest) = rest.
Proof.
  induction before as [|c before IH]; simpl; intros Hnot.
  - now rewrite Ascii.eqb_refl.
  - destruct (Ascii.eqb_spec c sep) as [->|_]; [elim Hnot; now left|].
    apply IH. intros H. apply Hnot. now right.
Qed.

Lemma str_in_app (needle : ascii) (before rest : string) :
  str_in (String needle "") (before ++ String needle rest) = true.
Proof.
  induction before as [|c before IH]; simpl.
  - now rewrite Ascii.eqb_refl.
  - rewrite IH. apply orb_true_r.
Qed.

Lemma load_image_from_base64_run (base64_data : string) (l : log) :
  load_image_from_base64 base64_data l =
    (l, match b64decode_validate (base64_payload base64_data) with
        | inr decoded => inr decoded
        | inl e =>
            inl (Exn ImageLoadError
                   (MCat [MStr "Failed to decode base64 image data: ";
                          str_exn e]))
        end).
Proof.
  unfold load_image_from_base64, base64_payload. run.
  destruct (startswith base64_data "data:image/"); cbn [andb];
    [destruct (str_in "," base64_data)|];
    now destruct (b64decode_validate _).
Qed.

(** C8, as the code has it: the loader strips a [data:image/] prefix by
    splitting on the first comma only, decodes the rest strictly, fails
    with an [ImageLoadError] when the decoder fails, as it does on any
    character outside the alphabet, and makes no call to the world; an empty
    payload is not an error for the loader: the empty bytes are returned.
    Only the classification of a string without the prefix asks for a
    payload that is not empty. *)
Theorem base64_loader_decodes_payload (base64_data : string) (l : log) :
  load_image_from_base64 base64_data l =
    (l, match b64decode_validate (base64_payload base64_data) with
        | inr decoded => inr decoded
        | inl e =>
            inl (Exn ImageLoadError
                   (MCat [MStr "Failed to decode base64 image data: ";
                          str_exn e]))
        end)
  /\ (forall mime rest : string,
        ~ In ","%char (list_ascii_of_string mime) ->
        base64_payload ("data:image/" ++ mime ++ String ","%char rest) = rest)
  /\ (startswith base64_data "data:image/" = false ->
      base64_payload base64_data = base64_data)
  /\ (forall c : ascii,
        In c (list_ascii_of_string (base64_payload base64_data)) ->
        b64_value c = None -> c <> "="%char ->
        exists m,
          load_image_from_base64 base64_data l = (l, inl (Exn ImageLoadError m)))
  /\ (base64_payload base64_data = "" ->
      load_image_from_base64 base64_data l = (l, inr []))
  /\ (startswith base64_data "data:image/" = false ->
      b64decode_validate
        (if str_in "," base64_data then after_first ","%char base64_data
         else base64_data) = inr [] ->
      is_base64_image base64_data = false).
Proof.
  split; [apply load_image_from_base64_run|].
  split; [|split; [|split; [|split]]].
  - intros mime rest Hmime. unfold base64_payload.
    change (startswith ("data:image/" ++ mime ++ String "," rest) "data:image/")
      with true.
    assert (Hin : str_in "," ("data:image/" ++ mime ++ String "," rest)%string
                  = true).
    { change ("data:image/" ++ mime ++ String "," rest)%string
        with (String "d" (String "a" (String "t" (String "a" (String ":"
              (String "i" (String "m" (String "a" (String "g" (String "e"
              (String "/" (mime ++ String "," rest)))))))))))).
      cbn [str_in]. rewrite (str_in_app "," mime rest).
      now rewrite !orb_true_r. }
    rewrite Hin. simpl. now apply after_first_app.
  - intros Hno. unfold base64_payload. now rewrite Hno.
  - intros c Hin Hc Hne. rewrite load_image_from_base64_run.
    destruct (b64decode_rejects_invalid _ c Hin Hc Hne) as [e ->].
    eexists. reflexivity.
  - intros Hempty. rewrite load_image_from_base64_run, Hempty. reflexivity.
  - intros Hno Hdec. unfold is_base64_image. now rewrite Hno, Hdec.
Qed.

Lemma base64_loader_decodes_payload_witness :
  base64_payload "data:image/png;base64,iVBO,Rw0K" = "iVBO,Rw0K"
  /\ (exists m, load_image_from_base64 "data:image/png;base64,iVBO,Rw0K" [] =
                  ([], inl (Exn ImageLoadError m)))
  /\ load_image_from_base64 "data:image/png;base64," [] = ([], inr []).
Proof.
  destruct (base64_loader_decodes_payload "data:image/png;base64,iVBO,Rw0K" [])
    as (_ & Hsplit & _ & Hreject & _).
  destruct (base64_loader_decodes_payload "data:image/png;base64," [])
    as (_ & _ & _ & _ & Hempty & _).
  split; [|split].
  - apply (Hsplit "png;base64" "iVBO,Rw0K").
    simpl. intros H. repeat destruct H as [H|H]; try discriminate H. exact H.
  - apply (Hreject ","%char).
    + vm_compute. tauto.
    + reflexivity.
    + discriminate.
  - apply Hempty. reflexivity.
Defined.

(** C8, the claim as stated fails: the data URL with nothing after the comma
    has an empty decoded payload, and the loader returns it instead of
    raising. *)
Lemma empty_payload_is_not_rejected :
  b64decode_validate (base64_payload "data:image/png;base64,") = inr []
  /\ ~ (forall (base64_data : string) (l : log),
          b64decode_validate (base64_payload base64_data) = inr [] ->
          exists e, outcome (load_image_from_base64 base64_data) l = inl e).
Proof.
  split; [reflexivity|]. intros H.
  destruct (H "data:image/png;base64," [] eq_refl) as [e He].
  discriminate He.
Qed.

(** ** utils.py: classification of the source *)

Lemma load_image_from_url_history (w : World) (url : string) (timeout : Z)
    (l : log) :
  history (load_image_from_url w url timeout) l = EvHttpGet url timeout :: l.
Proof.
  unfold load_image_from_url. run.
  destruct (httpx_get w l url timeout) as [e|response].
  - now destruct (exn_cls e).
  - destruct (resp_is_error response); [reflexivity|].
    destruct (negb _); reflexivity.
Qed.

Lemma load_image_from_file_history (w : World) (file_path : string) (l : log) :
  exists evs,
    history (load_image_from_file w file_path) l = evs ++ l
    /\ forallb is_fs_event evs = true.
Proof.
  unfold load_image_from_file, sanitize_file_path. run.
  destruct (str_in ".." (normpath file_path)); [now exists []|]. run.
  destruct (negb (path_exists w l (normpath file_path)));
    [now exists [EvPathExists (normpath file_path)]|]. run.
  destruct (negb (path_is_file w _ (normpath file_path))).
  - now exists [EvPathIsFile (normpath file_path);
                EvPathExists (normpath file_path)].
  - exists [EvReadBytes (normpath file_path);
            EvPathIsFile (normpath file_path);
            EvPathExists (normpath file_path)].
    split; [|reflexivity]. now destruct (path_read_bytes w _ _).
Qed.

Lemma load_image_data_dispatch (w : World) (source : string) (timeout : Z)
    (l : log) :
  load_image_data w source timeout l =
    bind (loader w (classify w source) source timeout)
         (fun data => ret (data, SourceType_tag (classify w source))) l.
Proof.
  unfold load_image_data, classify.
  destruct (is_url w source); [reflexivity|].
  destruct (is_base64_image source); reflexivity.
Qed.

Lemma bind_ret_history {A B} (m : M A) (f : A -> B) (l : log) :
  history (bind m (fun a => ret (f a))) l = history m l.
Proof. run. now destruct (m l) as [l' [e|a]]. Qed.

(** C4: [load_image_data] takes exactly one of the three branches, the URL
    check first, then the inline-data check, else the file path; the branch
    is a function of the string and of the URL parser alone, the history
    plays no part in it, and the only calls made are those of the loader of
    the branch taken. *)
Theorem classification_is_ordered_and_pure (w : World) (source : string)
    (timeout : Z) (l : log) :
  (classify w source = SrcUrl <-> is_url w source = true)
  /\ (classify w source = SrcBase64 <->
      is_url w source = false /\ is_base64_image source = true)
  /\ (classify w source = SrcFile <->
      is_url w source = false /\ is_base64_image source = false)
  /\ (is_url w source = true <->
      exists scheme netloc,
        urlparse w source = inr (scheme, netloc)
        /\ scheme <> "" /\ netloc <> "")
  /\ (is_base64_image source = true <->
      startswith source "data:image/" = true
      \/ exists decoded,
           b64decode_validate
             (if str_in "," source then after_first ","%char source else source)
           = inr decoded
           /\ decoded <> [])
  /\ load_image_data w source timeout l =
       bind (loader w (classify w source) source timeout)
            (fun data => ret (data, SourceType_tag (classify w source))) l
  /\ (classify w source = SrcUrl ->
      history (load_image_data w source timeout) l
      = EvHttpGet source timeout :: l)
  /\ (classify w source = SrcBase64 ->
      history (load_image_data w source timeout) l = l)
  /\ (classify w source = SrcFile ->
      exists evs,
        history (load_image_data w source timeout) l = evs ++ l
        /\ forallb is_fs_event evs = true).
Proof.
  assert (Hhist : history (load_image_data w source timeout) l
                  = history (loader w (classify w source) source timeout) l).
  { unfold history at 1. rewrite load_image_data_dispatch.
    apply (bind_ret_history (loader w (classify w source) source timeout)
             (fun data => (data, SourceType_tag (classify w source)))). }
  repeat split.
  - unfold classify. destruct (is_url w source); [reflexivity|].
    destruct (is_base64_image source); discriminate.
  - intros H. unfold classify. now rewrite H.
  - unfold classify in H. destruct (is_url w source); [discriminate|reflexivity].
  - unfold classify in H. destruct (is_url w source); [discriminate|].
    destruct (is_base64_image source); [reflexivity|discriminate].
  - intros [H1 H2]. unfold classify. now rewrite H1, H2.
  - unfold classify in H. destruct (is_url w source); [discriminate|reflexivity].
  - unfold classify in H. destruct (is_url w source); [discriminate|].
    destruct (is_base64_image source); [discriminate|reflexivity].
  - intros [H1 H2]. unfold classify. now rewrite H1, H2.
  - unfold is_url. destruct (urlparse w source) as [e|[scheme netloc]];
      [discriminate|].
    intros H. apply andb_true_iff in H as [Hs Hn].
    exists scheme, netloc. split; [reflexivity|].
    split; intros ->; discriminate.
  - intros (scheme & netloc & Hparse & Hs & Hn). unfold is_url. rewrite Hparse.
    destruct (String.eqb_spec scheme ""); [contradiction|].
    destruct (String.eqb_spec netloc ""); [contradiction|]. reflexivity.
  - unfold is_base64_image.
    destruct (startswith source "data:image/"); [now left|].
    destruct (b64decode_validate _) as [e|decoded]; [discriminate|].
    intros H. right. exists decoded. split; [reflexivity|].
    intros ->. discriminate H.
  - unfold is_base64_image. intros [H|(decoded & Hdec & Hne)].
    + now rewrite H.
    + destruct (startswith source "data:image/"); [reflexivity|].
      rewrite Hdec. destruct decoded; [contradiction|reflexivity].
  - apply load_image_data_dispatch.
  - intros H. rewrite Hhist, H. apply load_image_from_url_history.
  - intros H. rewrite Hhist, H. simpl. unfold history.
    now rewrite load_image_from_base64_run.
  - intros H. rewrite Hhist, H. apply load_image_from_file_history.
Qed.

Lemma classification_is_ordered_and_pure_witness :
  let w := sample_world (fun _ => inr (png_image 1 1)) "" in
  classify w "https://example.com/aGVsbG8=" = SrcUrl
  /\ classify w "aGVsbG8=" = SrcBase64
  /\ classify w "/tmp/image.png" = SrcFile
  /\ history (load_image_data w "aGVsbG8=" 30) [] = []
  /\ history (load_image_data w "https://example.com/aGVsbG8=" 30) []
     = [EvHttpGet "https://example.com/aGVsbG8=" 30].
Proof.
  intros w.
  destruct (classification_is_ordered_and_pure w "https://example.com/aGVsbG8="
              30 []) as (Hurl & _ & _ & _ & _ & _ & Hget & _).
  destruct (classification_is_ordered_and_pure w "aGVsbG8=" 30 [])
    as (_ & Hb64 & _ & _ & _ & _ & _ & Hquiet & _).
  destruct (classification_is_ordered_and_pure w "/tmp/image.png" 30 [])
    as (_ & _ & Hfile & _).
  assert (H1 : classify w "https://example.com/aGVsbG8=" = SrcUrl)
    by (apply Hurl; reflexivity).
  assert (H2 : classify w "aGVsbG8=" = SrcBase64)
    by (apply Hb64; split; reflexivity).
  assert (H3 : classify w "/tmp/image.png" = SrcFile)
    by (apply Hfile; split; reflexivity).
  repeat split; auto.
Defined.

(** ** openai_client.py: coercion of the model's reply *)

Lemma Forall_filter_map {A B} (f : A -> option B) (P : B -> Prop) (l : list A) :
  (forall x y, In x l -> f x = Some y -> P y) -> Forall P (filter_map f l).
Proof.
  induction l as [|x rest IH]; intros H; simpl.
  - constructor.
  - destruct (f x) as [y|] eqn:Hfx.
    + constructor.
      * apply (H x y); [now left | exact Hfx].
      * apply IH. intros x' y' Hin. apply H. now right.
    + apply IH. intros x' y' Hin. apply H. now right.
Qed.

Lemma Forall_firstn {A} (P : A -> Prop) (n : nat) (l : list A) :
  Forall P l -> Forall P (firstn n l).
Proof.
  intros H. revert n. induction H as [|x rest Hx _ IH]; intros [|n]; simpl;
    constructor; auto.
Qed.

Lemma ends_in_text_cons (c : ascii) (rest : string) :
  rest <> "" -> ends_in_text (String c rest) = ends_in_text rest.
Proof. destruct rest; [now intros H; elim H | reflexivity]. Qed.

Lemma rstrip_ends_in_text (s : string) :
  rstrip s <> "" -> ends_in_text (rstrip s) = true.
Proof.
  induction s as [|c rest IH]; cbn [rstrip]; [now intros H; elim H|].
  destruct (rstrip rest) as [|k kept] eqn:E.
  - destruct (is_space c) eqn:Hc; [now intros H; elim H|].
    intros _. cbn. now rewrite Hc.
  - intros _. rewrite ends_in_text_cons by discriminate.
    apply IH. discriminate.
Qed.

Lemma lstrip_keeps_text (s : string) :
  ends_in_text s = true -> lstrip s <> "".
Proof.
  induction s as [|c rest IH]; [discriminate|].
  cbn [lstrip]. destruct (is_space c) eqn:Hc; [|discriminate].
  destruct rest as [|d rest']; [cbn; now rewrite Hc|].
  rewrite ends_in_text_cons by discriminate. exact IH.
Qed.

Lemma match_prefix_ci_ends_in_text (p : string) :
  forall s rest,
    match_prefix_ci p s = Some rest -> rest <> "" ->
    ends_in_text s = true -> ends_in_text rest = true.
Proof.
  induction p as [|a p IH]; intros s rest; cbn [match_prefix_ci].
  - intros H. now injection H as <-.
  - destruct s as [|x s']; [discriminate|].
    destruct (Ascii.eqb (ascii_lower a) (ascii_lower x)); [|discriminate].
    intros Hmatch Hrest. destruct s' as [|y s''].
    + destruct p; cbn in Hmatch; [|discriminate].
      injection Hmatch as <-. now elim Hrest.
    + rewrite ends_in_text_cons by discriminate. now apply IH.
Qed.

(** on a fragment that ends in text, stripping the article leaves a name *)
Lemma strip_leading_word_nonempty (alts : list string) (s : string) :
  ends_in_text s = true -> strip_leading_word alts s <> "".
Proof.
  intros Hs. induction alts as [|alt others IH]; cbn [strip_leading_word].
  - intros ->. discriminate Hs.
  - destruct (match_prefix_ci alt s) as [[|c rest]|] eqn:Hmatch; try exact IH.
    destruct (is_space c) eqn:Hc; [|exact IH].
    apply lstrip_keeps_text.
    assert (H : ends_in_text (String c rest) = true)
      by (apply (match_prefix_ci_ends_in_text alt s); [exact Hmatch | discriminate | exact Hs]).
    destruct rest as [|d rest']; [cbn in H; now rewrite Hc in H|].
    now rewrite ends_in_text_cons in H by discriminate.
Qed.

(** the loop body of the heuristic, in one equation *)
Lemma object_of_fragment_spec (fragment : string) :
  object_of_fragment fragment =
    if long_enough fragment
    then Some (mkDetectedObject (name_of_fragment fragment) 0.7%float)
    else None.
Proof.
  unfold object_of_fragment, long_enough, name_of_fragment.
  destruct (2 <? str_len (strip fragment)) eqn:Hlen;
    [|now rewrite andb_false_r].
  assert (Hne : strip fragment <> "").
  { intros E. rewrite E in Hlen. discriminate Hlen. }
  destruct (String.eqb_spec (strip fragment) "") as [E|_]; [contradiction|].
  cbn [negb andb].
  assert (Hname : strip_leading_word ARTICLES (strip fragment) <> "").
  { apply strip_leading_word_nonempty.
    unfold strip in *. now apply rstrip_ends_in_text. }
  now destruct (String.eqb_spec (strip_leading_word ARTICLES (strip fragment)) "").
Qed.

Lemma filter_map_object_of_fragment (l : list string) :
  filter_map object_of_fragment l
  = map (fun f => mkDetectedObject (name_of_fragment f) 0.7%float)
        (filter long_enough l).
Proof.
  induction l as [|f rest IH]; [reflexivity|].
  cbn [filter_map filter]. rewrite object_of_fragment_spec.
  destruct (long_enough f); cbn [map]; now rewrite IH.
Qed.

(** the heuristic, as a list comprehension *)
Lemma extract_objects_spec (text : string) :
  _extract_objects_from_text text
  = map (fun name => mkDetectedObject name 0.7%float)
        (firstn 10 (map name_of_fragment (filter long_enough (fragments text)))).
Proof.
  unfold _extract_objects_from_text, fragments.
  rewrite filter_map_object_of_fragment, <- firstn_map, map_map.
  reflexivity.
Qed.

(** what the heuristic makes of one fragment *)
Lemma object_of_fragment_some (fragment : string) (o : DetectedObject) :
  object_of_fragment fragment = Some o ->
  do_confidence o = 0.7%float
  /\ 2 < str_len (strip fragment)
  /\ do_name o = strip_leading_word ARTICLES (strip fragment)
  /\ do_name o <> "".
Proof.
  unfold object_of_fragment.
  destruct (negb (String.eqb (strip fragment) "")); [|discriminate].
  destruct (2 <? str_len (strip fragment)) eqn:Hlen; [|discriminate].
  cbn [andb].
  destruct (String.eqb_spec (strip_leading_word ARTICLES (strip fragment)) "")
    as [_|Hne]; [discriminate|].
  intros H. injection H as <-. cbn [do_confidence do_name].
  repeat split; [now apply Z.ltb_lt | exact Hne].
Qed.

Lemma coerce_items_skip (w : World) {R} (key : string)
    (make : string -> float -> R) (item : json) (rest : list json) :
  (forall s, item <> JStr s) ->
  (forall fields, item = JDict fields -> dict_get fields key = None) ->
  coerce_items w key make (item :: rest) = coerce_items w key make rest.
Proof.
  intros Hstr Hdict. cbn [coerce_items].
  destruct item as [| | | |s| |fields];
    try (now destruct (coerce_items w key make rest)).
  - now elim (Hstr s).
  - rewrite (Hdict fields eq_refl). now destruct (coerce_items w key make rest).
Qed.

Lemma coerce_items_raises_validation (w : World) {R} (key : string)
    (make : string -> float -> R) (items : list json) (e : exn) :
  coerce_items w key make items = inl e -> exn_cls e = PydanticValidationError.
Proof.
  induction items as [|item rest IH]; [discriminate|]. cbn [coerce_items].
  assert (Hrest : forall found : option R,
            match coerce_items w key make rest with
            | inl e0 => inl e0
            | inr others =>
                inr (match found with Some r => r :: others | None => others end)
            end = inl e -> exn_cls e = PydanticValidationError).
  { intros found. destruct (coerce_items w key make rest) as [e0|others];
      [|discriminate]. intros H. injection H as <-. now apply IH. }
  destruct item as [| | | |s| |fields]; try apply (Hrest None).
  - apply (Hrest (Some (make s 0.8%float))).
  - destruct (dict_get fields key) as [v|]; [|apply (Hrest None)].
    destruct (validated_str v) as [e0|s] eqn:Hv.
    + intros H. injection H as <-. destruct v; try discriminate Hv;
        cbn in Hv; now injection Hv as <-.
    + destruct (confidence_of w fields) as [e0|c] eqn:Hc;
        [|apply (Hrest (Some (make s c)))].
      intros H. injection H as <-. unfold confidence_of in Hc.
      destruct (dict_get fields "confidence") as [j|]; [|discriminate Hc].
      unfold validated_confidence in Hc.
      destruct (match j with
                | JFloat x => Some x
                | JInt n => Some (float_of_Z n)
                | _ => lax_float w j
                end) as [x|];
        [destruct (confidence_in_range x); [discriminate Hc|]|];
        now injection Hc as <-.
Qed.

Lemma coerce_items_number (w : World) {R} (key : string)
    (make : string -> float -> R) (rest : list json)
    (fields : list (string * json)) (s : string) (j : json) (x : float) :
  dict_get fields key = Some (JStr s) ->
  dict_get fields "confidence" = Some j ->
  j = JFloat x
  \/ (exists n, j = JInt n /\ x = float_of_Z n)
  \/ ((forall y, j <> JFloat y) /\ (forall n, j <> JInt n)
      /\ lax_float w j = Some x) ->
  coerce_items w key make (JDict fields :: rest)
  = if confidence_in_range x
    then cons_result (make s x) (coerce_items w key make rest)
    else inl (validation_error "Input should be between 0 and 1").
Proof.
  intros Hkey Hconf Hnumber. cbn [coerce_items]. rewrite Hkey.
  cbn [validated_str]. unfold confidence_of. rewrite Hconf.
  unfold validated_confidence.
  assert (Hx : match j with
               | JFloat y => Some y
               | JInt n => Some (float_of_Z n)
               | _ => lax_float w j
               end = Some x).
  { destruct Hnumber as [->|[(n & -> & ->)|(Hf & Hi & Hlax)]];
      [reflexivity | reflexivity |].
    destruct j; try exact Hlax; [now elim (Hi n) | now elim (Hf x0)]. }
  rewrite Hx. now destruct (confidence_in_range x).
Qed.

(** C3, as the code has it.  A reply that parses to a list is mapped element
    by element, for both methods: a bare string gives a record at 0.8; an
    object with the key gives a record when the value of the key is a
    string and the confidence is absent (then 0.8) or a number within
    [0, 1], be it a float, an integer or something the record type converts
    to a number; an object with the key whose value is no string, or whose
    confidence is no number or lies outside [0, 1], makes the whole call
    raise a validation error, which neither method catches and for which
    there is no fall-back; any other element gives nothing.
    A reply that does not parse, or parses to something else, is handed to
    the heuristic by [detect_objects] only; [extract_text] returns the whole
    reply as one record at 0.8.  The heuristic removes a lead-in, splits at
    the delimiters, keeps the fragments of at least 3 characters once
    stripped, removes a leading article from each, and returns the first 10
    of them, in order, as records at 0.7 with a name that is never empty;
    on the sample sentence these are [dog], [ball] and [and a tree]. *)
Theorem response_coercion_two_tiers (w : World) (response : string) :
  (forall items,
     json_loads w response = inr (JList items) ->
     objects_of_response w response = coerce_items w "name" mkDetectedObject items
     /\ text_of_response w response
        = coerce_items w "content" mkExtractedText items)
  /\ (forall R (key : string) (make : string -> float -> R) (rest : list json),
        (forall s,
           coerce_items w key make (JStr s :: rest)
           = cons_result (make s 0.8%float) (coerce_items w key make rest))
        /\ (forall fields s,
              dict_get fields key = Some (JStr s) ->
              dict_get fields "confidence" = None ->
              coerce_items w key make (JDict fields :: rest)
              = cons_result (make s 0.8%float) (coerce_items w key make rest))
        /\ (forall fields s c,
              dict_get fields key = Some (JStr s) ->
              dict_get fields "confidence" = Some (JFloat c) ->
              confidence_in_range c = true ->
              coerce_items w key make (JDict fields :: rest)
              = cons_result (make s c) (coerce_items w key make rest))
        /\ (forall item,
              (forall s, item <> JStr s) ->
              (forall fields, item = JDict fields -> dict_get fields key = None) ->
              coerce_items w key make (item :: rest)
              = coerce_items w key make rest)
        /\ (forall fields s j x,
              dict_get fields key = Some (JStr s) ->
              dict_get fields "confidence" = Some j ->
              j = JFloat x
              \/ (exists n, j = JInt n /\ x = float_of_Z n)
              \/ ((forall y, j <> JFloat y) /\ (forall n, j <> JInt n)
                  /\ lax_float w j = Some x) ->
              (confidence_in_range x = true ->
               coerce_items w key make (JDict fields :: rest)
               = cons_result (make s x) (coerce_items w key make rest))
              /\ (confidence_in_range x = false ->
                  exists e,
                    exn_cls e = PydanticValidationError
                    /\ coerce_items w key make (JDict fields :: rest) = inl e))
        /\ (forall fields s j,
              dict_get fields key = Some (JStr s) ->
              dict_get fields "confidence" = Some j ->
              (forall y, j <> JFloat y) -> (forall n, j <> JInt n) ->
              lax_float w j = None ->
              exists e,
                exn_cls e = PydanticValidationError
                /\ coerce_items w key make (JDict fields :: rest) = inl e)
        /\ (forall fields v,
              dict_get fields key = Some v -> (forall s, v <> JStr s) ->
              exists e,
                exn_cls e = PydanticValidationError
                /\ coerce_items w key make (JDict fields :: rest) = inl e)
        /\ (forall items e,
              coerce_items w key make items = inl e ->
              exn_cls e = PydanticValidationError))
  /\ (not_a_json_list w response ->
      objects_of_response w response = inr (_extract_objects_from_text response)
      /\ text_of_response w response = inr [mkExtractedText response 0.8%float])
  /\ (length (_extract_objects_from_text response) <= 10)%nat
  /\ _extract_objects_from_text response
     = map (fun name => mkDetectedObject name 0.7%float)
           (firstn 10
              (map (fun fragment => strip_leading_word ARTICLES (strip fragment))
                   (filter (fun fragment => 2 <? str_len (strip fragment))
                      (split_on is_delimiter
                         (strip_leading_alternative LEAD_INS response)))))
  /\ Forall (fun o => do_name o <> "")
            (_extract_objects_from_text response)
  /\ (json_loads w CAT_JSON
      = inr (JList [JDict [("name", JStr "cat"); ("confidence", JFloat 0.9)]]) ->
      objects_of_response w CAT_JSON = inr [mkDetectedObject "cat" 0.9%float])
  /\ _extract_objects_from_text DOG_REPLY
     = [mkDetectedObject "dog" 0.7%float; mkDetectedObject "ball" 0.7%float;
        mkDetectedObject "and a tree" 0.7%float]
  /\ (forall items e,
        json_loads w response = inr (JList items) ->
        (coerce_items w "name" mkDetectedObject items = inl e ->
         objects_of_response w response = inl e)
        /\ (coerce_items w "content" mkExtractedText items = inl e ->
            text_of_response w response = inl e)).
Proof.
  split; [|split; [|split; [|split; [|split; [|split; [|split; [|split]]]]]]].
  - intros items Hparse. unfold objects_of_response, text_of_response.
    rewrite Hparse. split; reflexivity.
  - intros R key make rest.
    split; [|split; [|split; [|split; [|split; [|split; [|split]]]]]].
    + intros s. cbn [coerce_items]. reflexivity.
    + intros fields s Hkey Hconf. cbn [coerce_items].
      rewrite Hkey. cbn [validated_str]. unfold confidence_of. rewrite Hconf.
      reflexivity.
    + intros fields s c Hkey Hconf Hrange. cbn [coerce_items].
      rewrite Hkey. cbn [validated_str]. unfold confidence_of. rewrite Hconf.
      unfold validated_confidence. rewrite Hrange. reflexivity.
    + intros item. apply coerce_items_skip.
    + intros fields s j x Hkey Hconf Hnumber.
      rewrite (coerce_items_number w key make rest fields s j x Hkey Hconf
                 Hnumber).
      split; intros ->; [reflexivity|].
      eexists. split; [|reflexivity]. reflexivity.
    + intros fields s j Hkey Hconf Hfloat Hint Hlax. cbn [coerce_items].
      rewrite Hkey. cbn [validated_str]. unfold confidence_of. rewrite Hconf.
      unfold validated_confidence.
      assert (Hnone : match j with
                      | JFloat y => Some y
                      | JInt n => Some (float_of_Z n)
                      | _ => lax_float w j
                      end = None).
      { destruct j; try exact Hlax; [now elim (Hint n) | now elim (Hfloat x)]. }
      rewrite Hnone. eexists. split; [|reflexivity]. reflexivity.
    + intros fields v Hkey Hv. cbn [coerce_items]. rewrite Hkey.
      destruct v; try (eexists; split; [|reflexivity]; reflexivity).
      now elim (Hv s).
    + intros items e. apply coerce_items_raises_validation.
  - intros [(e & Hparse & Hcls)|(v & Hparse & Hnot)];
      unfold objects_of_response, text_of_response; rewrite Hparse.
    + rewrite Hcls. split; reflexivity.
    + destruct v; try (split; reflexivity). now elim (Hnot items).
  - unfold _extract_objects_from_text. apply firstn_le_length.
  - apply extract_objects_spec.
  - unfold _extract_objects_from_text. apply Forall_firstn.
    apply Forall_filter_map. intros fragment o Hin Ho.
    now destruct (object_of_fragment_some _ _ Ho) as (_ & _ & _ & Hname).
  - intros Hparse. unfold objects_of_response. rewrite Hparse.
    vm_compute. reflexivity.
  - vm_compute. reflexivity.
  - intros items e Hparse. unfold objects_of_response, text_of_response.
    rewrite Hparse. split; intros H; exact H.
Qed.

Lemma response_coercion_two_tiers_witness :
  let w := sample_world (fun _ => inr (png_image 1 1)) "" in
  objects_of_response w CAT_JSON = inr [mkDetectedObject "cat" 0.9%float]
  /\ objects_of_response w DOG_REPLY = inr (_extract_objects_from_text DOG_REPLY)
  /\ text_of_response w DOG_REPLY = inr [mkExtractedText DOG_REPLY 0.8%float]
  /\ coerce_items w "name" mkDetectedObject
       [JDict [("name", JStr "cat"); ("confidence", JInt 1)]; JStr "dog"]
     = inr [mkDetectedObject "cat" 1; mkDetectedObject "dog" 0.8%float]
  /\ (exists e,
        exn_cls e = PydanticValidationError
        /\ coerce_items w "name" mkDetectedObject
             [JDict [("name", JStr "cat"); ("confidence", JFloat 1.5)];
              JStr "dog"]
           = inl e)
  /\ (exists e,
        exn_cls e = PydanticValidationError
        /\ coerce_items w "name" mkDetectedObject
             [JDict [("name", JInt 7)]; JStr "dog"]
           = inl e).
Proof.
  intros w.
  destruct (response_coercion_two_tiers w DOG_REPLY)
    as (_ & Hitems & Hfallback & _ & _ & _ & Hcat & _).
  destruct (Hitems DetectedObject "name" mkDetectedObject [JStr "dog"])
    as (_ & _ & _ & _ & Hnumber & _ & Hstring & _).
  split; [apply Hcat; reflexivity|].
  split; [apply Hfallback; left; eexists; split; reflexivity|].
  split; [apply Hfallback; left; eexists; split; reflexivity|].
  split.
  { destruct (Hnumber [("name", JStr "cat"); ("confidence", JInt 1)] "cat"
                (JInt 1) 1%float eq_refl eq_refl) as [Hin _].
    - right. left. exists 1. split; reflexivity.
    - rewrite Hin; reflexivity. }
  split.
  { destruct (Hnumber [("name", JStr "cat"); ("confidence", JFloat 1.5)] "cat"
                (JFloat 1.5) 1.5%float eq_refl eq_refl) as [_ Hout].
    - now left.
    - apply Hout. reflexivity. }
  apply (Hstring [("name", JInt 7)] (JInt 7)); [reflexivity | discriminate].
Defined.

(** C3, the claim as stated fails twice on the sample sentence, which is not
    JSON: [extract_text] does not run the heuristic but returns the sentence
    whole, as one record at 0.8; and the heuristic of [detect_objects]
    yields [and a tree] for the last fragment, [and] being no article. *)
Lemma heuristic_claim_fails :
  let w := sample_world (fun _ => inr (png_image 1 1)) "" in
  json_loads w DOG_REPLY = inl (Exn JSONDecodeError (MStr "Expecting value"))
  /\ text_of_response w DOG_REPLY = inr [mkExtractedText DOG_REPLY 0.8%float]
  /\ objects_of_response w DOG_REPLY
     = inr [mkDetectedObject "dog" 0.7%float; mkDetectedObject "ball" 0.7%float;
            mkDetectedObject "and a tree" 0.7%float]
  /\ objects_of_response w DOG_REPLY
     <> inr [mkDetectedObject "dog" 0.7%float; mkDetectedObject "ball" 0.7%float;
             mkDetectedObject "tree" 0.7%float].
Proof.
  intros w.
  assert (H : objects_of_response w DOG_REPLY
              = inr [mkDetectedObject "dog" 0.7%float;
                     mkDetectedObject "ball" 0.7%float;
                     mkDetectedObject "and a tree" 0.7%float])
    by (vm_compute; reflexivity).
  split; [reflexivity|]. split; [reflexivity|]. split; [exact H|].
  rewrite H. discriminate.
Qed.

(** ** Reasoning about effectful code *)

Lemma ensures_ret {A} (a : A) (P : A -> Prop) : P a -> ensures (ret a) P.
Proof. intros H l l' a' E. injection E as _ <-. exact H. Qed.

Lemma ensures_raise {A} (e : exn) (P : A -> Prop) : ensures (raise e) P.
Proof. intros l l' a E. discriminate E. Qed.

Lemma ensures_bind {A B} (m : M A) (k : A -> M B) (Q : A -> Prop)
    (P : B -> Prop) :
  ensures m Q -> (forall a, Q a -> ensures (k a) P) -> ensures (bind m k) P.
Proof.
  intros Hm Hk l l' b. unfold bind.
  destruct (m l) as [l1 [e|a]] eqn:E; [discriminate|].
  apply (Hk a (Hm _ _ _ E)).
Qed.

Lemma ensures_any {A} (m : M A) : ensures m (fun _ => True).
Proof. intros l l' a _. exact I. Qed.

Lemma ensures_then {A B} (m : M A) (k : A -> M B) (P : B -> Prop) :
  (forall a, ensures (k a) P) -> ensures (bind m k) P.
Proof.
  intros Hk. apply (ensures_bind m k (fun _ => True)); [apply ensures_any|].
  intros a _. apply Hk.
Qed.

Lemma ensures_try_except {A} (m : M A) (handler : exn -> M A) (P : A -> Prop) :
  ensures m P -> (forall e, ensures (handler e) P) ->
  ensures (try_except m handler) P.
Proof.
  intros Hm Hh l l' a. unfold try_except.
  destruct (m l) as [l1 [e|a1]] eqn:E.
  - apply Hh.
  - intros H. injection H as _ <-. apply (Hm _ _ _ E).
Qed.

Lemma total_ret {A} (a : A) : total (ret a).
Proof. intros l. now exists l, a. Qed.

Lemma total_bind {A B} (m : M A) (k : A -> M B) :
  total m -> (forall a, total (k a)) -> total (bind m k).
Proof.
  intros Hm Hk l. unfold bind.
  destruct (Hm l) as (l1 & a & ->). apply Hk.
Qed.

Lemma total_try_except {A} (m : M A) (handler : exn -> M A) :
  (forall e, total (handler e)) -> total (try_except m handler).
Proof.
  intros Hh l. unfold try_except.
  destruct (m l) as [l1 [e|a]]; [apply Hh | now exists l1, a].
Qed.

Lemma total_now (w : World) : total (now w).
Proof. intros l. now exists (EvTime :: l), (time_time w l). Qed.

Lemma total_new_uuid (w : World) : total (new_uuid w).
Proof. intros l. now exists (EvUuid4 :: l), (uuid4 w l). Qed.

(** ** The envelope of one image *)

Lemma success_envelope_well_formed (p : APIProvider) (a : ImageAnalysis)
    (rid : option string) (stamp : float) :
  well_formed (mkProcessingResult true p (Some a) None rid stamp).
Proof. repeat split; intros; try discriminate; reflexivity. Qed.

Lemma failure_envelope_well_formed (p : APIProvider) (text : message)
    (rid : option string) (stamp : float) :
  well_formed (mkProcessingResult false p None (Some text) rid stamp).
Proof.
  repeat split; cbn; intros H; try discriminate H; now elim H.
Qed.

(** [BaseImageClient.process_image] always returns, and what it returns is
    well formed, whatever the concrete client does *)
Lemma client_process_image_returns (w : World) (client : BaseImageClient)
    (image : Image) (image_metadata : Metadata) (analysis_type : AnalysisType) :
  total (@client_process_image w client image image_metadata analysis_type)
  /\ ensures (@client_process_image w client image image_metadata analysis_type)
             well_formed.
Proof.
  unfold client_process_image. split.
  - apply total_bind; [apply total_now|]. intros start.
    apply total_bind; [apply total_new_uuid|]. intros rid.
    apply total_try_except. intros e.
    apply total_bind; [apply total_now|]. intros _.
    apply total_bind; [apply total_now|]. intros stamp. apply total_ret.
  - apply ensures_then. intros start. apply ensures_then. intros rid.
    apply ensures_try_except.
    + apply ensures_then. intros a. apply ensures_then. intros finish.
      apply ensures_then. intros stamp. apply ensures_ret.
      apply success_envelope_well_formed.
    + intros e. apply ensures_then. intros _. apply ensures_then. intros stamp.
      apply ensures_ret. apply failure_envelope_well_formed.
Qed.

Lemma analyze_with_custom_prompt_returns (w : World) (image : Image)
    (image_metadata : Metadata) (custom_prompt : string) :
  total (analyze_with_custom_prompt w image image_metadata custom_prompt)
  /\ ensures (analyze_with_custom_prompt w image image_metadata custom_prompt)
             well_formed.
Proof.
  unfold analyze_with_custom_prompt. split.
  - apply total_bind; [apply total_now|]. intros start.
    apply total_bind; [apply total_new_uuid|]. intros rid.
    apply total_try_except. intros e.
    apply total_bind; [apply total_now|]. intros _.
    apply total_bind; [apply total_now|]. intros stamp. apply total_ret.
  - apply ensures_then. intros start. apply ensures_then. intros rid.
    apply ensures_try_except.
    + apply ensures_then. intros _. apply ensures_then. intros image_data.
      apply ensures_then. intros response. apply ensures_then. intros finish.
      apply ensures_then. intros stamp. apply ensures_ret.
      apply success_envelope_well_formed.
    + intros e. apply ensures_then. intros _. apply ensures_then. intros stamp.
      apply ensures_ret. apply failure_envelope_well_formed.
Qed.

Lemma run_client_returns (w : World) (client : BaseImageClient) (image : Image)
    (metadata : Metadata) (analysis_kind : AnalysisType) (prompt : option string) :
  total (run_client w client image metadata analysis_kind prompt)
  /\ ensures (run_client w client image metadata analysis_kind prompt)
             well_formed.
Proof.
  unfold run_client. destruct (truthy prompt).
  - apply analyze_with_custom_prompt_returns.
  - apply client_process_image_returns.
Qed.

Lemma total_lift_value {A} (a : A) : total (lift (inr a)).
Proof. intros l. now exists l, a. Qed.

Lemma error_envelope_returns (w : World) (config : ServerConfig)
    (api_provider : option string) (text : message) (rid : string) :
  ensures (error_envelope w config api_provider text rid) well_formed
  /\ (forall p, requested_provider config api_provider = inr p ->
                total (error_envelope w config api_provider text rid)).
Proof.
  unfold error_envelope. split.
  - apply ensures_then. intros p. apply ensures_then. intros stamp.
    apply ensures_ret. apply failure_envelope_well_formed.
  - intros p Hp. rewrite Hp.
    apply total_bind; [apply total_lift_value|]. intros q.
    apply total_bind; [apply total_now|]. intros stamp. apply total_ret.
Qed.

(** the tool [process_image]: an envelope it returns is well formed, and it
    does return one when the provider named by the request (or the default)
    is a member of [APIProvider] *)
Lemma process_image_envelope (w : World) (config : ServerConfig)
    (image_source : string) (api_provider api_key analysis_type prompt :
    option string) (ctx : option Context) :
  ensures (process_image w config image_source api_provider api_key
                         analysis_type prompt ctx) well_formed
  /\ (forall p, requested_provider config api_provider = inr p ->
                total (process_image w config image_source api_provider api_key
                                     analysis_type prompt ctx)).
Proof.
  unfold process_image. split.
  - apply ensures_then. intros rid. apply ensures_try_except.
    + apply ensures_then. intros p. apply ensures_then. intros kind.
      apply ensures_then. intros key. apply ensures_then. intros _.
      apply ensures_then. intros [image_data tag].
      apply ensures_then. intros [image metadata].
      apply ensures_then. intros _. apply ensures_then. intros client.
      apply (ensures_bind _ _ well_formed);
        [apply run_client_returns|].
      intros result Hwf. apply ensures_then. intros _.
      now apply ensures_ret.
    + intros e. destruct (is_image_error e); apply error_envelope_returns.
  - intros p Hp. apply total_bind; [apply total_new_uuid|]. intros rid.
    apply total_try_except. intros e.
    destruct (is_image_error e);
      apply (proj2 (error_envelope_returns w config api_provider _ rid) p Hp).
Qed.

(** C2, at the failing input: when the provider string of the request is not
    a member of [APIProvider], the first statement of the [try] raises
    [ValueError], the handler evaluates the same conversion again to fill
    the envelope, and the exception leaves [process_image]: no envelope is
    returned. *)
Theorem process_image_raises_on_unknown_provider (w : World)
    (config : ServerConfig) (image_source : string)
    (api_provider api_key analysis_type prompt : option string)
    (ctx : option Context) (l : log) (e : exn) :
  requested_provider config api_provider = inl e ->
  process_image w config image_source api_provider api_key analysis_type
                prompt ctx l
  = (EvUuid4 :: l, inl e).
Proof.
  intros H. unfold process_image, error_envelope, new_uuid. run.
  rewrite H. now destruct (is_image_error e).
Qed.

Lemma process_image_raises_on_unknown_provider_witness :
  let w := sample_world (fun _ => inr (png_image 1 1)) "" in
  process_image w (sample_config (Some "key")) "aGVsbG8=" (Some "foo") None
                None None None []
  = ([EvUuid4],
     inl (Exn ValueError (MCat [MStr "foo"; MStr " is not a valid APIProvider"]))).
Proof.
  intros w.
  apply (process_image_raises_on_unknown_provider w (sample_config (Some "key"))
           "aGVsbG8=" (Some "foo") None None None None []).
  reflexivity.
Defined.

(** ** The batch *)

Lemma count_successes_cons (r : ProcessingResult) (rs : list ProcessingResult) :
  count_successes (r :: rs)
  = (if success r then 1 else 0) + count_successes rs.
Proof.
  unfold count_successes. simpl. destruct (success r); [|reflexivity].
  simpl length. lia.
Qed.

(** the loop variables after a run of turns: the counters add up to the
    number of envelopes appended *)
Lemma fold_record_result (rs : list ProcessingResult) :
  forall st : BatchState,
    bs_results (fold_left record_result rs st) = bs_results st ++ rs
    /\ bs_successful (fold_left record_result rs st)
       = bs_successful st + count_successes rs
    /\ bs_successful (fold_left record_result rs st)
       + bs_failed (fold_left record_result rs st)
       = bs_successful st + bs_failed st + Z.of_nat (length rs).
Proof.
  induction rs as [|r rs IH]; intros st.
  - simpl. rewrite app_nil_r. unfold count_successes. simpl.
    repeat split; lia.
  - cbn [fold_left]. destruct (IH (record_result st r)) as (Hres & Hsucc & Hsum).
    assert (Hstep :
              bs_results (record_result st r) = bs_results st ++ [r]
              /\ bs_successful (record_result st r)
                 = bs_successful st + (if success r then 1 else 0)
              /\ bs_failed (record_result st r)
                 = bs_failed st + (if success r then 0 else 1)).
    { unfold record_result.
      destruct (success r); cbn; repeat split; try reflexivity; lia. }
    destruct Hstep as (H1 & H2 & H3).
    rewrite H1, <- app_assoc in Hres. rewrite H2 in Hsucc. rewrite H2, H3 in Hsum.
    rewrite count_successes_cons. cbn [length].
    split; [exact Hres|]. destruct (success r); split; lia.
Qed.

Lemma info_quiet (w : World) (ctx : option Context) (text : message) (l : log) :
  ctx = None \/ (forall h t, ctx_info w h t = None) ->
  exists l', info w ctx text l = (l', inr tt).
Proof.
  intros [->|Hquiet].
  - now exists l.
  - destruct ctx as [c|]; [|now exists l].
    exists (EvCtxInfo text :: l). unfold info, call. now rewrite Hquiet.
Qed.

Section BatchLoop.

Variables (w : World) (config : ServerConfig) (client : BaseImageClient)
          (p : APIProvider) (analysis_kind : AnalysisType)
          (prompt : option string) (ctx : option Context) (total_images : Z).

(** a turn of the loop always ends with an envelope, and a well-formed one *)
Lemma item_envelope_returns (i : Z) (image_source : string) :
  total (item_envelope w config client p analysis_kind prompt ctx total_images
                       i image_source)
  /\ ensures (item_envelope w config client p analysis_kind prompt ctx
                            total_images i image_source) well_formed.
Proof.
  unfold item_envelope. split.
  - apply total_try_except. intros e.
    apply total_bind; [apply total_new_uuid|]. intros rid.
    apply total_bind; [apply total_now|]. intros stamp. apply total_ret.
  - apply ensures_try_except.
    + apply ensures_then. intros _. apply ensures_then. intros _.
      apply ensures_then. intros loaded. apply ensures_then. intros processed.
      apply run_client_returns.
    + intros e. apply ensures_then. intros rid. apply ensures_then. intros stamp.
      apply ensures_ret. apply failure_envelope_well_formed.
Qed.

(** a turn of the loop records the envelope of its source, whether the turn
    went through or its handler ran *)
Lemma batch_item_run (i : Z) (image_source : string) (st : BatchState) (l : log) :
  batch_item w config client p analysis_kind prompt ctx total_images i
             image_source st l
  = bind (item_envelope w config client p analysis_kind prompt ctx total_images
                        i image_source)
         (fun r => ret (record_result st r)) l.
Proof.
  unfold batch_item, item_envelope, new_uuid, now. run.
  destruct (report_progress w ctx i total_images l) as [l1 [e|[]]];
    [reflexivity|].
  destruct (info w ctx _ l1) as [l2 [e|[]]]; [reflexivity|].
  destruct (load_image_data w image_source (request_timeout config) l2)
    as [l3 [e|[image_data tag]]]; [reflexivity|].
  destruct (validate_and_process_image w image_data (max_image_size_mb config)
              true l3) as [l4 [e|[image metadata]]]; [reflexivity|].
  cbn [fst snd].
  now destruct (run_client w client image metadata analysis_kind prompt l4)
    as [l5 [e|r]].
Qed.

(** the loop runs one turn per source, in order: it never stops early, and
    the [k]-th envelope is the one of the [k]-th source, made from the
    history the earlier turns left *)
Lemma batch_loop_run (image_sources : list string) :
  forall (i : Z) (st : BatchState) (l : log),
  exists l' rs,
    batch_loop w config client p analysis_kind prompt ctx total_images i
               image_sources st l
    = (l', inr (fold_left record_result rs st))
    /\ length rs = length image_sources
    /\ Forall well_formed rs
    /\ forall k image_source,
         nth_error image_sources k = Some image_source ->
         exists r,
           nth_error rs k = Some r
           /\ outcome (item_envelope w config client p analysis_kind prompt ctx
                                     total_images (i + Z.of_nat k) image_source)
                      (log_before w config client p analysis_kind prompt ctx
                                  total_images i image_sources k l)
              = inr r.
Proof.
  induction image_sources as [|image_source rest IH]; intros i st l.
  - exists l, []. repeat split; [constructor|].
    intros [|k] src H; discriminate H.
  - cbn [batch_loop]. unfold bind at 1. rewrite batch_item_run. unfold bind at 1.
    destruct (item_envelope_returns i image_source) as [Htotal Hwf].
    destruct (Htotal l) as (l1 & r & E). rewrite E. cbn [ret].
    destruct (IH (i + 1) (record_result st r) l1)
      as (l' & rs & Eloop & Hlen & Hrs & Hnth).
    exists l', (r :: rs). split; [exact Eloop|].
    split; [simpl; now rewrite Hlen|].
    split; [constructor; [apply (Hwf _ _ _ E) | exact Hrs]|].
    intros [|k] src Hsrc.
    + injection Hsrc as <-. exists r. split; [reflexivity|].
      cbn [log_before]. rewrite Z.add_0_r. unfold outcome. now rewrite E.
    + cbn [nth_error] in Hsrc. destruct (Hnth k src Hsrc) as (r' & Hr' & Hout).
      exists r'. split; [exact Hr'|].
      cbn [log_before]. unfold history at 1. rewrite E. cbn [fst].
      replace (i + Z.of_nat (S k)) with (i + 1 + Z.of_nat k) by lia.
      exact Hout.
Qed.

End BatchLoop.

(** C1, as the code has it.  [analyze_image_batch] always returns a batch
    envelope whose total is the number of sources and whose two counters add
    up to it.  When provider, analysis kind, key or client cannot be set up,
    the envelope has no results, no success and every source counted as
    failed.  When the setup succeeds and the two notifications sent outside
    the loop, the one before it and the one after it, do not raise, there is
    one well-formed envelope per source, at the same index and in input
    order, each the envelope the turn for that source produces from the
    history the earlier turns left, whatever the earlier envelopes report and
    whatever is raised inside a turn, a notification of the turn included;
    the success counter counts the successful ones.  When one of the two
    outer notifications raises, the envelope is the one without results. *)
Theorem batch_envelope_accounts_for_every_source (w : World)
    (config : ServerConfig) (image_sources : list string)
    (api_provider api_key analysis_type prompt : option string)
    (ctx : option Context) (l : log) :
  exists l' envelope,
    analyze_image_batch w config image_sources api_provider api_key
                        analysis_type prompt ctx l
    = (l', inr envelope)
    /\ total_images envelope = len image_sources
    /\ successful envelope + failed envelope = len image_sources
    /\ ((results envelope = [] /\ successful envelope = 0
         /\ failed envelope = len image_sources)
        \/ (length (results envelope) = length image_sources
            /\ successful envelope = count_successes (results envelope)))
    /\ (forall e,
          batch_setup w config api_provider api_key analysis_type = inl e ->
          results envelope = [] /\ successful envelope = 0
          /\ failed envelope = len image_sources)
    /\ (forall client p analysis_kind,
          batch_setup w config api_provider api_key analysis_type
          = inr (client, p, analysis_kind) ->
          let announce :=
            info w ctx (MCat [MStr "Processing "; MInt (len image_sources);
                              MStr " images"]) in
          let loop :=
            batch_loop w config client p analysis_kind prompt ctx
                       (len image_sources) 0 image_sources
                       (mkBatchState [] 0 0) in
          let report (st : BatchState) :=
            info w ctx (MCat [MStr "Batch processing completed: ";
                              MInt (bs_successful st); MStr " successful, ";
                              MInt (bs_failed st); MStr " failed"]) in
          let l0 := history announce (EvTime :: l) in
          (outcome announce (EvTime :: l) = inr tt ->
           (forall st,
              outcome loop l0 = inr st ->
              outcome (report st) (EvTime :: history loop l0) = inr tt) ->
           length (results envelope) = length image_sources
           /\ successful envelope = count_successes (results envelope)
           /\ Forall well_formed (results envelope)
           /\ forall k image_source,
                nth_error image_sources k = Some image_source ->
                exists r,
                  nth_error (results envelope) k = Some r
                  /\ outcome
                       (item_envelope w config client p analysis_kind prompt
                                      ctx (len image_sources) (Z.of_nat k)
                                      image_source)
                       (log_before w config client p analysis_kind prompt ctx
                          (len image_sources) 0 image_sources k l0)
                     = inr r)
          /\ ((exists e, outcome announce (EvTime :: l) = inl e)
              \/ (exists st e,
                    outcome loop l0 = inr st
                    /\ outcome (report st) (EvTime :: history loop l0) = inl e) ->
              results envelope = [] /\ successful envelope = 0
              /\ failed envelope = len image_sources)).
Proof.
  set (N := len image_sources).
  assert (Hempty : forall (l1 : log) (stamp : float),
            exists l' envelope,
              (l1, @inr exn _ (mkBatchProcessingResult N 0 N [] stamp))
              = (l', inr envelope)
              /\ total_images envelope = N
              /\ successful envelope + failed envelope = N
              /\ ((results envelope = [] /\ successful envelope = 0
                   /\ failed envelope = N)
                  \/ (length (results envelope) = length image_sources
                      /\ successful envelope = count_successes (results envelope)))
              /\ results envelope = [] /\ successful envelope = 0
              /\ failed envelope = N).
  { intros l1 stamp. do 2 eexists. split; [reflexivity|]. cbn.
    repeat split; try lia. left. repeat split. }
  unfold analyze_image_batch, batch_body. unfold now at 1. run.
  destruct (batch_setup w config api_provider api_key analysis_type)
    as [e|[[client p] analysis_kind]] eqn:Hsetup.
  - (* the setup raised *)
    unfold now. run.
    destruct (Hempty (EvTime :: EvTime :: l)
                (PrimFloat.sub (time_time w (EvTime :: l)) (time_time w l)))
      as (l' & envelope & E & Htotal & Hsum & Hshape & Hnone).
    exists l', envelope. split; [exact E|].
    split; [exact Htotal|]. split; [exact Hsum|]. split; [exact Hshape|].
    split; [intros _ _; exact Hnone|]. intros c q a H. discriminate H.
  - fold N.
    destruct (info w ctx (MCat [MStr "Processing "; MInt N; MStr " images"])
                (EvTime :: l)) as [l0 [e|[]]] eqn:Hinfo.
    + (* the first notification raised *)
      unfold now. run.
      destruct (Hempty (EvTime :: l0)
                  (PrimFloat.sub (time_time w l0) (time_time w l)))
        as (l' & envelope & E & Htotal & Hsum & Hshape & Hnone).
      exists l', envelope. split; [exact E|].
      split; [exact Htotal|]. split; [exact Hsum|]. split; [exact Hshape|].
      split; [intros e' H; discriminate H|].
      intros c q a _. split; [|intros _; exact Hnone].
      intros Hannounce _. discriminate Hannounce.
    + destruct (batch_loop_run w config client p analysis_kind prompt ctx N
                  image_sources 0 (mkBatchState [] 0 0) l0)
        as (l1 & rs & Eloop & Hlen & Hwf & Hnth).
      rewrite Eloop.
      destruct (fold_record_result rs (mkBatchState [] 0 0))
        as (Hres & Hsucc & Hcount).
      cbn [bs_results bs_successful bs_failed app] in Hres, Hsucc, Hcount.
      unfold now at 1. run.
      destruct (info w ctx
                  (MCat [MStr "Batch processing completed: ";
                         MInt (bs_successful (fold_left record_result rs
                                                (mkBatchState [] 0 0)));
                         MStr " successful, ";
                         MInt (bs_failed (fold_left record_result rs
                                            (mkBatchState [] 0 0)));
                         MStr " failed"])
                  (EvTime :: l1)) as [l2 [e|[]]] eqn:Hdone.
      * (* the last notification raised *)
        unfold now. run.
        destruct (Hempty (EvTime :: l2)
                    (PrimFloat.sub (time_time w l2) (time_time w l)))
          as (l' & envelope & E & Htotal & Hsum & Hshape & Hnone).
        exists l', envelope. split; [exact E|].
        split; [exact Htotal|]. split; [exact Hsum|]. split; [exact Hshape|].
        split; [intros e' H; discriminate H|].
        intros c q a Hcpa. injection Hcpa as <- <- <-.
        split; [|intros _; exact Hnone].
        intros _ Hreport.
        specialize (Hreport (fold_left record_result rs (mkBatchState [] 0 0))).
        rewrite Eloop in Hreport. specialize (Hreport eq_refl).
        rewrite Hdone in Hreport. discriminate Hreport.
      * do 2 eexists. split; [reflexivity|].
        cbn [total_images successful failed results].
        rewrite Hres, Hsucc.
        assert (HN : Z.of_nat (length rs) = N) by (unfold N, len; now rewrite Hlen).
        split; [reflexivity|]. split; [lia|].
        split; [right; now split|].
        split; [intros e' H; discriminate H|].
        intros c q a Hcpa. injection Hcpa as <- <- <-.
        split.
        -- intros _ _.
           split; [exact Hlen|]. split; [lia|]. split; [exact Hwf|].
           intros k src Hsrc.
           destruct (Hnth k src Hsrc) as (r & Hr & Hout).
           exists r. split; [exact Hr|].
           rewrite Z.add_0_l in Hout. exact Hout.
        -- intros [[e He]|(st & e & Hst & He)]; [discriminate He|].
           rewrite Eloop in Hst, He. injection Hst as <-.
           rewrite Hdone in He. discriminate He.
Qed.

Lemma batch_envelope_accounts_for_every_source_witness :
  let w := flaky_context_world in
  let sources := ["aGVsbG8="; "aGVsbG8="] in
  ctx_info w [EvCtxProgress 0 2] (MStr "Processing image 1/2: aGVsbG8=")
  = Some (Exn OtherException (MStr "notification refused"))
  /\ exists envelope,
       outcome (analyze_image_batch w (sample_config (Some "key")) sources
                  None None (Some "description") None (Some RequestContext)) []
       = inr envelope
       /\ length (results envelope) = 2%nat
       /\ map success (results envelope) = [false; true]
       /\ successful envelope = 1 /\ failed envelope = 1
       /\ Forall well_formed (results envelope).
Proof.
  intros w sources. split; [reflexivity|].
  destruct (batch_envelope_accounts_for_every_source w
              (sample_config (Some "key")) sources None None
              (Some "description") None (Some RequestContext) [])
    as (l' & envelope & E & _ & _ & _ & _ & Haligned).
  destruct (Haligned (OpenAIImageClient w) OPENAI DESCRIPTION eq_refl)
    as [Hsent _].
  destruct Hsent as (Hlen & _ & Hwf & _).
  - reflexivity.
  - intros st _. reflexivity.
  - exists envelope. unfold outcome. rewrite E. cbn [snd].
    split; [reflexivity|]. split; [exact Hlen|].
    vm_compute in E. injection E as _ <-.
    repeat split. exact Hwf.
Defined.

(** C1, the claim as stated fails: with no key configured the batch over
    one source returns an envelope with no results at all. *)
Lemma batch_without_key_has_no_results :
  let w := sample_world (fun _ => inr (png_image 640 480)) "A cat." in
  batch_setup w (sample_config None) None None None
  = inl (Exn ValueError
           (MCat [MStr "No API key available for provider: "; MStr "openai"]))
  /\ outcome (analyze_image_batch w (sample_config None) ["aGVsbG8="]
                None None None None None) []
     = inr (mkBatchProcessingResult 1 0 1 [] 1)
  /\ length (results (mkBatchProcessingResult 1 0 1 [] 1))
     <> length ["aGVsbG8="].
Proof.
  intros w. split; [reflexivity|]. split; [vm_compute; reflexivity|].
  discriminate.
Qed.

(** * Further properties *)

(** ** Base64: encoding and decoding *)

Lemma all_bytes_complete (x : byte) : In x all_bytes.
Proof.
  unfold all_bytes.
  assert (Hx : byte_of_Z (Z.of_nat (N.to_nat (Byte.to_N x))) = x)
    by (destruct x; reflexivity).
  rewrite <- Hx at 1.
  apply (in_map (fun n => byte_of_Z (Z.of_nat n))), in_seq.
  split; [lia|]. pose proof (Byte.to_N_bounded x). lia.
Qed.

Lemma for_all_bytes (P : byte -> bool) :
  forallb P all_bytes = true -> forall x, P x = true.
Proof.
  intros H x. rewrite forallb_forall in H. apply H, all_bytes_complete.
Qed.

Lemma for_all_byte_pairs (P : byte -> byte -> bool) :
  forallb (fun x => forallb (P x) all_bytes) all_bytes = true ->
  forall x y, P x y = true.
Proof.
  intros H x y.
  apply (for_all_bytes (P x)).
  now apply (for_all_bytes (fun x => forallb (P x) all_bytes)).
Qed.

(** the arithmetic of one group, checked on every byte and pair of bytes *)
Lemma b64_group_bits :
  (forall x y,
     byte_of_Z (Z.lor (Z.shiftl (b64_c1 x) 2) (Z.shiftr (b64_c2 x y) 4)) = x
     /\ Z.land (b64_c2 x y) 15 = Z.shiftr (Z_of_byte y) 4
     /\ Z.shiftr (b64_c3 x y) 2 = Z.land (Z_of_byte x) 15
     /\ Z.land (b64_c3 x y) 3 = Z.shiftr (Z_of_byte y) 6)
  /\ (forall x,
        byte_of_Z (Z.lor (Z.shiftl (Z.shiftr (Z_of_byte x) 4) 4)
                         (Z.land (Z_of_byte x) 15)) = x
        /\ byte_of_Z (Z.lor (Z.shiftl (Z.shiftr (Z_of_byte x) 6) 6)
                            (b64_c4 x)) = x
        /\ byte_of_Z (Z.lor (Z.shiftl (b64_c1 x) 2)
                            (Z.shiftr (Z.shiftl (Z.land (Z_of_byte x) 3) 4) 4)) = x
        /\ Z.land (Z.shiftl (Z.land (Z_of_byte x) 3) 4) 15 = 0
        /\ Z.shiftr (Z.shiftl (Z.land (Z_of_byte x) 15) 2) 2
           = Z.land (Z_of_byte x) 15
        /\ Z.land (Z.shiftl (Z.land (Z_of_byte x) 15) 2) 3 = 0).
Proof.
  split.
  - intros x y.
    pose proof (for_all_byte_pairs
      (fun x y =>
         Byte.eqb (byte_of_Z (Z.lor (Z.shiftl (b64_c1 x) 2)
                                    (Z.shiftr (b64_c2 x y) 4))) x
         && (Z.land (b64_c2 x y) 15 =? Z.shiftr (Z_of_byte y) 4)
         && (Z.shiftr (b64_c3 x y) 2 =? Z.land (Z_of_byte x) 15)
         && (Z.land (b64_c3 x y) 3 =? Z.shiftr (Z_of_byte y) 6))
      ltac:(vm_compute; reflexivity) x y) as H.
    cbv beta in H. rewrite !andb_true_iff in H.
    destruct H as [[[H1 H2] H3] H4].
    apply Byte.byte_dec_bl in H1. apply Z.eqb_eq in H2, H3, H4.
    repeat split; assumption.
  - intros x.
    pose proof (for_all_bytes
      (fun x =>
         Byte.eqb (byte_of_Z (Z.lor (Z.shiftl (Z.shiftr (Z_of_byte x) 4) 4)
                                    (Z.land (Z_of_byte x) 15))) x
         && Byte.eqb (byte_of_Z (Z.lor (Z.shiftl (Z.shiftr (Z_of_byte x) 6) 6)
                                       (b64_c4 x))) x
         && Byte.eqb (byte_of_Z (Z.lor (Z.shiftl (b64_c1 x) 2)
                       (Z.shiftr (Z.shiftl (Z.land (Z_of_byte x) 3) 4) 4))) x
         && (Z.land (Z.shiftl (Z.land (Z_of_byte x) 3) 4) 15 =? 0)
         && (Z.shiftr (Z.shiftl (Z.land (Z_of_byte x) 15) 2) 2
             =? Z.land (Z_of_byte x) 15)
         && (Z.land (Z.shiftl (Z.land (Z_of_byte x) 15) 2) 3 =? 0))
      ltac:(vm_compute; reflexivity) x) as H.
    cbv beta in H. rewrite !andb_true_iff in H.
    destruct H as [[[[[H1 H2] H3] H4] H5] H6].
    apply Byte.byte_dec_bl in H1, H2, H3. apply Z.eqb_eq in H4, H5, H6.
    repeat split; assumption.
Qed.

Lemma b64_char_decodes (v : Z) :
  0 <= v < 64 ->
  b64_value (b64_char v) = Some v
  /\ Ascii.eqb (b64_char v) "="%char = false
  /\ (N_of_ascii (b64_char v) <? 128)%N = true.
Proof.
  intros Hv.
  assert (H : forallb
                (fun n =>
                   match b64_value (b64_char (Z.of_nat n)) with
                   | Some u => u =? Z.of_nat n
                   | None => false
                   end
                   && negb (Ascii.eqb (b64_char (Z.of_nat n)) "="%char)
                   && (N_of_ascii (b64_char (Z.of_nat n)) <? 128)%N)
                (seq 0 64) = true) by (vm_compute; reflexivity).
  rewrite forallb_forall in H. specialize (H (Z.to_nat v)).
  rewrite Z2Nat.id in H by lia.
  assert (Hin : In (Z.to_nat v) (seq 0 64)) by (apply in_seq; lia).
  apply H in Hin. rewrite !andb_true_iff in Hin. destruct Hin as [[H1 H2] H3].
  destruct (b64_value (b64_char v)) as [u|]; [|discriminate H1].
  apply Z.eqb_eq in H1. subst u. apply negb_true_iff in H2. auto.
Qed.

Lemma b64_sextets_in_range :
  (forall x y, 0 <= b64_c2 x y < 64 /\ 0 <= b64_c3 x y < 64)
  /\ (forall x, 0 <= b64_c1 x < 64 /\ 0 <= b64_c4 x < 64
                /\ 0 <= Z.shiftl (Z.land (Z_of_byte x) 3) 4 < 64
                /\ 0 <= Z.shiftl (Z.land (Z_of_byte x) 15) 2 < 64).
Proof.
  pose (ok := fun v : Z => (0 <=? v) && (v <? 64)).
  assert (Hok : forall v, ok v = true -> 0 <= v < 64).
  { intros v H. unfold ok in H. apply andb_true_iff in H as [H1 H2].
    apply Z.leb_le in H1. apply Z.ltb_lt in H2. lia. }
  split.
  - intros x y.
    pose proof (for_all_byte_pairs
                  (fun x y => ok (b64_c2 x y) && ok (b64_c3 x y))
                  ltac:(vm_compute; reflexivity) x y) as H.
    cbv beta in H. apply andb_true_iff in H as [H1 H2]. split; now apply Hok.
  - intros x.
    pose proof (for_all_bytes
                  (fun x => ok (b64_c1 x) && ok (b64_c4 x)
                            && ok (Z.shiftl (Z.land (Z_of_byte x) 3) 4)
                            && ok (Z.shiftl (Z.land (Z_of_byte x) 15) 2))
                  ltac:(vm_compute; reflexivity) x) as H.
    cbv beta in H. rewrite !andb_true_iff in H.
    destruct H as [[[H1 H2] H3] H4]. repeat split; now apply Hok.
Qed.

(** one character of the alphabet, read by the decoding loop *)
Lemma a2b_base64_loop_sextet (v : Z) (rest : string) (quad_pos leftchar pads : Z)
    (out : bytes) :
  0 <= v < 64 ->
  a2b_base64_loop (String (b64_char v) rest) quad_pos leftchar pads false out
  = if quad_pos =? 0 then a2b_base64_loop rest 1 v 0 false out
    else if quad_pos =? 1 then
      a2b_base64_loop rest 2 (Z.land v 15) 0 false
        (byte_of_Z (Z.lor (Z.shiftl leftchar 2) (Z.shiftr v 4)) :: out)
    else if quad_pos =? 2 then
      a2b_base64_loop rest 3 (Z.land v 3) 0 false
        (byte_of_Z (Z.lor (Z.shiftl leftchar 4) (Z.shiftr v 2)) :: out)
    else
      a2b_base64_loop rest 0 0 0 false
        (byte_of_Z (Z.lor (Z.shiftl leftchar 6) v) :: out).
Proof.
  intros Hv. destruct (b64_char_decodes v Hv) as (Hval & Hpad & _).
  cbn [a2b_base64_loop]. now rewrite Hpad, Hval.
Qed.

Lemma list_ind3 {A} (P : list A -> Prop) :
  P [] -> (forall x, P [x]) -> (forall x y, P [x; y]) ->
  (forall x y z rest, P rest -> P (x :: y :: z :: rest)) ->
  forall l, P l.
Proof.
  intros H0 H1 H2 H3.
  assert (H : forall l, P l /\ (forall x, P (x :: l)) /\ (forall x y, P (x :: y :: l))).
  { induction l as [|a l (IH0 & IH1 & IH2)].
    - repeat split; auto.
    - repeat split; auto. }
  intros l. apply H.
Qed.

(** decoding what [b64encode] wrote gives the bytes back *)
Lemma a2b_base64_loop_encode (data : bytes) :
  forall (leftchar : Z) (out : bytes),
    a2b_base64_loop (b64encode data) 0 leftchar 0 false out
    = inr (rev out ++ data).
Proof.
  destruct b64_group_bits as [Hpair Hone].
  destruct b64_sextets_in_range as [Rpair Rone].
  induction data as [|x|x y|x y z rest IH] using list_ind3; intros leftchar out.
  - cbn. now rewrite app_nil_r.
  - cbn [b64encode].
    destruct (Rone x) as (R1 & _ & R2 & _).
    destruct (Hone x) as (_ & _ & B1 & _).
    fold (b64_c1 x).
    rewrite (a2b_base64_loop_sextet _ _ _ _ _ _ R1). cbn [Z.eqb Pos.eqb].
    rewrite (a2b_base64_loop_sextet _ _ _ _ _ _ R2). cbn [Z.eqb Pos.eqb].
    rewrite B1. cbn. rewrite <- ?app_assoc. reflexivity.
  - cbn [b64encode].
    destruct (Rone x) as (R1 & _). destruct (Rpair x y) as (R2 & _).
    destruct (Rone y) as (_ & _ & _ & R3).
    destruct (Hpair x y) as (B1 & L2 & _). destruct (Hone y) as (B2 & _ & _ & _ & S3 & _).
    fold (b64_c1 x). fold (b64_c2 x y).
    rewrite (a2b_base64_loop_sextet _ _ _ _ _ _ R1). cbn [Z.eqb Pos.eqb].
    rewrite (a2b_base64_loop_sextet _ _ _ _ _ _ R2). cbn [Z.eqb Pos.eqb].
    rewrite (a2b_base64_loop_sextet _ _ _ _ _ _ R3). cbn [Z.eqb Pos.eqb].
    rewrite B1, L2, S3, B2. cbn. rewrite <- ?app_assoc. reflexivity.
  - cbn [b64encode].
    destruct (Rone x) as (R1 & _). destruct (Rpair x y) as (R2 & _).
    destruct (Rpair y z) as (_ & R3). destruct (Rone z) as (_ & R4 & _).
    destruct (Hpair x y) as (B1 & L2 & _).
    destruct (Hpair y z) as (_ & _ & S3 & L3).
    destruct (Hone y) as (B2 & _). destruct (Hone z) as (_ & B3 & _).
    fold (b64_c1 x). fold (b64_c2 x y). fold (b64_c3 y z). fold (b64_c4 z).
    rewrite (a2b_base64_loop_sextet _ _ _ _ _ _ R1). cbn [Z.eqb Pos.eqb].
    rewrite (a2b_base64_loop_sextet _ _ _ _ _ _ R2). cbn [Z.eqb Pos.eqb].
    rewrite (a2b_base64_loop_sextet _ _ _ _ _ _ R3). cbn [Z.eqb Pos.eqb].
    rewrite (a2b_base64_loop_sextet _ _ _ _ _ _ R4). cbn [Z.eqb Pos.eqb].
    rewrite B1, L2, S3, B2, L3, B3, IH. cbn [rev]. rewrite <- ?app_assoc.
    reflexivity.
Qed.

Lemma b64encode_is_ascii (data : bytes) :
  all_ascii (b64encode data) = true
  /\ startswith (b64encode data) "=" = false.
Proof.
  destruct b64_sextets_in_range as [Rpair Rone].
  assert (Hchar : forall v, 0 <= v < 64 ->
                    (N_of_ascii (b64_char v) <? 128)%N = true
                    /\ Ascii.eqb "="%char (b64_char v) = false).
  { intros v Hv. destruct (b64_char_decodes v Hv) as (_ & Hpad & Hlow).
    split; [exact Hlow|]. now rewrite Ascii.eqb_sym. }
  split.
  - induction data as [|x|x y|x y z rest IH] using list_ind3.
    + reflexivity.
    + cbn [b64encode all_ascii]. fold (b64_c1 x).
      destruct (Rone x) as (R1 & _ & R2 & _).
      rewrite (proj1 (Hchar _ R1)), (proj1 (Hchar _ R2)). reflexivity.
    + cbn [b64encode all_ascii]. fold (b64_c1 x). fold (b64_c2 x y).
      destruct (Rone x) as (R1 & _). destruct (Rpair x y) as (R2 & _).
      destruct (Rone y) as (_ & _ & _ & R3).
      rewrite (proj1 (Hchar _ R1)), (proj1 (Hchar _ R2)), (proj1 (Hchar _ R3)).
      reflexivity.
    + cbn [b64encode all_ascii].
      fold (b64_c1 x). fold (b64_c2 x y). fold (b64_c3 y z). fold (b64_c4 z).
      destruct (Rone x) as (R1 & _). destruct (Rpair x y) as (R2 & _).
      destruct (Rpair y z) as (_ & R3). destruct (Rone z) as (_ & R4 & _).
      rewrite (proj1 (Hchar _ R1)), (proj1 (Hchar _ R2)), (proj1 (Hchar _ R3)),
        (proj1 (Hchar _ R4)), IH. reflexivity.
  - destruct data as [|x [|y [|z rest]]]; [reflexivity| | |];
      cbn [b64encode startswith]; fold (b64_c1 x);
      destruct (Rone x) as (R1 & _); now rewrite (proj2 (Hchar _ R1)).
Qed.

(** [base64.b64decode(base64.b64encode(data), validate=True) == data] *)
Lemma b64decode_b64encode (data : bytes) :
  b64decode_validate (b64encode data) = inr data.
Proof.
  unfold b64decode_validate.
  destruct (b64encode_is_ascii data) as [-> ->]. cbn [negb].
  apply (a2b_base64_loop_encode data 0 []).
Qed.

Lemma ascii_lower_comma (c : ascii) : ascii_lower c = ","%char -> c = ","%char.
Proof.
  destruct c as [[] [] [] [] [] [] [] []]; vm_compute; intros H;
    try reflexivity; discriminate H.
Qed.

Lemma list_ascii_app (s t : string) :
  list_ascii_of_string (s ++ t) = list_ascii_of_string s ++ list_ascii_of_string t.
Proof. induction s as [|c s IH]; [reflexivity|]. cbn. now rewrite IH. Qed.

Lemma str_app_assoc (s t u : string) : ((s ++ t) ++ u = s ++ (t ++ u))%string.
Proof. induction s as [|c s IH]; [reflexivity|]. cbn. now rewrite IH. Qed.

Lemma lower_has_no_comma (format : string) :
  ~ In ","%char (list_ascii_of_string format) ->
  ~ In ","%char (list_ascii_of_string (lower format ++ ";base64")).
Proof.
  intros Hformat. rewrite list_ascii_app. intros H.
  apply in_app_or in H as [H|H].
  - unfold lower, str_map in H. rewrite list_ascii_of_string_of_list_ascii in H.
    apply in_map_iff in H as (c & Hc & Hin).
    apply ascii_lower_comma in Hc. subst c. contradiction.
  - cbn in H. repeat destruct H as [H|H]; try discriminate H. exact H.
Qed.

(** the data URL [image_to_base64] builds, taken apart again *)
Lemma data_url_payload (format payload : string) :
  ~ In ","%char (list_ascii_of_string format) ->
  let url := ("data:image/" ++ lower format ++ ";base64," ++ payload)%string in
  startswith url "data:image/" = true /\ base64_payload url = payload.
Proof.
  intros Hformat url. split; [reflexivity|].
  assert (Hurl : url = ("data:image/"
                        ++ (lower format ++ ";base64") ++ String "," payload)%string).
  { unfold url. now rewrite str_app_assoc. }
  unfold base64_payload. rewrite Hurl.
  change (startswith ("data:image/" ++ (lower format ++ ";base64")
                        ++ String "," payload) "data:image/") with true.
  assert (Hin : str_in "," ("data:image/" ++ (lower format ++ ";base64")
                              ++ String "," payload)%string = true).
  { change ("data:image/" ++ (lower format ++ ";base64") ++ String "," payload)%string
      with (String "d" (String "a" (String "t" (String "a" (String ":"
            (String "i" (String "m" (String "a" (String "g" (String "e"
            (String "/" ((lower format ++ ";base64") ++ String "," payload)))))))))))).
    cbn [str_in]. rewrite (str_in_app "," (lower format ++ ";base64") payload).
    now rewrite !orb_true_r. }
  rewrite Hin. cbn [andb].
  change ("data:image/" ++ (lower format ++ ";base64") ++ String "," payload)%string
    with (String "d" (String "a" (String "t" (String "a" (String ":"
          (String "i" (String "m" (String "a" (String "g" (String "e"
          (String "/" ((lower format ++ ";base64") ++ String "," payload)))))))))))).
  cbn [after_first Ascii.eqb Bool.eqb]. cbn.
  apply after_first_app. now apply lower_has_no_comma.
Qed.

Lemma image_to_base64_run (w : World) (image : Image) (format : string)
    (l : log) :
  let saved_image :=
    if String.eqb (upper format) "JPEG" && String.eqb (img_mode image) "RGBA"
    then mkImage None (img_width image) (img_height image) "RGB" false
    else image in
  image_to_base64 w image format l
  = (EvImageSave format :: l,
     match image_save w saved_image format with
     | inl e => inl e
     | inr saved =>
         inr ("data:image/" ++ lower format ++ ";base64," ++ b64encode saved)%string
     end).
Proof.
  intros saved_image. unfold image_to_base64, bind, call, ret.
  fold saved_image. now destruct (image_save w saved_image format).
Qed.

Lemma is_base64_image_of_prefix (s : string) :
  startswith s "data:image/" = true -> is_base64_image s = true.
Proof. intros H. unfold is_base64_image. now rewrite H. Qed.

(** X1: what [image_to_base64] returns is a data URL that
    [load_image_from_base64] decodes back to exactly the bytes the codec
    saved, and that [is_base64_image] takes for inline data; the format must
    hold no comma. *)
Theorem data_url_round_trip (w : World) (image : Image) (format : string)
    (l l' : log) (url : string) :
  ~ In ","%char (list_ascii_of_string format) ->
  image_to_base64 w image format l = (l', inr url) ->
  exists saved,
    image_save w
      (if String.eqb (upper format) "JPEG" && String.eqb (img_mode image) "RGBA"
       then mkImage None (img_width image) (img_height image) "RGB" false
       else image) format = inr saved
    /\ l' = EvImageSave format :: l
    /\ startswith url "data:image/" = true
    /\ is_base64_image url = true
    /\ forall h, load_image_from_base64 url h = (h, inr saved).
Proof.
  intros Hformat. rewrite image_to_base64_run.
  destruct (image_save w _ format) as [e|saved]; [discriminate|].
  destruct (data_url_payload format (b64encode saved) Hformat) as [Hprefix Hpayload].
  set (u := ("data:image/" ++ lower format ++ ";base64," ++ b64encode saved)%string)
    in *.
  intros H. assert (Hu : u = url) by congruence.
  assert (Hl : EvImageSave format :: l = l') by congruence.
  clearbody u. subst url l'. exists saved.
  split; [reflexivity|]. split; [reflexivity|]. split; [exact Hprefix|].
  split.
  - now apply is_base64_image_of_prefix.
  - intros h. rewrite load_image_from_base64_run, Hpayload.
    now rewrite b64decode_b64encode.
Qed.

Lemma data_url_round_trip_witness :
  let w := sample_world (fun _ => inr (png_image 1 1)) "" in
  load_image_from_base64 "data:image/jpeg;base64,anBlZw==" []
  = ([], inr (bytes_lit "jpeg")).
Proof.
  intros w.
  destruct (data_url_round_trip w (png_image 1 1) "JPEG" []
              [EvImageSave "JPEG"] "data:image/jpeg;base64,anBlZw==")
    as (saved & Hsaved & _ & _ & _ & Hload).
  - simpl. intros H. repeat destruct H as [H|H]; try discriminate H. exact H.
  - reflexivity.
  - rewrite Hload. vm_compute in Hsaved. now injection Hsaved as <-.
Defined.

(** ** The calls a computation makes *)

Lemma emits_ret {A} (a : A) (P : event -> bool) : emits (ret a) P.
Proof. intros l. now exists []. Qed.

Lemma emits_raise {A} (e : exn) (P : event -> bool) : emits (@raise A e) P.
Proof. intros l. now exists []. Qed.

Lemma emits_lift {A} (r : exn + A) (P : event -> bool) : emits (lift r) P.
Proof. intros l. now exists []. Qed.

Lemma emits_call {A} (ev : event) (answer : log -> exn + A) (P : event -> bool) :
  P ev = true -> emits (call ev answer) P.
Proof. intros H l. exists [ev]. split; [reflexivity|]. cbn. now rewrite H. Qed.

Lemma emits_bind {A B} (m : M A) (k : A -> M B) (P : event -> bool) :
  emits m P -> (forall a, emits (k a) P) -> emits (bind m k) P.
Proof.
  intros Hm Hk l. destruct (Hm l) as (evs & Hevs & Hall).
  unfold history, bind in *. destruct (m l) as [l1 [e|a]]; cbn [fst] in *.
  - now exists evs.
  - destruct (Hk a l1) as (evs' & Hevs' & Hall').
    exists (evs' ++ evs). unfold history in Hevs'. rewrite Hevs', Hevs.
    split; [now rewrite app_assoc|]. rewrite forallb_app. now rewrite Hall, Hall'.
Qed.

Lemma emits_try_except {A} (m : M A) (handler : exn -> M A) (P : event -> bool) :
  emits m P -> (forall e, emits (handler e) P) -> emits (try_except m handler) P.
Proof.
  intros Hm Hh l. destruct (Hm l) as (evs & Hevs & Hall).
  unfold history, try_except in *. destruct (m l) as [l1 [e|a]]; cbn [fst] in *.
  - destruct (Hh e l1) as (evs' & Hevs' & Hall').
    exists (evs' ++ evs). unfold history in Hevs'. rewrite Hevs', Hevs.
    split; [now rewrite app_assoc|]. rewrite forallb_app. now rewrite Hall, Hall'.
  - now exists evs.
Qed.

Lemma emits_weaken {A} (m : M A) (P Q : event -> bool) :
  (forall ev, P ev = true -> Q ev = true) -> emits m P -> emits m Q.
Proof.
  intros HPQ Hm l. destruct (Hm l) as (evs & Hevs & Hall).
  exists evs. split; [exact Hevs|].
  rewrite forallb_forall in *. intros ev Hin. apply HPQ, Hall, Hin.
Qed.

Lemma emits_now (w : World) (P : event -> bool) : P EvTime = true -> emits (now w) P.
Proof. apply emits_call. Qed.

Lemma emits_new_uuid (w : World) (P : event -> bool) :
  P EvUuid4 = true -> emits (new_uuid w) P.
Proof. apply emits_call. Qed.

(** ** openai_client.py: the remote call and its retries *)

(** one attempt: one request, and either a reply that is not empty or a
    [ValueError] *)
Lemma api_call_once_run (w : World) (req : ChatRequest) (l : log) :
  exists r,
    api_call_once w req l = (EvChatCompletion req :: l, r)
    /\ match r with
       | inr content => content <> ""
       | inl e => exn_cls e = ValueError
       end.
Proof.
  unfold api_call_once. run.
  destruct (chat_completions_create w l req) as [e|[|[content|] rest]].
  - destruct (exn_cls e); eexists; (split; [reflexivity|]); reflexivity.
  - eexists. split; [reflexivity|]. reflexivity.
  - unfold truthy. destruct (String.eqb_spec content "") as [->|Hne].
    + eexists. split; [reflexivity|]. reflexivity.
    + eexists. split; [reflexivity|]. exact Hne.
  - eexists. split; [reflexivity|]. reflexivity.
Qed.

Lemma api_call_once_reply (w : World) (req : ChatRequest) (h : log)
    (content : string) :
  outcome (api_call_once w req) h = inr content
  <-> content <> ""
      /\ exists rest,
           chat_completions_create w h req = inr (Some content :: rest).
Proof.
  unfold api_call_once. run.
  destruct (chat_completions_create w h req) as [e|[|[c|] rest]].
  - split; [destruct (exn_cls e); discriminate|].
    intros [_ [rest H]]. discriminate H.
  - split; [discriminate|]. intros [_ [rest H]]. discriminate H.
  - unfold truthy. destruct (String.eqb_spec c "") as [->|Hne]; cbn.
    + split; [discriminate|]. intros [Hc [rest' H]].
      injection H as <- _. now elim Hc.
    + split.
      * intros H. injection H as <-. split; [exact Hne|]. now exists rest.
      * intros [_ [rest' H]]. now injection H as -> _.
  - cbn. split; [discriminate|]. intros [_ [rest' H]]. discriminate H.
Qed.

(** X2: [_make_api_call] sends the same request until an attempt replies,
    three times at most: when the first attempt replies one request was sent
    and that reply is returned, when the first fails and the second replies
    two were sent and the second reply is returned, and when both fail three
    were sent and the result is that of the third attempt, its exception
    included.  An attempt replies exactly when the model answered with a
    first choice whose content is not empty, and the reply is that content;
    whatever an attempt raises is a [ValueError]. *)
Theorem make_api_call_retries (w : World) (req : ChatRequest) (l : log) :
  let ask := EvChatCompletion req in
  let attempt (h : log) := outcome (api_call_once w req) h in
  (forall content,
     attempt l = inr content ->
     _make_api_call w req l = (ask :: l, inr content))
  /\ (forall e1 content,
        attempt l = inl e1 ->
        attempt (ask :: l) = inr content ->
        _make_api_call w req l = (ask :: ask :: l, inr content))
  /\ (forall e1 e2,
        attempt l = inl e1 ->
        attempt (ask :: l) = inl e2 ->
        _make_api_call w req l
        = (ask :: ask :: ask :: l, attempt (ask :: ask :: l)))
  /\ (forall h content,
        attempt h = inr content
        <-> content <> ""
            /\ exists rest,
                 chat_completions_create w h req = inr (Some content :: rest))
  /\ (forall h e, attempt h = inl e -> exn_cls e = ValueError)
  /\ (forall content,
        outcome (_make_api_call w req) l = inr content -> content <> "")
  /\ (forall e,
        outcome (_make_api_call w req) l = inl e ->
        exn_cls e = ValueError
        /\ history (_make_api_call w req) l = ask :: ask :: ask :: l
        /\ attempt (ask :: ask :: l) = inl e)
  /\ exists n, (1 <= n <= 3)%nat
               /\ history (_make_api_call w req) l = repeat ask n ++ l.
Proof.
  intros ask attempt.
  assert (Hclass : forall h e, attempt h = inl e -> exn_cls e = ValueError).
  { intros h e. unfold attempt, outcome.
    destruct (api_call_once_run w req h) as (r & Er & Hr). rewrite Er.
    cbn [snd]. intros ->. exact Hr. }
  unfold attempt in *. unfold _make_api_call, outcome, history in *.
  cbn [retry]. unfold try_except.
  destruct (api_call_once_run w req l) as (r1 & E1 & H1).
  destruct (api_call_once_run w req (ask :: l)) as (r2 & E2 & H2).
  destruct (api_call_once_run w req (ask :: ask :: l)) as (r3 & E3 & H3).
  fold ask in E1, E2, E3. rewrite E1.
  assert (Hreply : forall h content,
            snd (api_call_once w req h) = inr content
            <-> content <> ""
                /\ exists rest,
                     chat_completions_create w h req
                     = inr (Some content :: rest)).
  { intros h content. apply (api_call_once_reply w req h content). }
  destruct r1 as [e1|c1]; cbn [fst snd].
  - rewrite E2. destruct r2 as [e2|c2]; cbn [fst snd].
    + rewrite E3. cbn [fst snd]. split; [discriminate|].
      split; [discriminate|]. split; [reflexivity|].
      split; [exact Hreply|]. split; [exact Hclass|].
      split; [intros c Hc; subst r3; exact H3|].
      split; [intros e He; subst r3; auto|].
      exists 3%nat. split; [lia | reflexivity].
    + split; [discriminate|].
      split; [intros e c _ Hc; now injection Hc as <-|].
      split; [discriminate|].
      split; [exact Hreply|]. split; [exact Hclass|].
      split; [intros c Hc; injection Hc as <-; exact H2|].
      split; [discriminate|]. exists 2%nat. split; [lia | reflexivity].
  - split; [intros c Hc; now injection Hc as <-|].
    split; [discriminate|]. split; [discriminate|].
    split; [exact Hreply|]. split; [exact Hclass|].
    split; [intros c Hc; injection Hc as <-; exact H1|].
    split; [discriminate|]. exists 1%nat. split; [lia | reflexivity].
Qed.

Lemma make_api_call_retries_witness :
  let req := mkChatRequest "What is this?" "data:image/jpeg;base64,anBlZw==" in
  let ask := EvChatCompletion req in
  _make_api_call (sample_world (fun _ => inr (png_image 1 1)) "A cat.") req []
  = ([ask], inr "A cat.")
  /\ _make_api_call second_attempt_world req [] = ([ask; ask], inr "A cat.")
  /\ _make_api_call failing_model_world req []
     = ([ask; ask; ask],
        inl (Exn ValueError
               (MCat [MStr "OpenAI rate limit exceeded: ";
                      MCat [MStr "429 after "; MInt 2]]))).
Proof.
  intros req ask.
  destruct (make_api_call_retries
              (sample_world (fun _ => inr (png_image 1 1)) "A cat.") req [])
    as (Hfirst & _).
  destruct (make_api_call_retries second_attempt_world req [])
    as (_ & Hsecond & _).
  destruct (make_api_call_retries failing_model_world req [])
    as (_ & _ & Hthird & _).
  split; [apply Hfirst; reflexivity|].
  split; [eapply Hsecond; reflexivity|].
  erewrite Hthird; reflexivity.
Defined.

Lemma make_api_call_reply (w : World) (req : ChatRequest) :
  ensures (_make_api_call w req) (fun content => content <> "").
Proof.
  assert (Honce : ensures (api_call_once w req) (fun content => content <> "")).
  { intros l l' c E. destruct (api_call_once_run w req l) as (r & Er & Hr).
    rewrite Er in E. injection E as _ ->. exact Hr. }
  unfold _make_api_call. cbn [retry].
  apply ensures_try_except; [exact Honce|]. intros _.
  apply ensures_try_except; [exact Honce|]. intros _. exact Honce.
Qed.

Lemma make_api_call_emits (w : World) (req : ChatRequest) (P : event -> bool) :
  P (EvChatCompletion req) = true -> emits (_make_api_call w req) P.
Proof.
  intros HP.
  assert (Honce : emits (api_call_once w req) P).
  { intros l. destruct (api_call_once_run w req l) as (r & Er & _).
    exists [EvChatCompletion req]. unfold history. rewrite Er.
    split; [reflexivity|]. cbn. now rewrite HP. }
  unfold _make_api_call. cbn [retry].
  apply emits_try_except; [exact Honce|]. intros _.
  apply emits_try_except; [exact Honce|]. intros _. exact Honce.
Qed.

(** ** The provider's own gate *)

(** X3: an image the OpenAI client does not accept is answered with a
    failure envelope carrying the validation message, by [process_image] of
    the client and by [analyze_with_custom_prompt] alike, after reading the
    clock and drawing an identifier only: nothing is encoded and no request
    is sent.  BMP and TIFF images, which the generic format check lets
    through, are refused here. *)
Theorem openai_gate_precedes_remote_call (w : World) (image : Image)
    (image_metadata : Metadata) (analysis_type : AnalysisType)
    (custom_prompt : string) (l : log) :
  (forall e,
     validate_image OPENAI_FORMATS OPENAI_MAX_MB image = inl e ->
     let refusal :=
       (EvTime :: EvTime :: EvUuid4 :: EvTime :: l,
        @inr exn _
          (mkProcessingResult false OPENAI None (Some (str_exn e))
             (Some (uuid4 w (EvTime :: l)))
             (time_time w (EvTime :: EvUuid4 :: EvTime :: l)))) in
     @client_process_image w (OpenAIImageClient w) image image_metadata
                           analysis_type l = refusal
     /\ analyze_with_custom_prompt w image image_metadata custom_prompt l
        = refusal)
  /\ (forall f,
        img_format image = Some f -> In f ["BMP"; "TIFF"] ->
        validate_image_format image = inr tt
        /\ exists e, validate_image OPENAI_FORMATS OPENAI_MAX_MB image = inl e).
Proof.
  split.
  - intros e He refusal. unfold refusal. split.
    + unfold client_process_image. cbn [analyze_image OpenAIImageClient].
      unfold openai_analyze_image, openai_validate_image, now, new_uuid. run.
      rewrite He. reflexivity.
    + unfold analyze_with_custom_prompt, openai_validate_image, now, new_uuid.
      run. rewrite He. reflexivity.
  - intros f Hf Hin. unfold validate_image_format, validate_image. rewrite Hf.
    destruct Hin as [<-|[<-|[]]]; (split; [reflexivity | eexists; reflexivity]).
Qed.

Lemma openai_gate_precedes_remote_call_witness :
  let w := sample_world (fun _ => inr (png_image 1 1)) "A cat." in
  let bmp := mkImage (Some "BMP") 32 32 "RGB" false in
  let metadata := mkMetadata 32 32 "BMP" "RGB" 3126 None None in
  validate_image_format bmp = inr tt
  /\ history (@client_process_image w (OpenAIImageClient w) bmp metadata
                                    COMPREHENSIVE) []
     = [EvTime; EvTime; EvUuid4; EvTime]
  /\ exists r,
       outcome (analyze_with_custom_prompt w bmp metadata "Count the cars") []
       = inr r /\ success r = false.
Proof.
  intros w bmp metadata.
  destruct (openai_gate_precedes_remote_call w bmp metadata COMPREHENSIVE
              "Count the cars" []) as [Hgate Hformats].
  destruct (Hformats "BMP" eq_refl (or_introl eq_refl)) as [Hgeneric [e He]].
  destruct (Hgate e He) as [Hclient Hcustom].
  split; [exact Hgeneric|]. unfold history, outcome.
  rewrite Hclient, Hcustom. split; [reflexivity|].
  eexists. split; reflexivity.
Defined.

(** X4: for an analysis kind the client has no method for (the four UI
    kinds), an accepted image gives a success envelope whose analysis holds
    no description, no object and no text; no request is sent. *)
Theorem ui_kinds_give_empty_success (w : World) (image : Image)
    (image_metadata : Metadata) (analysis_type : AnalysisType) (l : log) :
  analysis_in analysis_type [DESCRIPTION; TEXT; OBJECTS; COMPREHENSIVE] = false ->
  validate_image OPENAI_FORMATS OPENAI_MAX_MB image = inr tt ->
  @client_process_image w (OpenAIImageClient w) image image_metadata
                        analysis_type l
  = (EvTime :: EvTime :: EvUuid4 :: EvTime :: l,
     inr (mkProcessingResult true OPENAI
            (Some (mkImageAnalysis None [] []
                     (Some (metadata_of image_metadata
                              (PrimFloat.sub
                                 (time_time w (EvUuid4 :: EvTime :: l))
                                 (time_time w l))
                              OPENAI))))
            None (Some (uuid4 w (EvTime :: l)))
            (time_time w (EvTime :: EvUuid4 :: EvTime :: l)))).
Proof.
  intros Hkind Hvalid. unfold client_process_image.
  cbn [analyze_image client_provider OpenAIImageClient].
  unfold openai_analyze_image, openai_validate_image, now, new_uuid. run.
  rewrite Hvalid.
  destruct analysis_type; try discriminate Hkind; reflexivity.
Qed.

Lemma ui_kinds_give_empty_success_witness :
  let w := sample_world (fun _ => inr (png_image 1 1)) "A cat." in
  exists r,
    outcome (@client_process_image w (OpenAIImageClient w) (png_image 32 32)
               (mkMetadata 32 32 "PNG" "RGB" 100 None None) UX_ISSUES) []
    = inr r
    /\ success r = true
    /\ option_map ia_description (analysis r) = Some None.
Proof.
  intros w. eexists. unfold outcome.
  rewrite (ui_kinds_give_empty_success w (png_image 32 32)
             (mkMetadata 32 32 "PNG" "RGB" 100 None None) UX_ISSUES []).
  - repeat split.
  - reflexivity.
  - vm_compute. reflexivity.
Defined.

(** ** Custom prompts *)

Lemma image_to_base64_emits (w : World) (image : Image) (format : string)
    (P : event -> bool) :
  P (EvImageSave format) = true -> emits (image_to_base64 w image format) P.
Proof.
  intros HP l. exists [EvImageSave format]. unfold history.
  rewrite image_to_base64_run. split; [reflexivity|]. cbn. now rewrite HP.
Qed.

Lemma make_api_call_reply_source (w : World) (req : ChatRequest) :
  ensures (_make_api_call w req)
    (fun content =>
       content <> ""
       /\ exists h rest,
            chat_completions_create w h req = inr (Some content :: rest)).
Proof.
  assert (Honce : ensures (api_call_once w req)
            (fun content =>
               content <> ""
               /\ exists h rest,
                    chat_completions_create w h req
                    = inr (Some content :: rest))).
  { intros l l' content E.
    assert (Hout : outcome (api_call_once w req) l = inr content)
      by (unfold outcome; now rewrite E).
    apply api_call_once_reply in Hout as [Hne [rest Hrest]].
    split; [exact Hne|]. now exists l, rest. }
  unfold _make_api_call. cbn [retry].
  apply ensures_try_except; [exact Honce|]. intros _.
  apply ensures_try_except; [exact Honce|]. intros _. exact Honce.
Qed.

Lemma ensures_outcome {A} (m : M A) :
  ensures m (fun a => exists h, outcome m h = inr a).
Proof. intros l l' a E. exists l. unfold outcome. now rewrite E. Qed.

(** X5: [analyze_with_custom_prompt] sends the caller's prompt and nothing
    else: every request carries it, and apart from requests only the
    encoder, the clock and the identifier source are called.  On success the
    description is the reply of the model: the content, not empty, of the
    first choice of an answer to a request made of the caller's prompt and
    the data URL of the image, the very string [_make_api_call] returned;
    there are no objects and no text, and the metadata are those of the
    image handed in. *)
Theorem custom_prompt_result (w : World) (image : Image)
    (image_metadata : Metadata) (custom_prompt : string) :
  emits (analyze_with_custom_prompt w image image_metadata custom_prompt)
        (fun ev =>
           match ev with
           | EvChatCompletion req => String.eqb (req_text req) custom_prompt
           | EvImageSave _ | EvTime | EvUuid4 => true
           | _ => false
           end)
  /\ ensures (analyze_with_custom_prompt w image image_metadata custom_prompt)
       (fun r =>
          provider r = OPENAI
          /\ (success r = true ->
              exists reply url h0 h rest elapsed,
                outcome (image_to_base64 w image "JPEG") h0 = inr url
                /\ chat_completions_create w h (mkChatRequest custom_prompt url)
                   = inr (Some reply :: rest)
                /\ reply <> ""
                /\ analysis r
                   = Some (mkImageAnalysis (Some reply) [] []
                             (Some (mkImageMetadata
                                      (md_width image_metadata)
                                      (md_height image_metadata)
                                      (md_format image_metadata)
                                      (Some (md_size_bytes image_metadata))
                                      elapsed OPENAI)))))
  /\ (forall (l l1 l2 : log) (url reply : string),
        validate_image OPENAI_FORMATS OPENAI_MAX_MB image = inr tt ->
        image_to_base64 w image "JPEG" (EvUuid4 :: EvTime :: l)
        = (l1, inr url) ->
        _make_api_call w (mkChatRequest custom_prompt url) l1
        = (l2, inr reply) ->
        analyze_with_custom_prompt w image image_metadata custom_prompt l
        = (EvTime :: EvTime :: l2,
           inr (mkProcessingResult true OPENAI
                  (Some (mkImageAnalysis (Some reply) [] []
                           (Some (metadata_of image_metadata
                                    (PrimFloat.sub (time_time w l2)
                                                   (time_time w l))
                                    OPENAI))))
                  None (Some (uuid4 w (EvTime :: l)))
                  (time_time w (EvTime :: l2))))).
Proof.
  split; [|split].
  - unfold analyze_with_custom_prompt.
    apply emits_bind; [now apply emits_now|]. intros start.
    apply emits_bind; [now apply emits_new_uuid|]. intros rid.
    apply emits_try_except.
    + apply emits_bind; [apply emits_lift|]. intros _.
      apply emits_bind; [now apply image_to_base64_emits|]. intros image_data.
      apply emits_bind.
      { apply make_api_call_emits. cbn. apply String.eqb_refl. }
      intros response.
      apply emits_bind; [now apply emits_now|]. intros finish.
      apply emits_bind; [now apply emits_now|]. intros stamp. apply emits_ret.
    + intros e. apply emits_bind; [now apply emits_now|]. intros _.
      apply emits_bind; [now apply emits_now|]. intros stamp. apply emits_ret.
  - unfold analyze_with_custom_prompt.
    apply ensures_then. intros start. apply ensures_then. intros rid.
    apply ensures_try_except.
    + apply ensures_then. intros _.
      apply (ensures_bind _ _ _ _ (ensures_outcome _)). intros url [h0 Hurl].
      apply (ensures_bind _ _ _ _ (make_api_call_reply_source w _)).
      intros response (Hresponse & h & rest & Hanswer).
      apply ensures_then. intros finish. apply ensures_then. intros stamp.
      apply ensures_ret. split; [reflexivity|]. intros _.
      exists response, url, h0, h, rest, (PrimFloat.sub finish start).
      now repeat split.
    + intros e. apply ensures_then. intros _. apply ensures_then. intros stamp.
      apply ensures_ret. split; [reflexivity | discriminate].
  - intros l l1 l2 url reply Hgate Hurl Hreply.
    unfold analyze_with_custom_prompt, openai_validate_image, now, new_uuid.
    run. rewrite Hgate, Hurl, Hreply. reflexivity.
Qed.

Lemma custom_prompt_result_witness :
  let w := sample_world (fun _ => inr (png_image 1 1)) "Three cars." in
  exists r,
    outcome (analyze_with_custom_prompt w (png_image 32 32)
               (mkMetadata 32 32 "PNG" "RGB" 100 None None) "Count the cars") []
    = inr r
    /\ success r = true
    /\ option_map ia_description (analysis r) = Some (Some "Three cars.")
    /\ option_map ia_objects (analysis r) = Some [].
Proof.
  intros w.
  destruct (custom_prompt_result w (png_image 32 32)
              (mkMetadata 32 32 "PNG" "RGB" 100 None None) "Count the cars")
    as (_ & _ & Hrun).
  assert (Hgate : validate_image OPENAI_FORMATS OPENAI_MAX_MB (png_image 32 32)
                  = inr tt) by (vm_compute; reflexivity).
  destruct (image_to_base64 w (png_image 32 32) "JPEG" [EvUuid4; EvTime])
    as [l1 [e|url]] eqn:Eurl; [vm_compute in Eurl; discriminate Eurl|].
  destruct (_make_api_call w (mkChatRequest "Count the cars" url) l1)
    as [l2 [e|reply]] eqn:Ereply.
  - exfalso. vm_compute in Eurl. injection Eurl as <- <-.
    vm_compute in Ereply. discriminate Ereply.
  - eexists. unfold outcome.
    rewrite (Hrun [] l1 l2 url reply Hgate Eurl Ereply). cbn [snd].
    split; [reflexivity|]. split; [reflexivity|].
    vm_compute in Eurl. injection Eurl as <- <-.
    vm_compute in Ereply. injection Ereply as _ <-.
    split; reflexivity.
Defined.

(** ** server.py: failing fast *)

(** X6: with a valid provider and analysis kind but no key, neither given
    nor configured, [process_image] returns a failure envelope after drawing
    the identifier and reading the clock once: the image is not loaded and
    no request is sent. *)
Theorem process_image_without_key (w : World) (config : ServerConfig)
    (image_source : string) (api_provider api_key analysis_type prompt :
    option string) (ctx : option Context) (l : log)
    (p : APIProvider) (analysis_kind : AnalysisType) :
  requested_provider config api_provider = inr p ->
  requested_analysis analysis_type = inr analysis_kind ->
  truthy (get_api_key p config api_key) = false ->
  process_image w config image_source api_provider api_key analysis_type
                prompt ctx l
  = (EvTime :: EvUuid4 :: l,
     inr (mkProcessingResult false p None
            (Some (MCat [MStr "Unexpected error: ";
                         MCat [MStr "No API key available for provider: ";
                               MStr (APIProvider_value p)]]))
            (Some (uuid4 w l)) (time_time w (EvUuid4 :: l)))).
Proof.
  intros Hp Hkind Hkey.
  unfold process_image, error_envelope, effective_key, new_uuid, now. run.
  rewrite Hp, Hkind, Hkey. reflexivity.
Qed.

Lemma process_image_without_key_witness :
  let w := sample_world (fun _ => inr (png_image 1 1)) "A cat." in
  exists r,
    process_image w (sample_config None) "aGVsbG8=" None (Some "") None None
                  None []
    = ([EvTime; EvUuid4], inr r)
    /\ success r = false /\ provider r = OPENAI.
Proof.
  intros w. eexists.
  rewrite (process_image_without_key w (sample_config None) "aGVsbG8=" None
             (Some "") None None None [] OPENAI COMPREHENSIVE);
    try reflexivity.
  repeat split.
Defined.

(** X7: when the set-up of a batch fails (unknown provider or analysis
    kind, no key, or a provider without a client), the batch envelope is
    returned after two readings of the clock: no source is loaded, no
    notification is sent and no request is made, however many sources there
    are. *)
Theorem batch_setup_failure_touches_nothing (w : World) (config : ServerConfig)
    (image_sources : list string)
    (api_provider api_key analysis_type prompt : option string)
    (ctx : option Context) (l : log) (e : exn) :
  batch_setup w config api_provider api_key analysis_type = inl e ->
  analyze_image_batch w config image_sources api_provider api_key
                      analysis_type prompt ctx l
  = (EvTime :: EvTime :: l,
     inr (mkBatchProcessingResult (len image_sources) 0 (len image_sources) []
            (PrimFloat.sub (time_time w (EvTime :: l)) (time_time w l)))).
Proof.
  intros Hsetup. unfold analyze_image_batch, batch_body, now. run.
  rewrite Hsetup. reflexivity.
Qed.

Lemma batch_setup_failure_touches_nothing_witness :
  let w := sample_world (fun _ => inr (png_image 1 1)) "A cat." in
  history (analyze_image_batch w (sample_config (Some "key"))
             ["/tmp/a.png"; "/tmp/b.png"] (Some "anthropic") None None None
             (Some RequestContext)) []
  = [EvTime; EvTime].
Proof.
  intros w. unfold history.
  rewrite (batch_setup_failure_touches_nothing w (sample_config (Some "key"))
             ["/tmp/a.png"; "/tmp/b.png"] (Some "anthropic") None None None
             (Some RequestContext) []
             (Exn ValueError
                (MCat [MStr "No API key available for provider: ";
                       MStr "anthropic"]))).
  - reflexivity.
  - reflexivity.
Defined.

(** ** server.py: the provider and the analysis kind of a request *)

Lemma ensures_lift {A} (r : exn + A) : ensures (lift r) (fun a => r = inr a).
Proof. intros l l' a E. unfold lift in E. now injection E as _ ->. Qed.

Lemma create_api_client_openai (w : World) (p : APIProvider) (key : string)
    (client : BaseImageClient) :
  create_api_client w p key = inr client ->
  p = OPENAI /\ client = OpenAIImageClient w.
Proof.
  unfold create_api_client. destruct p; cbn; intros H; try discriminate H.
  now injection H as <-.
Qed.

Lemma client_process_image_provider (w : World) (client : BaseImageClient)
    (image : Image) (image_metadata : Metadata) (analysis_type : AnalysisType) :
  ensures (@client_process_image w client image image_metadata analysis_type)
          (fun r => provider r = @client_provider client).
Proof.
  unfold client_process_image.
  apply ensures_then. intros start. apply ensures_then. intros rid.
  apply ensures_try_except.
  - apply ensures_then. intros a. apply ensures_then. intros finish.
    apply ensures_then. intros stamp. now apply ensures_ret.
  - intros e. apply ensures_then. intros _. apply ensures_then. intros stamp.
    now apply ensures_ret.
Qed.

Lemma analyze_with_custom_prompt_provider (w : World) (image : Image)
    (image_metadata : Metadata) (custom_prompt : string) :
  ensures (analyze_with_custom_prompt w image image_metadata custom_prompt)
          (fun r => provider r = OPENAI).
Proof.
  unfold analyze_with_custom_prompt.
  apply ensures_then. intros start. apply ensures_then. intros rid.
  apply ensures_try_except.
  - apply ensures_then. intros _. apply ensures_then. intros image_data.
    apply ensures_then. intros response. apply ensures_then. intros finish.
    apply ensures_then. intros stamp. now apply ensures_ret.
  - intros e. apply ensures_then. intros _. apply ensures_then. intros stamp.
    now apply ensures_ret.
Qed.

(** X8: the envelope [process_image] returns names the provider the request
    asked for (or the default), and for every provider but OpenAI it reports
    a failure: no other provider has a client. *)
Theorem process_image_names_requested_provider (w : World)
    (config : ServerConfig) (image_source : string)
    (api_provider api_key analysis_type prompt : option string)
    (ctx : option Context) :
  ensures (process_image w config image_source api_provider api_key
                         analysis_type prompt ctx)
          (fun r =>
             requested_provider config api_provider = inr (provider r)
             /\ (provider r <> OPENAI -> success r = false)).
Proof.
  unfold process_image.
  apply ensures_then. intros rid. apply ensures_try_except.
  - apply (ensures_bind _ _ _ _ (ensures_lift _)). intros p Hp.
    apply ensures_then. intros kind. apply ensures_then. intros key.
    apply ensures_then. intros _. apply ensures_then. intros [image_data tag].
    apply ensures_then. intros [image metadata]. apply ensures_then. intros _.
    apply (ensures_bind _ _ _ _ (ensures_lift _)). intros client Hclient.
    apply create_api_client_openai in Hclient as [-> ->].
    apply (ensures_bind _ _ (fun r => provider r = OPENAI)).
    + unfold run_client. destruct (truthy prompt).
      * apply analyze_with_custom_prompt_provider.
      * apply (client_process_image_provider w (OpenAIImageClient w)).
    + intros result Hresult. apply ensures_then. intros _. apply ensures_ret.
      rewrite Hresult. split; [exact Hp | now intros H].
  - intros e.
    assert (H : forall text,
              ensures (error_envelope w config api_provider text rid)
                (fun r =>
                   requested_provider config api_provider = inr (provider r)
                   /\ (provider r <> OPENAI -> success r = false))).
    { intros text. unfold error_envelope.
      apply (ensures_bind _ _ _ _ (ensures_lift _)). intros p Hp.
      apply ensures_then. intros stamp. apply ensures_ret. now split. }
    destruct (is_image_error e); apply H.
Qed.

Lemma process_image_names_requested_provider_witness :
  let w := sample_world (fun _ => inr (png_image 1 1)) "A cat." in
  let config :=
    mkServerConfig OPENAI 10 30 3 60 (Some "k1") (Some "k2") None None None in
  exists l' r,
    process_image w config "aGVsbG8=" (Some "anthropic") None None None None []
    = (l', inr r)
    /\ provider r = ANTHROPIC /\ success r = false.
Proof.
  intros w config.
  destruct (process_image w config "aGVsbG8=" (Some "anthropic") None None None
              None []) as [l' [e|r]] eqn:E; [vm_compute in E; discriminate E|].
  exists l', r. split; [reflexivity|].
  destruct (process_image_names_requested_provider w config "aGVsbG8="
              (Some "anthropic") None None None None _ _ _ E) as [Hp Hfail].
  assert (Hreq : requested_provider config (Some "anthropic") = inr ANTHROPIC)
    by reflexivity.
  assert (Hr : provider r = ANTHROPIC) by congruence.
  split; [exact Hr|]. apply Hfail. rewrite Hr. discriminate.
Defined.

(** X9: a custom prompt overrides the analysis kind: with a prompt that is
    not empty, [process_image] does the same for any two valid kinds, so the
    tools [extract_text] and [detect_objects] coincide. *)
Theorem prompt_overrides_analysis_kind (w : World) (config : ServerConfig)
    (image_source : string) (api_provider api_key prompt : option string)
    (ctx : option Context) (l : log) :
  truthy prompt = true ->
  (forall first second k1 k2,
     requested_analysis first = inr k1 ->
     requested_analysis second = inr k2 ->
     process_image w config image_source api_provider api_key first prompt ctx l
     = process_image w config image_source api_provider api_key second prompt
                     ctx l)
  /\ tool_extract_text w config image_source api_provider api_key prompt ctx l
     = tool_detect_objects w config image_source api_provider api_key prompt
                           ctx l.
Proof.
  intros Hprompt.
  assert (H : forall first second k1 k2,
            requested_analysis first = inr k1 ->
            requested_analysis second = inr k2 ->
            process_image w config image_source api_provider api_key first
                          prompt ctx l
            = process_image w config image_source api_provider api_key second
                            prompt ctx l).
  { intros first second k1 k2 H1 H2. unfold process_image, run_client.
    rewrite H1, H2, Hprompt. reflexivity. }
  split; [exact H|].
  unfold tool_extract_text, tool_detect_objects.
  now apply (H _ _ TEXT OBJECTS).
Qed.

Lemma prompt_overrides_analysis_kind_witness :
  let w := sample_world (fun _ => inr (png_image 1 1)) "Two." in
  tool_extract_text w (sample_config (Some "key")) "aGVsbG8=" None None
                    (Some "Count the cars") None []
  = tool_detect_objects w (sample_config (Some "key")) "aGVsbG8=" None None
                        (Some "Count the cars") None [].
Proof.
  intros w.
  apply (prompt_overrides_analysis_kind w (sample_config (Some "key")) "aGVsbG8="
           None None (Some "Count the cars") None []).
  reflexivity.
Defined.

(** ** utils.py: what the loaders return and raise *)

(** X10: the URL loader returns bytes only for a response that is no error
    and declares a content type starting with [image/], and then the body
    unchanged; a response [raise_for_status] refuses becomes an
    [ImageLoadError] naming the status; whatever it raises is an
    [ImageLoadError], unless the HTTP client itself raised something that is
    neither a request error nor a status error, which passes through. *)
Theorem url_loader_outcomes (w : World) (url : string) (timeout : Z) (l : log) :
  (forall data,
     outcome (load_image_from_url w url timeout) l = inr data ->
     exists response content_type,
       httpx_get w l url timeout = inr response
       /\ resp_is_error response = false
       /\ resp_content_type response = Some content_type
       /\ startswith content_type "image/" = true
       /\ data = resp_content response)
  /\ (forall response,
        httpx_get w l url timeout = inr response ->
        resp_is_error response = true ->
        outcome (load_image_from_url w url timeout) l
        = inl (Exn ImageLoadError
                 (MCat [MStr "HTTP error loading image: ";
                        MInt (resp_status_code response)])))
  /\ (forall e,
        outcome (load_image_from_url w url timeout) l = inl e ->
        exn_cls e = ImageLoadError
        \/ (httpx_get w l url timeout = inl e
            /\ exn_cls e <> HttpxRequestError
            /\ forall code, exn_cls e <> HttpxHTTPStatusError code)).
Proof.
  unfold load_image_from_url. run.
  destruct (httpx_get w l url timeout) as [e0|response].
  - split; [|split].
    + intros data H. destruct (exn_cls e0); discriminate H.
    + intros response H. discriminate H.
    + intros e H. destruct (exn_cls e0) eqn:Hcls;
        try (injection H as <-; right;
             split; [reflexivity|]; rewrite Hcls; split; [|intros code];
             discriminate);
        injection H as <-; now left.
  - destruct (resp_is_error response) eqn:Herr.
    + split; [|split].
      * intros data H. discriminate H.
      * intros r Hr _. injection Hr as <-. reflexivity.
      * intros e H. injection H as <-. now left.
    + destruct (resp_content_type response) as [content_type|] eqn:Htype.
      * destruct (startswith content_type "image/") eqn:Hstart; cbn [negb];
          (split; [|split]).
        -- intros data H. injection H as <-.
           exists response, content_type. repeat split; assumption.
        -- intros r Hr Hr'. injection Hr as <-. congruence.
        -- intros e H. discriminate H.
        -- intros data H. discriminate H.
        -- intros r Hr Hr'. injection Hr as <-. congruence.
        -- intros e H. injection H as <-. now left.
      * split; [|split].
        -- intros data H. discriminate H.
        -- intros r Hr Hr'. injection Hr as <-. congruence.
        -- intros e H. injection H as <-. now left.
Qed.

Lemma url_loader_outcomes_witness :
  let w := sample_world (fun _ => inr (png_image 1 1)) "" in
  outcome (load_image_from_url w "https://example.com/a.png" 30) []
  = inl (Exn ImageLoadError
           (MCat [MStr "Failed to load image from URL: ";
                  MStr "connection refused"])).
Proof.
  intros w.
  destruct (url_loader_outcomes w "https://example.com/a.png" 30 [])
    as (_ & _ & Hraise).
  destruct (outcome (load_image_from_url w "https://example.com/a.png" 30) [])
    as [e|data] eqn:E; [|vm_compute in E; discriminate E].
  destruct (Hraise e eq_refl) as [_|(Hget & Hnot & _)].
  - vm_compute in E. now injection E as <-.
  - vm_compute in Hget. injection Hget as <-. now elim Hnot.
Defined.

Lemma load_image_from_file_raises (w : World) (file_path : string) (l : log)
    (e : exn) :
  outcome (load_image_from_file w file_path) l = inl e ->
  exn_cls e = ImageLoadError.
Proof.
  unfold load_image_from_file, outcome, try_except.
  destruct (bind _ _ l) as [l1 [e1|data]]; cbn; intros H;
    [now injection H as <- | discriminate H].
Qed.

(** X11: [load_image_data] calls nothing but the HTTP client and the file
    system; for a source that is not a URL it touches the file system at
    most, raises nothing but [ImageLoadError], and tags what it returns
    [base64] or [file]. *)
Theorem load_image_data_effects (w : World) (source : string) (timeout : Z)
    (l : log) :
  emits (load_image_data w source timeout) is_source_event
  /\ (is_url w source = false ->
      emits (load_image_data w source timeout) is_fs_event
      /\ (forall e,
            outcome (load_image_data w source timeout) l = inl e ->
            exn_cls e = ImageLoadError)
      /\ (forall data tag,
            outcome (load_image_data w source timeout) l = inr (data, tag) ->
            tag = "base64" \/ tag = "file")).
Proof.
  assert (Hfile : forall P : event -> bool,
            (forall ev, is_fs_event ev = true -> P ev = true) ->
            emits (load_image_from_file w source) P).
  { intros P HP h. destruct (load_image_from_file_history w source h)
      as (evs & Hevs & Hall).
    exists evs. split; [exact Hevs|]. rewrite forallb_forall in *.
    intros ev Hin. apply HP, Hall, Hin. }
  assert (Hb64 : forall P : event -> bool, emits (load_image_from_base64 source) P).
  { intros P h. exists []. unfold history.
    now rewrite load_image_from_base64_run. }
  split.
  - unfold load_image_data. destruct (is_url w source).
    + apply emits_bind; [|intros data; apply emits_ret].
      intros h. exists [EvHttpGet source timeout].
      now rewrite load_image_from_url_history.
    + destruct (is_base64_image source);
        (apply emits_bind; [|intros data; apply emits_ret]).
      * apply Hb64.
      * apply Hfile. now intros [].
  - intros Hurl. unfold load_image_data. rewrite Hurl. split; [|split].
    + destruct (is_base64_image source);
        (apply emits_bind; [|intros data; apply emits_ret]);
        [apply Hb64 | now apply Hfile].
    + intros e. destruct (is_base64_image source); unfold outcome, bind.
      * rewrite load_image_from_base64_run.
        destruct (b64decode_validate _); cbn; intros H;
          [now injection H as <- | discriminate H].
      * pose proof (load_image_from_file_raises w source l) as Hraise.
        unfold outcome in Hraise.
        destruct (load_image_from_file w source l) as [l1 [e1|data]]; cbn;
          intros H; [injection H as <-; now apply Hraise | discriminate H].
    + intros data tag. destruct (is_base64_image source); unfold outcome, bind.
      * destruct (load_image_from_base64 source l) as [l1 [e1|d]]; cbn;
          intros H; [discriminate H | injection H as _ <-; now left].
      * destruct (load_image_from_file w source l) as [l1 [e1|d]]; cbn;
          intros H; [discriminate H | injection H as _ <-; now right].
Qed.

Lemma load_image_data_effects_witness :
  let w := sample_world (fun _ => inr (png_image 1 1)) "" in
  exists e,
    outcome (load_image_data w "/tmp/missing.png" 30) [] = inl e
    /\ exn_cls e = ImageLoadError.
Proof.
  intros w.
  destruct (load_image_data_effects w "/tmp/missing.png" 30 [])
    as (_ & Hlocal).
  destruct (Hlocal eq_refl) as (_ & Hraise & _).
  destruct (outcome (load_image_data w "/tmp/missing.png" 30) [])
    as [e|loaded] eqn:E; [|vm_compute in E; discriminate E].
  exists e. split; [reflexivity | now apply Hraise].
Defined.

(** ** utils.py: normalization *)

(** X12: [validate_and_process_image] calls nothing but the codec, and
    whatever goes wrong inside it, a codec error included, leaves it as an
    [ImageValidationError] or [ImageLoadError]. *)
Theorem normalization_raises_image_errors (w : World) (image_data : bytes)
    (max_size_mb : float) (resize_if_needed : bool) (l : log) :
  emits (validate_and_process_image w image_data max_size_mb resize_if_needed)
        is_codec_event
  /\ (forall e,
        outcome (validate_and_process_image w image_data max_size_mb
                                            resize_if_needed) l = inl e ->
        is_image_error e = true)
  /\ (forall e,
        image_open w image_data = inl e -> is_image_error e = false ->
        validate_image_size image_data max_size_mb = inr tt ->
        outcome (validate_and_process_image w image_data max_size_mb
                                            resize_if_needed) l
        = inl (Exn ImageValidationError
                 (MCat [MStr "Failed to process image: "; str_exn e]))).
Proof.
  split; [|split].
  - unfold validate_and_process_image. apply emits_try_except.
    + apply emits_bind; [apply emits_lift|]. intros _.
      apply emits_bind; [now apply emits_call|]. intros image.
      apply emits_bind; [apply emits_lift|]. intros _.
      destruct resize_if_needed; [|apply emits_ret].
      destruct (_ || _); [|apply emits_ret].
      apply emits_bind; [apply emits_lift|]. intros rw.
      apply emits_bind; [apply emits_lift|]. intros rh.
      apply emits_bind; [apply emits_lift|]. intros nw.
      apply emits_bind; [apply emits_lift|]. intros nh.
      apply emits_bind; [unfold resize; now apply emits_call|]. intros resized.
      apply emits_ret.
    + intros e. destruct (is_image_error e); apply emits_raise.
  - intros e. unfold validate_and_process_image, outcome, try_except.
    destruct (bind _ _ l) as [l1 [e1|a]]; [|discriminate].
    destruct (is_image_error e1) eqn:He1; cbn; intros H; injection H as <-;
      [exact He1 | reflexivity].
  - intros e Hopen He Hsize. unfold validate_and_process_image. run.
    rewrite Hsize, Hopen, He. reflexivity.
Qed.

Lemma normalization_raises_image_errors_witness :
  let w := sample_world
             (fun _ => inl (Exn OtherException (MStr "cannot identify image file")))
             "" in
  outcome (validate_and_process_image w (bytes_lit "not an image") 10 true) []
  = inl (Exn ImageValidationError
           (MCat [MStr "Failed to process image: ";
                  MStr "cannot identify image file"])).
Proof.
  intros w.
  destruct (normalization_raises_image_errors w (bytes_lit "not an image") 10
              true []) as (_ & _ & Hwrap).
  apply (Hwrap (Exn OtherException (MStr "cannot identify image file")));
    [reflexivity | reflexivity | vm_compute; reflexivity].
Defined.

(** X13: an image no side of which exceeds 2048, or any image when resizing
    is switched off, comes back as decoded, with its format filled in: the
    codec is asked to open it and nothing more, the metadata carry its size,
    its mode, a format of the supported set and the length of the buffer,
    and no [resized] or [original_size] key. *)
Theorem small_images_are_returned_as_decoded (w : World) (image_data : bytes)
    (max_size_mb : float) (resize_if_needed : bool) (l l' : log)
    (image returned : Image) (metadata : Metadata) :
  image_open w image_data = inr image ->
  resize_if_needed = false
  \/ (img_width image <= max_dimension /\ img_height image <= max_dimension) ->
  validate_and_process_image w image_data max_size_mb resize_if_needed l
  = (l', inr (returned, metadata)) ->
  l' = EvImageOpen image_data :: l
  /\ returned = set_format image (md_format metadata)
  /\ In (md_format metadata) supported_formats
  /\ (forall f, img_format image = Some f -> md_format metadata = f)
  /\ md_width metadata = img_width image
  /\ md_height metadata = img_height image
  /\ md_mode metadata = img_mode image
  /\ md_size_bytes metadata = Z.of_nat (length image_data)
  /\ md_resized metadata = None
  /\ md_original_size metadata = None.
Proof.
  intros Hopen Hsmall. unfold validate_and_process_image. run.
  destruct (validate_image_size image_data max_size_mb) as [e|[]];
    [now destruct (is_image_error e)|].
  rewrite Hopen.
  set (format := match img_format image with
                 | Some f => f
                 | None => sniff_format image_data
                 end).
  destruct (validate_image_format (set_format image format)) as [e|[]] eqn:Hfmt;
    [now destruct (is_image_error e)|].
  assert (Hin : In format supported_formats).
  { apply validate_image_format_accepts in Hfmt as (f & Hf & Hin).
    cbn in Hf. now injection Hf as <-. }
  assert (Hgiven : forall f, img_format image = Some f -> format = f).
  { intros f Hf. unfold format. now rewrite Hf. }
  assert (Hskip :
            (if resize_if_needed
             then (max_dimension <? img_width (set_format image format))
                  || (max_dimension <? img_height (set_format image format))
             else false) = false).
  { destruct Hsmall as [->|[Hw Hh]]; [reflexivity|].
    destruct resize_if_needed; [|reflexivity]. cbn [set_format img_width img_height].
    apply orb_false_iff. split; apply Z.ltb_ge; assumption. }
  destruct resize_if_needed.
  - rewrite Hskip. intros H. injection H as <- <- <-. now repeat split.
  - intros H. injection H as <- <- <-. now repeat split.
Qed.

Lemma small_images_are_returned_as_decoded_witness :
  let w := sample_world (fun _ => inr (png_image 640 480)) "" in
  validate_and_process_image w [x89; x50] 10 true []
  = ([EvImageOpen [x89; x50]],
     inr (png_image 640 480, mkMetadata 640 480 "PNG" "RGB" 2 None None)).
Proof.
  intros w.
  destruct (validate_and_process_image w [x89; x50] 10 true [])
    as [l' [e|[returned metadata]]] eqn:E; [vm_compute in E; discriminate E|].
  destruct (small_images_are_returned_as_decoded w [x89; x50] 10 true [] l'
              (png_image 640 480) returned metadata)
    as (Hl & Hret & _ & Hfmt & Hw & Hh & Hmode & Hsize & Hres & Horig).
  - reflexivity.
  - right. split; discriminate.
  - exact E.
  - specialize (Hfmt "PNG" eq_refl).
    destruct metadata. cbn in *. subst. reflexivity.
Defined.

(** ** openai_client.py: what the coercion lets through *)

Lemma validated_confidence_in_range (w : World) (j : json) (c : float) :
  validated_confidence w j = inr c -> confidence_in_range c = true.
Proof.
  unfold validated_confidence.
  destruct (match j with
            | JFloat x => Some x
            | JInt n => Some (float_of_Z n)
            | _ => lax_float w j
            end) as [x|]; [|discriminate].
  destruct (confidence_in_range x) eqn:Hx; [|discriminate].
  intros H. now injection H as <-.
Qed.

Lemma coerce_items_in_range (w : World) {R} (key : string)
    (make : string -> float -> R) (confidence : R -> float) :
  (forall s c, confidence (make s c) = c) ->
  forall items rs,
    coerce_items w key make items = inr rs ->
    Forall (fun r => confidence_in_range (confidence r) = true) rs
    /\ (length rs <= length items)%nat.
Proof.
  intros Hmake. induction items as [|item rest IH]; intros rs.
  - cbn. intros H. injection H as <-. split; [constructor | reflexivity].
  - cbn [coerce_items].
    assert (Hskip : forall rs,
              match coerce_items w key make rest with
              | inl e => inl e
              | inr others => inr others
              end = inr rs ->
              Forall (fun r => confidence_in_range (confidence r) = true) rs
              /\ (length rs <= length (item :: rest))%nat).
    { intros rs0. destruct (coerce_items w key make rest) as [e|others];
        [discriminate|].
      intros H. injection H as <-. destruct (IH others eq_refl) as [H1 H2].
      split; [exact H1 | cbn; lia]. }
    assert (Hkeep : forall s c rs,
              confidence_in_range c = true ->
              match coerce_items w key make rest with
              | inl e => inl e
              | inr others => inr (make s c :: others)
              end = inr rs ->
              Forall (fun r => confidence_in_range (confidence r) = true) rs
              /\ (length rs <= length (item :: rest))%nat).
    { intros s c rs0 Hc. destruct (coerce_items w key make rest) as [e|others];
        [discriminate|].
      intros H. injection H as <-. destruct (IH others eq_refl) as [H1 H2].
      split; [constructor; [now rewrite Hmake | exact H1] | cbn; lia]. }
    destruct item as [| | | |s| |fields]; try apply Hskip.
    + now apply Hkeep.
    + destruct (dict_get fields key) as [v|]; [|apply Hskip].
      destruct (validated_str v) as [e|s]; [discriminate|].
      destruct (confidence_of w fields) as [e|c] eqn:Hc; [discriminate|].
      apply Hkeep. unfold confidence_of in Hc.
      destruct (dict_get fields "confidence") as [j|].
      * now apply validated_confidence_in_range in Hc.
      * now injection Hc as <-.
Qed.

Lemma coerced_objects_in_range (w : World) (response : string)
    (objects : list DetectedObject) :
  objects_of_response w response = inr objects ->
  Forall (fun o => confidence_in_range (do_confidence o) = true) objects.
Proof.
  assert (Hheur : forall text,
            Forall (fun o => confidence_in_range (do_confidence o) = true)
                   (_extract_objects_from_text text)).
  { intros text. rewrite extract_objects_spec. apply Forall_forall.
    intros o Ho. apply in_map_iff in Ho as (name & <- & _). reflexivity. }
  unfold objects_of_response.
  destruct (json_loads w response) as [e|v].
  - destruct (exn_cls e); try discriminate. intros H. injection H as <-. apply Hheur.
  - destruct v; try (intros H; injection H as <-; apply Hheur).
    intros H.
    now apply (coerce_items_in_range w "name" mkDetectedObject do_confidence)
      in H as [H _].
Qed.

Lemma coerced_texts_in_range (w : World) (response : string)
    (texts : list ExtractedText) :
  text_of_response w response = inr texts ->
  Forall (fun t => confidence_in_range (et_confidence t) = true) texts.
Proof.
  assert (Hwhole : forall text,
            Forall (fun t => confidence_in_range (et_confidence t) = true)
                   [mkExtractedText text 0.8%float]).
  { intros text. constructor; [reflexivity | constructor]. }
  unfold text_of_response.
  destruct (json_loads w response) as [e|v].
  - destruct (exn_cls e); try discriminate. intros H. injection H as <-. apply Hwhole.
  - destruct v; try (intros H; injection H as <-; apply Hwhole).
    intros H.
    now apply (coerce_items_in_range w "content" mkExtractedText et_confidence)
      in H as [H _].
Qed.

(** X14: every record the coercion of a reply returns, for objects and for
    text, from the parsed list or from the fall-back, has a confidence
    within [0, 1]; a parsed list never yields more records than it has
    elements. *)
Theorem coerced_confidences_in_range (w : World) (response : string) :
  (forall objects,
     objects_of_response w response = inr objects ->
     Forall (fun o => confidence_in_range (do_confidence o) = true) objects)
  /\ (forall texts,
        text_of_response w response = inr texts ->
        Forall (fun t => confidence_in_range (et_confidence t) = true) texts)
  /\ (forall items objects texts,
        json_loads w response = inr (JList items) ->
        objects_of_response w response = inr objects ->
        text_of_response w response = inr texts ->
        (length objects <= length items)%nat
        /\ (length texts <= length items)%nat).
Proof.
  split; [|split].
  - intros objects. apply coerced_objects_in_range.
  - intros texts. apply coerced_texts_in_range.
  - intros items objects texts Hparse. unfold objects_of_response, text_of_response.
    rewrite Hparse. intros Ho Ht.
    apply (coerce_items_in_range w "name" mkDetectedObject do_confidence) in Ho;
      [|reflexivity].
    apply (coerce_items_in_range w "content" mkExtractedText et_confidence) in Ht;
      [|reflexivity].
    split; [apply Ho | apply Ht].
Qed.

Lemma coerced_confidences_in_range_witness :
  let w := sample_world (fun _ => inr (png_image 1 1)) "" in
  Forall (fun o => confidence_in_range (do_confidence o) = true)
         [mkDetectedObject "cat" 0.9%float].
Proof.
  intros w.
  destruct (coerced_confidences_in_range w CAT_JSON) as (Hobjects & _).
  apply Hobjects. vm_compute. reflexivity.
Defined.

(** ** base.py and openai_client.py: what a successful analysis holds *)

Lemma ask_reply (w : World) (image : Image) (prompt : string) :
  ensures (ask w image prompt) (fun content => content <> "").
Proof.
  unfold ask. apply ensures_then. intros _. apply ensures_then. intros image_data.
  apply make_api_call_reply.
Qed.

Lemma ensures_lift_value {A} (r : exn + A) (P : A -> Prop) :
  (forall a, r = inr a -> P a) -> ensures (lift r) P.
Proof.
  intros H l l' a. unfold lift. destruct r as [e|a0]; [discriminate|].
  intros E. injection E as _ <-. now apply H.
Qed.

Lemma openai_result_fields (w : World) (image : Image)
    (image_metadata : Metadata) (analysis_type : AnalysisType) :
  ensures (@client_process_image w (OpenAIImageClient w) image image_metadata
                                 analysis_type)
    (fun r => forall a, analysis r = Some a ->
       (ia_description a <> None
        <-> analysis_in analysis_type [DESCRIPTION; COMPREHENSIVE] = true)
       /\ ia_description a <> Some ""
       /\ (analysis_in analysis_type [TEXT; COMPREHENSIVE] = false ->
           ia_text a = [])
       /\ (analysis_in analysis_type [OBJECTS; COMPREHENSIVE] = false ->
           ia_objects a = [])
       /\ Forall (fun t => confidence_in_range (et_confidence t) = true)
                 (ia_text a)
       /\ Forall (fun o => confidence_in_range (do_confidence o) = true)
                 (ia_objects a)
       /\ (exists elapsed,
             ia_metadata a = Some (metadata_of image_metadata elapsed OPENAI))).
Proof.
  set (good := fun a : ImageAnalysis =>
    (ia_description a <> None
     <-> analysis_in analysis_type [DESCRIPTION; COMPREHENSIVE] = true)
    /\ ia_description a <> Some ""
    /\ (analysis_in analysis_type [TEXT; COMPREHENSIVE] = false -> ia_text a = [])
    /\ (analysis_in analysis_type [OBJECTS; COMPREHENSIVE] = false ->
        ia_objects a = [])
    /\ Forall (fun t => confidence_in_range (et_confidence t) = true) (ia_text a)
    /\ Forall (fun o => confidence_in_range (do_confidence o) = true)
              (ia_objects a)).
  assert (Hanalyze : ensures (openai_analyze_image w image analysis_type) good).
  { unfold openai_analyze_image. apply ensures_then. intros _.
    apply (ensures_bind _ _
             (fun d => (d <> None
                        <-> analysis_in analysis_type [DESCRIPTION; COMPREHENSIVE]
                            = true)
                       /\ d <> Some "")).
    { destruct (analysis_in analysis_type [DESCRIPTION; COMPREHENSIVE]).
      - apply (ensures_bind _ _ (fun d => d <> "")); [apply ask_reply|].
        intros d Hd. apply ensures_ret. split; [split; [reflexivity | discriminate]|].
        intros H. now injection H.
      - apply ensures_ret. split; [split; [now intros [] | discriminate]|].
        discriminate. }
    intros d [Hd1 Hd2].
    apply (ensures_bind _ _
             (fun ts => (analysis_in analysis_type [TEXT; COMPREHENSIVE] = false ->
                         ts = [])
                        /\ Forall (fun t => confidence_in_range (et_confidence t)
                                            = true) ts)).
    { destruct (analysis_in analysis_type [TEXT; COMPREHENSIVE]).
      - unfold openai_extract_text. apply ensures_then. intros response.
        apply ensures_lift_value. intros ts Hts. split; [discriminate|].
        now apply (coerced_texts_in_range w response).
      - apply ensures_ret. split; [reflexivity | constructor]. }
    intros ts [Ht1 Ht2].
    apply (ensures_bind _ _
             (fun os => (analysis_in analysis_type [OBJECTS; COMPREHENSIVE] = false ->
                         os = [])
                        /\ Forall (fun o => confidence_in_range (do_confidence o)
                                            = true) os)).
    { destruct (analysis_in analysis_type [OBJECTS; COMPREHENSIVE]).
      - unfold openai_detect_objects. apply ensures_then. intros response.
        apply ensures_lift_value. intros os Hos. split; [discriminate|].
        now apply (coerced_objects_in_range w response).
      - apply ensures_ret. split; [reflexivity | constructor]. }
    intros os [Ho1 Ho2]. apply ensures_ret. unfold good. cbn.
    exact (conj Hd1 (conj Hd2 (conj Ht1 (conj Ho1 (conj Ht2 Ho2))))). }
  unfold client_process_image. apply ensures_then. intros start_time.
  apply ensures_then. intros rid. apply ensures_try_except.
  - apply (ensures_bind _ _ good); [exact Hanalyze|]. intros a0 Ha0.
    apply ensures_then. intros finish. apply ensures_then. intros stamp.
    apply ensures_ret. cbn. intros a1 H1. injection H1 as <-.
    destruct Ha0 as (H1 & H2 & H3 & H4 & H5 & H6). cbn.
    refine (conj H1 (conj H2 (conj H3 (conj H4 (conj H5 (conj H6 _)))))).
    eexists. reflexivity.
  - intros e. apply ensures_then. intros _. apply ensures_then. intros stamp.
    apply ensures_ret. cbn. discriminate.
Qed.

(** X15: the analysis of a successful result of the OpenAI client holds what
    the requested kind asks for and nothing else: a description, never
    empty, exactly for [description] and [comprehensive]; no text unless
    [text] or [comprehensive] was asked, no objects unless [objects] or
    [comprehensive] was; every confidence within [0, 1]; and the metadata of
    the normalized image under the provider's name. *)
Theorem analysis_holds_what_was_asked (w : World) (image : Image)
    (image_metadata : Metadata) (analysis_type : AnalysisType) (l l' : log)
    (r : ProcessingResult) (a : ImageAnalysis) :
  @client_process_image w (OpenAIImageClient w) image image_metadata
                        analysis_type l = (l', inr r) ->
  analysis r = Some a ->
  (ia_description a <> None
   <-> analysis_in analysis_type [DESCRIPTION; COMPREHENSIVE] = true)
  /\ ia_description a <> Some ""
  /\ (analysis_in analysis_type [TEXT; COMPREHENSIVE] = false -> ia_text a = [])
  /\ (analysis_in analysis_type [OBJECTS; COMPREHENSIVE] = false ->
      ia_objects a = [])
  /\ Forall (fun t => confidence_in_range (et_confidence t) = true) (ia_text a)
  /\ Forall (fun o => confidence_in_range (do_confidence o) = true)
            (ia_objects a)
  /\ (exists elapsed,
        ia_metadata a = Some (metadata_of image_metadata elapsed OPENAI)).
Proof.
  intros E Ha.
  exact (openai_result_fields w image image_metadata analysis_type l l' r E a Ha).
Qed.

Lemma analysis_holds_what_was_asked_witness :
  let w := sample_world (fun _ => inr (png_image 1 1)) CAT_JSON in
  exists r a,
    outcome (@client_process_image w (OpenAIImageClient w) (png_image 32 32)
               (mkMetadata 32 32 "PNG" "RGB" 100 None None) OBJECTS) []
    = inr r
    /\ analysis r = Some a
    /\ ia_description a <> Some ""
    /\ ia_text a = [].
Proof.
  intros w. unfold outcome.
  destruct (@client_process_image w (OpenAIImageClient w) (png_image 32 32)
              (mkMetadata 32 32 "PNG" "RGB" 100 None None) OBJECTS [])
    as [l' [e|r]] eqn:E.
  - vm_compute in E. discriminate E.
  - destruct (analysis r) as [a|] eqn:Ha.
    + exists r, a.
      destruct (analysis_holds_what_was_asked w (png_image 32 32)
                  (mkMetadata 32 32 "PNG" "RGB" 100 None None) OBJECTS [] l' r a
                  E Ha) as (_ & Hd & Ht & _).
      cbn [snd].
      split; [reflexivity|]. split; [exact Ha|]. split; [exact Hd|].
      apply Ht. reflexivity.
    + vm_compute in E. injection E as _ <-. discriminate Ha.
Defined.

(** ** server.py: what the two one-kind tools return *)

(** X16: without a prompt, a successful envelope of the tool [extract_text]
    holds no description and no objects, and one of [detect_objects] no
    description and no text; the records it does hold have confidences
    within [0, 1]. *)
Theorem one_kind_tools_return_their_kind (w : World) (config : ServerConfig)
    (image_source : string) (api_provider api_key prompt : option string)
    (ctx : option Context) :
  truthy prompt = false ->
  ensures (tool_extract_text w config image_source api_provider api_key prompt
                             ctx)
    (fun r => forall a, analysis r = Some a ->
       ia_description a = None /\ ia_objects a = []
       /\ Forall (fun t => confidence_in_range (et_confidence t) = true)
                 (ia_text a))
  /\ ensures (tool_detect_objects w config image_source api_provider api_key
                                  prompt ctx)
       (fun r => forall a, analysis r = Some a ->
          ia_description a = None /\ ia_text a = []
          /\ Forall (fun o => confidence_in_range (do_confidence o) = true)
                    (ia_objects a)).
Proof.
  intros Hprompt.
  assert (Hkind : forall (kind : AnalysisType) (P : ProcessingResult -> Prop),
            (forall r, analysis r = None -> P r) ->
            (forall image metadata,
               ensures (@client_process_image w (OpenAIImageClient w) image
                          metadata kind) P) ->
            ensures (process_image w config image_source api_provider api_key
                       (Some (AnalysisType_value kind)) prompt ctx) P).
  { intros kind P Hnone Hclient. unfold process_image.
    apply ensures_then. intros rid. apply ensures_try_except.
    - apply ensures_then. intros p.
      apply (ensures_bind _ _ _ _ (ensures_lift _)). intros kind' Hkind'.
      assert (kind' = kind) as ->.
      { destruct kind; cbn in Hkind'; now injection Hkind' as <-. }
      apply ensures_then. intros key.
      apply ensures_then. intros _. apply ensures_then. intros [image_data tag].
      apply ensures_then. intros [image metadata]. apply ensures_then. intros _.
      apply (ensures_bind _ _ _ _ (ensures_lift _)). intros client Hcreated.
      apply create_api_client_openai in Hcreated as [-> ->].
      apply (ensures_bind _ _ P).
      + unfold run_client. rewrite Hprompt. apply Hclient.
      + intros result Hresult. apply ensures_then. intros _.
        now apply ensures_ret.
    - intros e.
      assert (H : forall text,
                ensures (error_envelope w config api_provider text rid) P).
      { intros text. unfold error_envelope. apply ensures_then. intros p.
        apply ensures_then. intros stamp. apply ensures_ret. now apply Hnone. }
      destruct (is_image_error e); apply H. }
  split.
  - unfold tool_extract_text. apply Hkind.
    + intros r Hr a Ha. congruence.
    + intros image metadata l l' r E a Ha.
      destruct (openai_result_fields w image metadata TEXT l l' r E a Ha)
        as (Hd & _ & _ & Ho & Ht & _).
      split; [|split; [now apply Ho | exact Ht]].
      destruct (ia_description a); [|reflexivity].
      assert (Hcontra : analysis_in TEXT [DESCRIPTION; COMPREHENSIVE] = true)
        by (apply Hd; discriminate).
      discriminate Hcontra.
  - unfold tool_detect_objects. apply Hkind.
    + intros r Hr a Ha. congruence.
    + intros image metadata l l' r E a Ha.
      destruct (openai_result_fields w image metadata OBJECTS l l' r E a Ha)
        as (Hd & _ & Ht & _ & _ & Ho & _).
      split; [|split; [now apply Ht | exact Ho]].
      destruct (ia_description a); [|reflexivity].
      assert (Hcontra : analysis_in OBJECTS [DESCRIPTION; COMPREHENSIVE] = true)
        by (apply Hd; discriminate).
      discriminate Hcontra.
Qed.

Lemma one_kind_tools_return_their_kind_witness :
  let w := sample_world (fun _ => inr (png_image 32 32)) CAT_JSON in
  let config := sample_config (Some "sk-test") in
  exists r a,
    outcome (tool_detect_objects w config "data:image/png;base64,QUJD" None None
                                 None None) []
    = inr r
    /\ analysis r = Some a
    /\ ia_objects a = [mkDetectedObject "cat" 0.9%float]
    /\ ia_description a = None
    /\ ia_text a = [].
Proof.
  intros w config. unfold outcome.
  destruct (tool_detect_objects w config "data:image/png;base64,QUJD" None None
                                None None [])
    as [l' [e|r]] eqn:E.
  - vm_compute in E. discriminate E.
  - destruct (analysis r) as [a|] eqn:Ha.
    + exists r, a.
      destruct (one_kind_tools_return_their_kind w config
                  "data:image/png;base64,QUJD" None None None None eq_refl)
        as [_ Hobjects].
      destruct (Hobjects [] l' r E a Ha) as (Hd & Ht & _).
      cbn [snd].
      split; [reflexivity|]. split; [exact Ha|].
      split; [|split; [exact Hd | exact Ht]].
      vm_compute in E. injection E as _ <-. cbn in Ha. now injection Ha as <-.
    + vm_compute in E. injection E as _ <-. discriminate Ha.
Defined.

(** ** utils.py: the classifier and the loader of inline data *)

Lemma str_in_comma (s : string) :
  str_in "," s = true -> In ","%char (list_ascii_of_string s).
Proof.
  induction s as [|c rest IH]; cbn [str_in startswith list_ascii_of_string].
  - discriminate.
  - intros H. apply orb_true_iff in H as [H|H].
    + apply andb_true_iff in H as [H _]. apply Ascii.eqb_eq in H. now left.
    + right. now apply IH.
Qed.

(** X17: for a source that does not begin with [data:image/], the
    classifier looks at what follows the first comma and the loader at the
    whole string.  So a source with a comma that is classified as inline
    data is never loaded: [load_image_data] raises an [ImageLoadError]
    without touching the file system or the network; a source without a
    comma that is classified as inline data is loaded and gives at least one
    byte. *)
Theorem inline_data_with_comma_is_never_loaded (w : World) (source : string)
    (timeout : Z) (l : log) :
  is_url w source = false ->
  startswith source "data:image/" = false ->
  is_base64_image source = true ->
  (str_in "," source = true ->
   exists e,
     load_image_data w source timeout l
     = (l, inl (Exn ImageLoadError
                  (MCat [MStr "Failed to decode base64 image data: ";
                         str_exn e]))))
  /\ (str_in "," source = false ->
      exists data,
        load_image_data w source timeout l = (l, inr (data, "base64"))
        /\ data <> []).
Proof.
  intros Hurl Hprefix Hinline.
  assert (Hpayload : base64_payload source = source).
  { unfold base64_payload. now rewrite Hprefix. }
  unfold load_image_data. rewrite Hurl, Hinline. unfold bind.
  rewrite load_image_from_base64_run, Hpayload. split.
  - intros Hcomma.
    destruct (b64decode_rejects_invalid source ","%char) as [e He];
      [now apply str_in_comma | reflexivity | discriminate|].
    exists e. now rewrite He.
  - intros Hcomma. unfold is_base64_image in Hinline.
    rewrite Hprefix, Hcomma in Hinline.
    destruct (b64decode_validate source) as [e|decoded]; [discriminate|].
    exists decoded. split; [reflexivity|]. now destruct decoded.
Qed.

Lemma inline_data_with_comma_is_never_loaded_witness :
  let w := sample_world (fun _ => inr (png_image 1 1)) "" in
  is_base64_image "x,QUJD" = true
  /\ exists e,
       load_image_data w "x,QUJD" 30 []
       = ([], inl (Exn ImageLoadError
                     (MCat [MStr "Failed to decode base64 image data: ";
                            str_exn e]))).
Proof.
  intros w. split; [vm_compute; reflexivity|].
  destruct (inline_data_with_comma_is_never_loaded w "x,QUJD" 30 [])
    as [Hcomma _]; [vm_compute; reflexivity | reflexivity
                    | vm_compute; reflexivity |].
  apply Hcomma. reflexivity.
Defined.

(** ** openai_client.py: the names of the fall-back *)














(** ** config.py: the providers reported as supported *)

Lemma validate_api_key_spec (p : APIProvider) (api_key : option string) :
  validate_api_key p api_key = true
  <-> exists k, api_key = Some k /\ strip k <> "".
Proof.
  unfold validate_api_key, truthy. destruct api_key as [k|]; cbn.
  - destruct (String.eqb k "") eqn:Hk; cbn.
    + apply String.eqb_eq in Hk. subst k. split; [discriminate|].
      intros (k & Hk & Hstrip). injection Hk as <-. now elim Hstrip.
    + split.
      * intros Hlen. exists k. split; [reflexivity|]. intros Hempty.
        rewrite Hempty in Hlen. discriminate Hlen.
      * intros (k' & Hk' & Hstrip). injection Hk' as <-.
        destruct (strip k); [now elim Hstrip | reflexivity].
  - split; [discriminate|]. now intros (k & Hk & _).
Qed.

(** X19: [get_supported_providers] lists a provider exactly when the key
    configured for it has a character that is not white space; it lists each
    provider once.  A listed provider always passes the key check of the
    tools, but the tools also accept a key made of blanks, which is not
    listed; and a listed provider other than OpenAI still has no client. *)
Theorem supported_providers_have_keys (w : World) (config : ServerConfig)
    (p : APIProvider) :
  (In p (get_supported_providers config)
   <-> exists k, get_api_key p config None = Some k /\ strip k <> "")
  /\ NoDup (get_supported_providers config)
  /\ (In p (get_supported_providers config) ->
      exists key, effective_key config p None = inr key /\ key <> "")
  /\ (forall k,
        get_api_key p config None = Some k -> k <> "" -> strip k = "" ->
        effective_key config p None = inr k
        /\ ~ In p (get_supported_providers config))
  /\ (forall key,
        p <> OPENAI ->
        create_api_client w p key
        = inl (Exn ValueError (MCat [MStr "Unsupported API provider: ";
                                     MStr (APIProvider_value p)]))).
Proof.
  assert (Hlisted : In p (get_supported_providers config)
                    <-> exists k, get_api_key p config None = Some k
                                  /\ strip k <> "").
  { unfold get_supported_providers. rewrite filter_In, validate_api_key_spec.
    split; [now intros [_ H]|]. intros H. split; [|exact H].
    destruct p; cbn; tauto. }
  split; [exact Hlisted|]. split; [|split; [|split]].
  - unfold get_supported_providers. apply NoDup_filter.
    repeat constructor; cbn; intuition discriminate.
  - intros Hin. apply Hlisted in Hin as (k & Hk & Hstrip).
    exists k. unfold effective_key. rewrite Hk. cbn.
    destruct (String.eqb k "") eqn:Hempty.
    + apply String.eqb_eq in Hempty. subst k. now elim Hstrip.
    + split; [reflexivity|]. intros ->. now elim Hstrip.
  - intros k Hk Hne Hstrip. split.
    + unfold effective_key. rewrite Hk. cbn.
      destruct (String.eqb k "") eqn:Hempty; [|reflexivity].
      apply String.eqb_eq in Hempty. now elim Hne.
    + intros Hin. apply Hlisted in Hin as (k' & Hk' & Hstrip').
      rewrite Hk in Hk'. injection Hk' as <-. now elim Hstrip'.
  - intros key Hp. unfold create_api_client. destruct p; try reflexivity.
    now elim Hp.
Qed.

Lemma supported_providers_have_keys_witness :
  let w := sample_world (fun _ => inr (png_image 1 1)) "" in
  let config := mkServerConfig OPENAI 10 30 3 60 (Some "  ") (Some "sk-ant")
                               None None None in
  get_supported_providers config = [ANTHROPIC]
  /\ effective_key config OPENAI None = inr "  "
  /\ ~ In OPENAI (get_supported_providers config).
Proof.
  intros w config. split; [reflexivity|].
  destruct (supported_providers_have_keys w config OPENAI)
    as (_ & _ & _ & Hblank & _).
  apply (Hblank "  "); [reflexivity | discriminate | reflexivity].
Defined.

(** ** models.py: the validators of the configuration *)

Lemma SFcompare_refl (x : spec_float) :
  x <> S754_nan -> SFcompare x x = Some Eq.
Proof.
  destruct x as [s|s| |s m e]; intros Hx; try (now elim Hx);
    destruct s; cbn; try reflexivity;
    rewrite Z.compare_refl;
    change (PosDef.Pos.compare_cont Eq m m) with (Pos.compare m m);
    now rewrite Pos.compare_refl.
Qed.

Lemma SFcompare_defined (x y : spec_float) :
  x <> S754_nan -> y <> S754_nan -> exists c, SFcompare x y = Some c.
Proof.
  destruct x as [sx|sx| |sx mx ex], y as [sy|sy| |sy my ey]; intros Hx Hy;
    try (now elim Hx); try (now elim Hy); cbn;
    repeat match goal with s : bool |- _ => destruct s end;
    try (eexists; reflexivity);
    destruct (ex ?= ey); eexists; reflexivity.
Qed.

Lemma not_nan_spec (v : float) :
  PrimFloat.eqb v v = true <-> Prim2SF v <> S754_nan.
Proof.
  rewrite eqb_spec. unfold SFeqb. split.
  - intros H Hnan. rewrite Hnan in H. discriminate H.
  - intros H. now rewrite SFcompare_refl.
Qed.

Lemma nan_spec (v : float) :
  PrimFloat.eqb v v = false -> Prim2SF v = S754_nan.
Proof.
  intros H. destruct (Prim2SF v) eqn:E; try reflexivity;
    (assert (Hn : PrimFloat.eqb v v = true)
       by (apply not_nan_spec; rewrite E; discriminate));
    congruence.
Qed.

Lemma not_leb_is_gt (x y : float) :
  PrimFloat.eqb x x = true -> PrimFloat.eqb y y = true ->
  PrimFloat.leb x y = false -> PrimFloat.ltb y x = true.
Proof.
  intros Hx Hy. apply not_nan_spec in Hx, Hy.
  rewrite leb_spec, ltb_spec. unfold SFleb, SFltb.
  destruct (SFcompare_defined _ _ Hx Hy) as [c E]. rewrite E.
  rewrite (SFcompare_antisym _ _ _ E). now destruct c.
Qed.

Lemma not_ltb_is_ge (x y : float) :
  PrimFloat.eqb x x = true -> PrimFloat.eqb y y = true ->
  PrimFloat.ltb x y = false -> PrimFloat.leb y x = true.
Proof.
  intros Hx Hy. apply not_nan_spec in Hx, Hy.
  rewrite leb_spec, ltb_spec. unfold SFleb, SFltb.
  destruct (SFcompare_defined _ _ Hx Hy) as [c E]. rewrite E.
  rewrite (SFcompare_antisym _ _ _ E). now destruct c.
Qed.

(** X20: the validator of [max_image_size_mb] accepts a number exactly when
    it is above 0 and at most 100, and it also accepts a value that is not a
    number; under such a limit [validate_image_size] rejects no buffer.  The
    validator of [request_timeout] accepts exactly the whole numbers from 1
    to 300.  Both return the value unchanged. *)
Theorem config_validators_accept (v : float) (t : Z) :
  (PrimFloat.eqb v v = true ->
   (validate_max_image_size v = inr v
    <-> PrimFloat.ltb 0 v = true /\ PrimFloat.leb v 100 = true))
  /\ (PrimFloat.eqb v v = false ->
      validate_max_image_size v = inr v
      /\ forall image_data, validate_image_size image_data v = inr tt)
  /\ (forall v', validate_max_image_size v = inr v' -> v' = v)
  /\ (validate_request_timeout t = inr t <-> 1 <= t <= 300)
  /\ (forall t', validate_request_timeout t = inr t' -> t' = t).
Proof.
  assert (H0 : PrimFloat.eqb 0 0 = true) by reflexivity.
  assert (H100 : PrimFloat.eqb 100 100 = true) by reflexivity.
  split; [|split; [|split; [|split]]].
  - intros Hv. unfold validate_max_image_size. split.
    + destruct (PrimFloat.leb v 0) eqn:Hle; [discriminate|].
      destruct (PrimFloat.ltb 100 v) eqn:Hlt; [discriminate|]. intros _.
      split; [now apply not_leb_is_gt | now apply not_ltb_is_ge].
    + intros [Hlt Hle].
      destruct (PrimFloat.leb v 0) eqn:Hle0.
      { apply leb_not_gt in Hle0. congruence. }
      destruct (PrimFloat.ltb 100 v) eqn:Hlt100; [|reflexivity].
      apply leb_not_gt in Hle. congruence.
  - intros Hv. apply nan_spec in Hv. split.
    + unfold validate_max_image_size. rewrite leb_spec, ltb_spec, Hv.
      unfold SFleb, SFltb.
      destruct (Prim2SF 100); reflexivity.
    + intros image_data. unfold validate_image_size.
      now rewrite ltb_spec, Hv.
  - intros v'. unfold validate_max_image_size.
    destruct (_ || _); [discriminate|]. intros H. now injection H.
  - unfold validate_request_timeout.
    destruct (t <=? 0) eqn:H1; [apply Z.leb_le in H1 | apply Z.leb_gt in H1];
      destruct (300 <? t) eqn:H2;
      try apply Z.ltb_lt in H2; try apply Z.ltb_ge in H2; cbn;
      (split; [try discriminate; intros _; lia | intros; try lia; reflexivity]).
  - intros t'. unfold validate_request_timeout.
    destruct (_ || _); [discriminate|]. intros H. now injection H.
Qed.

Lemma config_validators_accept_witness :
  validate_max_image_size 10 = inr 10%float
  /\ validate_max_image_size PrimFloat.nan = inr PrimFloat.nan
  /\ validate_image_size (repeat x00 3) PrimFloat.nan = inr tt.
Proof.
  destruct (config_validators_accept 10 30) as (Hnumber & _).
  destruct (config_validators_accept PrimFloat.nan 30) as (_ & Hnan & _).
  split; [apply Hnumber; [reflexivity | split; reflexivity]|].
  destruct (Hnan eq_refl) as [Haccepted Hlimit].
  split; [exact Haccepted | apply Hlimit].
Defined.

(** ** utils.py: the file loader *)

(** X21: the file loader returns bytes only after the file system has said,
    of the normalized path, that it exists and that it is a regular file,
    and then what reading that path gives, the three calls being made in
    this order and nothing else; when the path does not exist only the first
    question is asked and the error names the path as it was given. *)
Theorem file_loader_reads_normalized_path (w : World) (file_path : string)
    (l : log) :
  let clean_path := normpath file_path in
  (forall l' data,
     load_image_from_file w file_path l = (l', inr data) ->
     str_in ".." clean_path = false
     /\ l' = [EvReadBytes clean_path; EvPathIsFile clean_path;
              EvPathExists clean_path] ++ l
     /\ path_exists w l clean_path = true
     /\ path_is_file w (EvPathExists clean_path :: l) clean_path = true
     /\ path_read_bytes w (EvPathIsFile clean_path :: EvPathExists clean_path :: l)
                        clean_path = inr data)
  /\ (str_in ".." clean_path = false ->
      path_exists w l clean_path = false ->
      load_image_from_file w file_path l
      = (EvPathExists clean_path :: l,
         inl (Exn ImageLoadError
                (MCat [MStr "Failed to load image from file: ";
                       MCat [MStr "File not found: "; MStr file_path]])))).
Proof.
  intros clean_path. split.
  - intros l' data. unfold load_image_from_file, sanitize_file_path. run.
    fold clean_path.
    destruct (str_in ".." clean_path); [discriminate|].
    destruct (path_exists w l clean_path); cbn; [|discriminate].
    destruct (path_is_file w (EvPathExists clean_path :: l) clean_path); cbn;
      [|discriminate].
    destruct (path_read_bytes w _ clean_path) as [e|bytes_read] eqn:Hread; cbn;
      [discriminate|].
    intros H. injection H as <- <-. now repeat split.
  - intros Hclean Hmissing. unfold load_image_from_file, sanitize_file_path. run.
    fold clean_path. rewrite Hclean, Hmissing. reflexivity.
Qed.

Lemma file_loader_reads_normalized_path_witness :
  let w := sample_world (fun _ => inr (png_image 1 1)) "" in
  load_image_from_file w "photos/./cat.png" []
  = ([EvPathExists "photos/cat.png"],
     inl (Exn ImageLoadError
            (MCat [MStr "Failed to load image from file: ";
                   MCat [MStr "File not found: "; MStr "photos/./cat.png"]]))).
Proof.
  intros w.
  destruct (file_loader_reads_normalized_path w "photos/./cat.png" [])
    as [_ Hmissing].
  apply Hmissing; vm_compute; reflexivity.
Defined.

(** ** utils.py and base.py: a resized image at the provider's gate *)

(** X22: an image that [validate_and_process_image] has resized carries no
    format any more, so the gate of the OpenAI client guesses JPEG or PNG
    from its mode and never refuses its format, whatever the format of the
    file was: the only refusal left is that of the estimated size.  The
    metadata keep the format of the file, the one the codec reported for the
    buffer or else the one read from its first bytes, with its mode and its
    original size, and give the size of the resized image. *)
Theorem resized_image_passes_format_gate (w : World) (image_data : bytes)
    (max_size_mb : float) (resize_if_needed : bool) (l l' : log)
    (image : Image) (metadata : Metadata) :
  validate_and_process_image w image_data max_size_mb resize_if_needed l
  = (l', inr (image, metadata)) ->
  md_resized metadata = Some true ->
  img_format image = None
  /\ In (md_format metadata) supported_formats
  /\ (validate_image OPENAI_FORMATS OPENAI_MAX_MB image = inr tt
      \/ exists estimated_size_mb,
           validate_image OPENAI_FORMATS OPENAI_MAX_MB image
           = inl (Exn ValueError
                    (MCat [MStr "Image too large: ~";
                           MFloat estimated_size_mb ".1f"; MStr "MB. ";
                           MStr "Maximum size: "; MFloat OPENAI_MAX_MB "";
                           MStr "MB"])))
  /\ exists opened,
       image_open w image_data = inr opened
       /\ md_format metadata
          = match img_format opened with
            | Some f => f
            | None => sniff_format image_data
            end
       /\ md_mode metadata = img_mode opened
       /\ md_original_size metadata
          = Some (img_width opened, img_height opened)
       /\ md_size_bytes metadata = Z.of_nat (length image_data)
       /\ img_mode image = img_mode opened
       /\ md_width metadata = img_width image
       /\ md_height metadata = img_height image.
Proof.
  unfold validate_and_process_image. run.
  destruct (validate_image_size image_data max_size_mb) as [e|[]];
    [now destruct (is_image_error e)|].
  destruct (image_open w image_data) as [e|opened];
    [now destruct (is_image_error e)|].
  set (format := match img_format opened with
                 | Some f => f
                 | None => sniff_format image_data
                 end).
  destruct (validate_image_format (set_format opened format)) as [e|[]] eqn:Hfmt;
    [now destruct (is_image_error e)|].
  assert (Hin : In format supported_formats).
  { apply validate_image_format_accepts in Hfmt as (f & Hf & Hin).
    cbn in Hf. now injection Hf as <-. }
  assert (Hgate : forall width height mode,
            let resized := mkImage None width height mode false in
            validate_image OPENAI_FORMATS OPENAI_MAX_MB resized = inr tt
            \/ exists estimated_size_mb,
                 validate_image OPENAI_FORMATS OPENAI_MAX_MB resized
                 = inl (Exn ValueError
                          (MCat [MStr "Image too large: ~";
                                 MFloat estimated_size_mb ".1f"; MStr "MB. ";
                                 MStr "Maximum size: "; MFloat OPENAI_MAX_MB "";
                                 MStr "MB"]))).
  { intros width height mode resized. unfold validate_image.
    cbn [img_format img_has_getexif img_mode img_width img_height resized orb].
    assert (Hknown :
              str_mem (if str_mem mode ["RGB"; "RGBA"] then "JPEG"
                       else if str_mem mode ["P"; "L"] then "PNG" else "JPEG")
                      OPENAI_FORMATS = true).
    { destruct (str_mem mode ["RGB"; "RGBA"]); [reflexivity|].
      destruct (str_mem mode ["P"; "L"]); reflexivity. }
    rewrite Hknown. cbn [negb].
    destruct (PrimFloat.ltb OPENAI_MAX_MB _); [right; eexists; reflexivity|].
    now left. }
  destruct resize_if_needed.
  - destruct (_ || _).
    + destruct (py_truediv max_dimension _) as [e|rw];
        [now destruct (is_image_error e)|].
      destruct (py_truediv max_dimension _) as [e|rh];
        [now destruct (is_image_error e)|].
      destruct (scaled_side _ _) as [e|new_w];
        [now destruct (is_image_error e)|].
      destruct (scaled_side _ _) as [e|new_h];
        [now destruct (is_image_error e)|].
      unfold resize, call.
      destruct (image_resize_error w _ new_w new_h) as [e|];
        [now destruct (is_image_error e)|].
      intros H. injection H as _ <- <-. intros _.
      split; [reflexivity|]. split; [exact Hin|]. split; [apply Hgate|].
      exists opened. cbn. now repeat split.
    + intros H. injection H as _ _ <-. discriminate.
  - intros H. injection H as _ _ <-. discriminate.
Qed.

Lemma resized_image_passes_format_gate_witness :
  let bmp := mkImage (Some "BMP") 4096 1000 "RGB" false in
  let w := sample_world (fun _ => inr bmp) "" in
  validate_image OPENAI_FORMATS OPENAI_MAX_MB bmp
  = inl (Exn ValueError
           (MCat [MStr "Unsupported image format: "; MStr "BMP"; MStr ". ";
                  MStr "Supported formats: "; MJoin ", " OPENAI_FORMATS]))
  /\ exists l' image metadata,
       validate_and_process_image w [x42; x4d] 10 true []
       = (l', inr (image, metadata))
       /\ md_format metadata = "BMP"
       /\ md_original_size metadata = Some (4096, 1000)
       /\ img_format image = None
       /\ validate_image OPENAI_FORMATS OPENAI_MAX_MB image = inr tt.
Proof.
  intros bmp w. split; [vm_compute; reflexivity|].
  destruct (validate_and_process_image w [x42; x4d] 10 true [])
    as [l' [e|[image metadata]]] eqn:E; [vm_compute in E; discriminate E|].
  exists l', image, metadata.
  assert (Hresized : md_resized metadata = Some true).
  { vm_compute in E. now injection E as _ _ <-. }
  destruct (resized_image_passes_format_gate w [x42; x4d] 10 true [] l' image
              metadata E Hresized)
    as (Hformat & _ & _ & opened & Hopened & Hkept & _ & Horiginal & _).
  cbn in Hopened. injection Hopened as <-.
  split; [reflexivity|]. split; [exact Hkept|]. split; [exact Horiginal|].
  split; [exact Hformat|].
  vm_compute in E. injection E as _ <- _. vm_compute. reflexivity.
Defined.
